(** * passport: the session manager and the authenticate middleware

    A shallow embedding of [lib/sessionmanager.js] and of the middleware
    factory [authenticate(passport, name, options, callback)], followed by
    the properties of the chain-execution protocol, of the strategy action
    verbs and of session login and logout.

    The parts use two views of JavaScript data.

    - [SessionManager] works on an object graph: objects live in a heap
      and are named by addresses, because [logIn] stores one and the same
      object under [req._passport.session] and under [req.session[key]],
      and [logOut] relies on that sharing.
    - [Authenticate] keeps the request, the response and the options in
      separate fields of a world record, and holds data objects by value:
      it is the middleware on data in which no object is held in two
      places.  The one alias the middleware creates itself, the local
      [flash] standing for the object held in the options, is written
      through to the options.
    - [AuthenticateHeap] is the middleware on an object graph again,
      where an object of the configuration may be held in several places;
      it is the view in which what the middleware writes, and what it
      leaves alone, is stated. *)

From stdpp Require Import gmap strings list fin_maps.
From Stdlib Require Import ZArith DecimalString.

Set Warnings "-register-all".
#[local] Open Scope Z_scope.

(** ** Effects

    An operation runs in a world [W]; it either completes with a value or
    throws a [TypeError], and in both cases the world reached so far is
    kept. *)

Inductive result (W A : Type) :=
| Ok (a : A) (w : W)
| Throws (w : W).
Arguments Ok {W A} a w.
Arguments Throws {W A} w.

Definition M (W A : Type) := W -> result W A.

Definition ret {W A} (a : A) : M W A := fun w => Ok a w.
Definition bind {W A B} (m : M W A) (k : A -> M W B) : M W B :=
  fun w => match m w with
           | Ok a w' => k a w'
           | Throws w' => Throws w'
           end.
Definition throw {W A} : M W A := fun w => Throws w.

Notation "'let*' x ':=' m 'in' k" := (bind m (fun x => k))
  (at level 10, x name, m at level 100, k at level 200).
Notation "m ';;' k" := (bind m (fun _ => k))
  (at level 100, k at level 200, right associativity).

(** The world an outcome ends in. *)
Definition final {W A} (r : result W A) : W :=
  match r with Ok _ w => w | Throws w => w end.

(** ** lib/sessionmanager.js *)

Module SessionManager.

Definition loc := positive.

(** Values of the object graph.  An object is an address in the heap. *)
Inductive value :=
| Undefined
| Null
| Bool (b : bool)
| Num (n : Z)
| Str (s : string)
| Ref (l : loc).

#[export] Instance value_inhabited : Inhabited value := populate Undefined.

#[export] Instance value_eq_dec : EqDecision value.
Proof. solve_decision. Defined.

(** JavaScript truthiness, as tested by [if (x)], [!x] and [x && y]. *)
Definition truthy (v : value) : bool :=
  match v with
  | Undefined | Null => false
  | Bool b => b
  | Num n => negb (n =? 0)
  | Str s => negb (String.eqb s "")
  | Ref _ => true
  end.

Record world := World {
  heap : gmap loc (gmap string value);
  (** the argument lists of the calls made to the completion callback,
      oldest first *)
  calls : list (list value)
}.

(** The object stored at an address; an address nothing was stored at
    reads as the empty object. *)
Definition object_at (h : gmap loc (gmap string value)) (l : loc) : gmap string value :=
  default ∅ (h !! l).

(** [v.p]: throws on [undefined] and [null], is [undefined] on the other
    primitives (none of the properties read here exists on a wrapper). *)
Definition get (v : value) (p : string) : M world value :=
  fun w => match v with
           | Undefined | Null => Throws w
           | Ref l => Ok (object_at (heap w) l !!! p) w
           | _ => Ok Undefined w
           end.

(** [v.p = x].  The file is not in strict mode: a write to a primitive is
    dropped silently; a write to [undefined] or [null] throws. *)
Definition set (v : value) (p : string) (x : value) : M world unit :=
  fun w => match v with
           | Undefined | Null => Throws w
           | Ref l => Ok tt (World (<[l := <[p := x]> (object_at (heap w) l)]> (heap w)) (calls w))
           | _ => Ok tt w
           end.

(** [delete v.p], reached here only with a truthy [v]. *)
Definition delete_prop (v : value) (p : string) : M world unit :=
  fun w => match v with
           | Undefined | Null => Throws w
           | Ref l => Ok tt (World (alter (delete p) l (heap w)) (calls w))
           | _ => Ok tt w
           end.

(** The object literal [{}]: a fresh address holding no property. *)
Definition new_object : M world value :=
  fun w => let l := fresh (dom (heap w)) in
           Ok (Ref l) (World (<[l := ∅]> (heap w)) (calls w)).

(** A call [cb(args)] of the completion callback. *)
Definition call_cb (args : list value) : M world unit :=
  fun w => Ok tt (World (heap w) (calls w ++ [args])).

(** The identity serializer is supplied from outside.  It is modelled by
    the pair [(err, obj)] it hands to its callback, which may depend on the
    identity, on the request and on the heap. *)
Definition serializer := value -> value -> gmap loc (gmap string value) -> value * value.

Record SessionManager := {
  _key : string;
  _serializeUser : option serializer
}.

(** First argument of the constructor: an options object (of which only
    [key] is read), a function, or nothing. *)
Inductive ctor_arg :=
| ArgOptions (key : option string)
| ArgFunction (f : serializer)
| ArgNone.

(** [function SessionManager(options, serializeUser)] *)
Definition new (options : ctor_arg) (serializeUser : option serializer) : SessionManager :=
  let serializeUser := match options with ArgFunction f => Some f | _ => serializeUser end in
  let key := match options with ArgOptions k => k | _ => None end in
  {| _key := match key with
             | Some k => if String.eqb k "" then "passport" else k
             | None => "passport"
             end;
     _serializeUser := serializeUser |}.

(** [req._passport.session]; throws when [req._passport] is missing. *)
Definition passport_session (req : value) : M world value :=
  let* p := get req "_passport" in get p "session".

(** [SessionManager.prototype.logIn = function logIn(req, user, cb)] *)
Definition logIn (self : SessionManager) (req user : value) : M world unit :=
  match _serializeUser self with
  | None => throw
  | Some serializeUser =>
    fun w =>
      let '(err, obj) := serializeUser user req (heap w) in
      (if truthy err then call_cb [err]
       else
         (* if (!req._passport.session) { req._passport.session = {}; } *)
         let* s := passport_session req in
         (if negb (truthy s)
          then let* p := get req "_passport" in
               let* o := new_object in
               set p "session" o
          else ret tt);;
         (* req._passport.session.user = obj; *)
         let* s := passport_session req in
         set s "user" obj;;
         (* if (!req.session) { req.session = {}; } *)
         let* rs := get req "session" in
         (if negb (truthy rs)
          then let* o := new_object in set req "session" o
          else ret tt);;
         (* req.session[self._key] = req._passport.session; *)
         let* rs := get req "session" in
         let* s := passport_session req in
         set rs (_key self) s;;
         call_cb []) w
  end.

(** [SessionManager.prototype.logOut = function logOut(req, cb)];
    [cb] tells whether a completion callback was given. *)
Definition logOut (req : value) (cb : bool) : M world unit :=
  (* if (req._passport && req._passport.session) *)
  let* p := get req "_passport" in
  let* s := if truthy p then get p "session" else ret p in
  (if truthy s
   then let* s := passport_session req in delete_prop s "user"
   else ret tt);;
  (* cb && cb(); *)
  if cb then call_cb [] else ret tt.

(** *** Notions used to state the properties *)

(** [req.session[key]]; throws when [req.session] is missing. *)
Definition session_entry (req : value) (key : string) : M world value :=
  let* rs := get req "session" in get rs key.

(** The address of the object [logOut] deletes from, if any: the value of
    [req._passport.session] when that value is an object. *)
Definition target (h : gmap loc (gmap string value)) (r : loc) : option loc :=
  match object_at h r !!! "_passport" with
  | Ref p => match object_at h p !!! "session" with
             | Ref l => Some l
             | _ => None
             end
  | _ => None
  end.

Definition heap_after_logOut (h : gmap loc (gmap string value)) (r : loc) :
    gmap loc (gmap string value) :=
  match target h r with
  | Some l => alter (delete "user") l h
  | None => h
  end.

(** A slot that is either empty (falsy) or holds an allocated object
    outside [avoid]. *)
Definition vacant_or_object (h : gmap loc (gmap string value)) (avoid : list loc)
    (v : value) : Prop :=
  truthy v = false \/ exists l, v = Ref l /\ is_Some (h !! l) /\ l ∉ avoid.

(** The object a slot stands for once [logIn] has filled it: the one it
    held, or the one freshly allocated in the heap [h]. *)
Definition filled (h : gmap loc (gmap string value)) (v : value) : loc :=
  match v with
  | Ref l => l
  | _ => fresh (dom h)
  end.

(** The heap [logIn] leaves, for a request [r] whose [_passport] is the
    object [p]: the writes of the callback body, in its order. *)
Definition heap_after_logIn (h : gmap loc (gmap string value)) (r p : loc)
    (key : string) (obj : value) : gmap loc (gmap string value) :=
  let s0 := object_at h p !!! "session" in
  let l := filled h s0 in
  let h1 := if truthy s0 then h
            else <[p := <["session" := Ref l]> (object_at h p)]> (<[l := ∅]> h) in
  let h2 := <[l := <["user" := obj]> (object_at h1 l)]> h1 in
  let rs0 := object_at h r !!! "session" in
  let rs := filled h2 rs0 in
  let h3 := if truthy rs0 then h2
            else <[r := <["session" := Ref rs]> (object_at h2 r)]> (<[rs := ∅]> h2) in
  <[rs := <[key := Ref l]> (object_at h3 rs)]> h3.

(** A request [r] that went through initialisation: [req._passport] is an
    allocated object [p] other than the request, and [req._passport.session]
    and [req.session] are each either empty or an allocated object of its
    own. *)
Definition initialised (h : gmap loc (gmap string value)) (r p : loc) : Prop :=
  object_at h r !!! "_passport" = Ref p
  /\ p <> r
  /\ is_Some (h !! p)
  /\ vacant_or_object h [r; p] (object_at h p !!! "session")
  /\ vacant_or_object h [r; p; filled h (object_at h p !!! "session")]
       (object_at h r !!! "session").

(** *** Sample requests *)

(** A request as [logIn] leaves it under the default key: the object at
    address 3 is both [req._passport.session] and [req.session.passport]. *)
Definition logged_in : world :=
  World (<[1%positive := {[ "_passport" := Ref 2%positive; "session" := Ref 4%positive ]}]>
        (<[2%positive := {[ "session" := Ref 3%positive ]}]>
        (<[3%positive := {[ "user" := Str "bob"; "seen" := Num 7 ]}]>
        (<[4%positive := {[ "passport" := Ref 3%positive; "returnTo" := Str "/dash" ]}]> ∅))))
        [].

(** A request whose session holds a [passport] record with a user, but
    which carries no [_passport]. *)
Definition detached : world :=
  World (<[1%positive := {[ "session" := Ref 2%positive ]}]>
        (<[2%positive := {[ "passport" := Ref 3%positive ]}]>
        (<[3%positive := {[ "user" := Str "bob" ]}]> ∅)))
        [].

(** A request that went through initialisation but holds no session
    data yet. *)
Definition anonymous : world :=
  World (<[1%positive := {[ "_passport" := Ref 2%positive ]}]>
        (<[2%positive := ∅]> ∅))
        [].

(** A serializer that hands the identity back as its serialized form. *)
Definition echo_serializer : serializer :=
  fun user _ _ => (Null, user).

(** A serializer that always reports an error. *)
Definition failing_serializer : serializer :=
  fun _ _ _ => (Str "cannot serialize", Undefined).

End SessionManager.

(** ** lib/middleware/authenticate.js *)

Module Authenticate.

(** Values held by value.  The three kinds of object (plain object, array,
    function) each carry their own properties; a function is known by its
    source text, which is what converting it to a string yields.  Numbers
    are integers, [VNum n] standing for the number the literal [n]
    denotes: the middleware tests a number for truthiness and for identity
    with [401], and converts one to a string where it names a property. *)
Inductive value :=
| VUndef
| VNull
| VBool (b : bool)
| VNum (n : Z)
| VStr (s : string)
| VObj (props : gmap string value)
| VArr (elems : list value) (props : gmap string value)
| VFun (src : string) (props : gmap string value).

#[export] Instance value_inhabited : Inhabited value := populate VUndef.

(** [{}] *)
Definition empty_object : value := VObj ∅.

(** An array literal. *)
Definition array (elems : list value) : value := VArr elems ∅.

Definition truthy (v : value) : bool :=
  match v with
  | VUndef | VNull => false
  | VBool b => b
  | VNum n => negb (n =? 0)
  | VStr s => negb (String.eqb s "")
  | VObj _ | VArr _ _ | VFun _ _ => true
  end.

Definition typeof (v : value) : string :=
  match v with
  | VUndef => "undefined"
  | VNull | VObj _ | VArr _ _ => "object"
  | VBool _ => "boolean"
  | VNum _ => "number"
  | VStr _ => "string"
  | VFun _ _ => "function"
  end.

(** [a || b] *)
Definition or (a b : value) : value := if truthy a then a else b.

(** [v.p] for a [v] that is neither [undefined] nor [null], and a [p] among
    the names the middleware reads ([type], [message], [save], [returnTo],
    [messages], [push]): none of them is an index, [length] or a builtin of
    a primitive wrapper, so only own properties count. *)
Definition prop (v : value) (p : string) : value :=
  match v with
  | VObj props | VArr _ props | VFun _ props => props !!! p
  | _ => VUndef
  end.

(** [v.p = x] in strict mode: [None] is the [TypeError] thrown for
    [undefined], [null] and every other primitive. *)
Definition set_prop (v : value) (p : string) (x : value) : option value :=
  match v with
  | VObj props => Some (VObj (<[p := x]> props))
  | VArr elems props => Some (VArr elems (<[p := x]> props))
  | VFun src props => Some (VFun src (<[p := x]> props))
  | _ => None
  end.

(** [delete v.p] on an object. *)
Definition delete_prop (v : value) (p : string) : value :=
  match v with
  | VObj props => VObj (delete p props)
  | VArr elems props => VArr elems (delete p props)
  | VFun src props => VFun src (delete p props)
  | _ => v
  end.

(** The number a decimal integer literal [n >= 0] denotes: the nearest
    IEEE double, ties to even; [None] is [Infinity]. *)
Definition nearest_double (n : Z) : option Z :=
  if n <? 2 ^ 53 then Some n
  else
    let k := Z.log2 n - 52 in
    let q := n / 2 ^ k in
    let r := n mod 2 ^ k in
    let half := 2 ^ (k - 1) in
    let q' := if (half <? r) || ((r =? half) && Z.odd q) then q + 1 else q in
    let m := q' * 2 ^ k in
    if 2 ^ 1024 <=? m then None else Some m.

(** Whether the decimal value [v] reads back as the double [x >= 2^53]:
    it lies within half a gap of [x], the ends included when the mantissa
    of [x] is even. *)
Definition reads_back (x v : Z) : bool :=
  let k := Z.log2 x - 52 in
  let m := x / 2 ^ k in
  let ulp := 2 ^ k in
  let lo4 := 4 * x - (if m =? 2 ^ 52 then ulp else 2 * ulp) in
  let hi4 := 4 * x + 2 * ulp in
  if Z.even m then (lo4 <=? 4 * v) && (4 * v <=? hi4)
  else (lo4 <? 4 * v) && (4 * v <? hi4).

(** The shortest decimal that reads back as the double [x >= 2^53]: the
    multiple of the largest power of ten that does, the closest one when
    both neighbours of [x] do. *)
Fixpoint shortest (p : nat) (x : Z) : Z :=
  let g := 10 ^ Z.of_nat p in
  let lo := x / g * g in
  let hi := lo + g in
  let pick :=
    match reads_back x lo, reads_back x hi with
    | true, true =>
        if x - lo <? hi - x then Some lo
        else if hi - x <? x - lo then Some hi
        else if Z.even (lo / g) then Some lo else Some hi
    | true, false => Some lo
    | false, true => Some hi
    | false, false => None
    end in
  match pick, p with
  | Some v, _ => v
  | None, O => x
  | None, S p' => shortest p' x
  end.

Definition digits (n : Z) : string := NilZero.string_of_uint (N.to_uint (Z.to_N n)).

Fixpoint strip_zeros (fuel : nat) (s : Z) : Z :=
  match fuel with
  | O => s
  | S f => if (0 <? s) && (s mod 10 =? 0) then strip_zeros f (s / 10) else s
  end.

(** [Number::toString] for the number a non-negative integer literal
    denotes: plain digits up to 21 of them, the exponent form beyond. *)
Definition unsigned_to_string (n : Z) : string :=
  match nearest_double n with
  | None => "Infinity"
  | Some x =>
      if x <? 2 ^ 53 then digits x
      else
        let v := shortest 310 x in
        let len := String.length (digits v) in
        if (len <=? 21)%nat then digits v
        else
          let s := digits (strip_zeros 400 v) in
          match s with
          | EmptyString => ""
          | String d EmptyString => String d ("e+" +:+ digits (Z.of_nat len - 1))
          | String d rest => String d ("." +:+ rest +:+ "e+" +:+ digits (Z.of_nat len - 1))
          end
  end.

(** [Number::toString] for an integer literal. *)
Definition number_to_string (n : Z) : string :=
  if n <? 0 then "-" +:+ unsigned_to_string (- n) else unsigned_to_string n.

(** Conversion to a string, as a template literal and a computed property
    key perform it.  An object converts through the built-in [toString] of
    its kind: conversion methods of its own ([toString], [valueOf],
    [join]) are outside the model. *)
Fixpoint to_string (v : value) : string :=
  match v with
  | VUndef => "undefined"
  | VNull => "null"
  | VBool true => "true"
  | VBool false => "false"
  | VNum n => number_to_string n
  | VStr s => s
  | VObj _ => "[object Object]"
  | VArr elems _ =>
      (fix join (l : list value) : string :=
         match l with
         | [] => ""
         | x :: l' =>
             (match x with VUndef | VNull => "" | _ => to_string x end)
             +:+ (match l' with [] => "" | _ => "," +:+ join l' end)
         end) elems
  | VFun src _ => src
  end.

(** [x !== false] *)
Definition is_not_false (v : value) : bool :=
  match v with VBool false => false | _ => true end.

(** [x === 401] *)
Definition is_401 (v : value) : bool :=
  match v with VNum n => n =? 401 | _ => false end.

(** The errors handed to [next]. *)
Inductive error :=
| ErrValue (err : value)
  (** an error value received from a collaborator and passed on *)
| ErrUnknownStrategy (message : string)
  (** [new Error(message)] *)
| ErrAuthentication (message status : value).
  (** [new AuthenticationError(message, status)] *)

(** What the middleware does to the outside, in the order it does it. *)
Inductive event :=
| EAuthenticate (i : nat)
  (** [strategy.authenticate(req, options)] for the chain entry [i] *)
| ECallback (args : list value)
| ENext (err : option error)
| EFlash (type msg : value)
  (** [req.flash(type, msg)] *)
| EPush (msg : value)
  (** [req.session.messages.push(msg)] where [messages] is not an array
      but brings a [push] function of its own *)
| ESessionSave
  (** [req.session.save(cb)], whose [cb] then runs *)
| EResRedirect (url : value)
  (** [res.redirect(url)] *)
| ESetHeader (name : string) (v : value)
| EEnd (body : option value)
| ELogIn (user : value)
  (** [req.logIn(user, options, cb)] *)
| ETransformAuthInfo (info : value).

Record world := World {
  options : gmap string value;
  req : gmap string value;
  statusCode : value;          (** [res.statusCode] *)
  trace : list event
}.

Definition emit (e : event) : M world unit :=
  fun w => Ok tt (World (options w) (req w) (statusCode w) (trace w ++ [e])).

(** [options.key] *)
Definition opt (key : string) : M world value :=
  fun w => Ok (options w !!! key) w.

Definition write_option (key : string) (v : value) : M world unit :=
  fun w => Ok tt (World (<[key := v]> (options w)) (req w) (statusCode w) (trace w)).

(** [req.key] *)
Definition read_req (key : string) : M world value :=
  fun w => Ok (req w !!! key) w.

Definition write_req (key : string) (v : value) : M world unit :=
  fun w => Ok tt (World (options w) (<[key := v]> (req w)) (statusCode w) (trace w)).

Definition read_statusCode : M world value :=
  fun w => Ok (statusCode w) w.

Definition write_statusCode (v : value) : M world unit :=
  fun w => Ok tt (World (options w) (req w) v (trace w)).

(** [req.session.p = x] *)
Definition write_session (p : string) (x : value) : M world unit :=
  let* session := read_req "session" in
  match set_prop session p x with
  | Some session' => write_req "session" session'
  | None => throw
  end.

(** [req.session.p], throwing when there is no session. *)
Definition read_session (p : string) : M world value :=
  let* session := read_req "session" in
  match session with
  | VUndef | VNull => throw
  | _ => ret (prop session p)
  end.

(** The verb a strategy invokes, with the arguments it passes. *)
Inductive action :=
| Success (user info : value)
| Fail (challenge status : value)
| Redirect (url status : value)
| Pass
| Error (err : value).

(** A strategy is known by the one verb its [authenticate(req, options)]
    invokes. *)
Definition strategy := gmap string value -> gmap string value -> action.

(** An entry of the chain: a strategy instance, that is an object whose
    [authenticate] is a function, or a name for the registry. *)
Inductive layer :=
| Instance (s : strategy)
| Name (n : string).

(** Truthiness of an entry, as [!layer] tests it: an instance is truthy,
    a name is truthy unless it is the empty string. *)
Definition layer_truthy (l : layer) : bool :=
  match l with
  | Instance _ => true
  | Name n => negb (String.eqb n "")
  end.

(** The [name] argument: one entry or an array of entries. *)
Inductive names :=
| Single (l : layer)
| Many (ls : list layer).

(** The authenticator, as far as the middleware uses it. *)
Record Passport := {
  _strategy : string -> option strategy;
  (** the pair [(err, tinfo)] that [transformAuthInfo(info, req, cb)]
      hands to [cb] *)
  transformAuthInfo : value -> gmap string value -> value * value
}.

(** An element of the [failures] accumulator. *)
Record failure := Failure { challenge : value; status : value }.

Definition dquote : string := String (Ascii.ascii_of_nat 34) EmptyString.

Section Middleware.

(** Collaborators that live outside these sources. *)

(** [http.STATUS_CODES[code]] *)
Variable STATUS_CODES : value -> value.
(** The error, if any, that [req.logIn(user, options, cb)] hands to [cb];
    it may depend on the identity, the options and the request. *)
Variable logIn : value -> gmap string value -> gmap string value -> value.

(** The variables the returned middleware closes over.  [callback] tells
    whether the application supplied one. *)
Variable passport : Passport.
Variable multi : bool.
Variable callback : bool.

(** [function redirect(url)] *)
Definition redirect (url : value) : M world unit :=
  let* session := read_req "session" in
  if truthy session && truthy (prop session "save")
     && String.eqb (typeof (prop session "save")) "function"
  then emit ESessionSave;; emit (EResRedirect url)
  else emit (EResRedirect url).

(** The flash block shared, up to names, by [allFailed] and [success]:
    [key] is [failureFlash] or [successFlash], [dflt] is ['error'] or
    ['success'], [source] is [challenge] or [info].

    The local [flash] is either the value held in the options or, for the
    string shorthand, a fresh object; [shared] records which.  The
    assignment [flash.type = ...] reaches the options in the first case:
    with objects held by value, it shows under [key] alone.  Where the
    same object is held elsewhere too, the write shows there as well; that
    is [AuthenticateHeap.flash_block]. *)
Definition flash_block (key dflt : string) (source : value) : M world unit :=
  let* configured := opt key in
  if truthy configured then
    (* let flash = options[key]; *)
    let flash := configured in
    let shared := negb (String.eqb (typeof flash) "string") in
    (* if (typeof flash === 'string') { flash = { type: dflt, message: flash }; } *)
    let flash :=
      if String.eqb (typeof flash) "string"
      then VObj (<["message" := flash]> (<["type" := VStr dflt]> ∅))
      else flash in
    (* if (typeof flash !== 'boolean') { flash.type = flash.type || dflt; } *)
    let* flash :=
      if negb (String.eqb (typeof flash) "boolean")
      then match set_prop flash "type" (or (prop flash "type") (VStr dflt)) with
           | Some flash' =>
               (if shared then write_option key flash' else ret tt);;
               ret flash'
           | None => throw
           end
      else ret flash in
    let type := or (or (prop flash "type") (prop source "type")) (VStr dflt) in
    let msg := or (or (prop flash "message") (prop source "message")) source in
    if String.eqb (typeof msg) "string"
    then let* f := read_req "flash" in
         if String.eqb (typeof f) "function" then emit (EFlash type msg) else throw
    else ret tt
  else ret tt.

(** The message block shared by [allFailed] and [success]: [key] is
    [failureMessage] or [successMessage]. *)
Definition message_block (key : string) (source : value) : M world unit :=
  let* configured := opt key in
  if truthy configured then
    let msg := configured in
    let msg :=
      if String.eqb (typeof msg) "boolean"
      then or (prop source "message") source
      else msg in
    if String.eqb (typeof msg) "string" then
      (* req.session.messages = req.session.messages || []; *)
      let* messages := read_session "messages" in
      write_session "messages" (or messages (array []));;
      (* req.session.messages.push(msg); *)
      let* messages := read_session "messages" in
      match messages with
      | VArr elems props => write_session "messages" (VArr (elems ++ [msg]) props)
      | _ => if String.eqb (typeof (prop messages "push")) "function"
             then emit (EPush msg)
             else throw
      end
    else ret tt
  else ret tt.

(** The loop [failures.forEach(...)] of [allFailed]: the pair
    [(rstatus, rchallenge)] after the last element. *)
Definition collect (failures : list failure) : value * list value :=
  fold_left
    (fun acc f =>
       (or (fst acc) (status f),
        if String.eqb (typeof (challenge f)) "string"
        then snd acc ++ [challenge f]
        else snd acc))
    failures (VUndef, []).

(** [function allFailed()] *)
Definition allFailed (failures : list failure) : M world unit :=
  if callback then
    if negb multi then
      match failures !! 0%nat with
      | Some f => emit (ECallback [VNull; VBool false; challenge f; status f])
      | None => throw
      end
    else
      let challenges := map challenge failures in
      let statuses := map status failures in
      emit (ECallback [VNull; VBool false; array challenges; array statuses])
  else
    (* const failure = failures[0] || {}; *)
    let failure_challenge :=
      match failures !! 0%nat with Some f => challenge f | None => VUndef end in
    (* const challenge = failure.challenge || {}; *)
    let challenge := or failure_challenge empty_object in
    flash_block "failureFlash" "error" challenge;;
    message_block "failureMessage" challenge;;
    let* failureRedirect := opt "failureRedirect" in
    if truthy failureRedirect then redirect failureRedirect
    else
      let rstatus := fst (collect failures) in
      let rchallenge := snd (collect failures) in
      write_statusCode (or rstatus (VNum 401));;
      let* code := read_statusCode in
      (if is_401 code && negb (length rchallenge =? 0)%nat
       then emit (ESetHeader "WWW-Authenticate" (array rchallenge))
       else ret tt);;
      let* failWithError := opt "failWithError" in
      let* code := read_statusCode in
      if truthy failWithError
      then emit (ENext (Some (ErrAuthentication (STATUS_CODES code) rstatus)))
      else emit (EEnd (Some (STATUS_CODES code))).

(** [function complete()] *)
Definition complete : M world unit :=
  let* successReturnToOrRedirect := opt "successReturnToOrRedirect" in
  if truthy successReturnToOrRedirect then
    let url := successReturnToOrRedirect in
    let* session := read_req "session" in
    let* url :=
      if truthy session && truthy (prop session "returnTo")
      then write_req "session" (delete_prop session "returnTo");;
           ret (prop session "returnTo")
      else ret url in
    redirect url
  else
    let* successRedirect := opt "successRedirect" in
    if truthy successRedirect then redirect successRedirect
    else emit (ENext None).

(** [strategy.success = function success(user, info)] *)
Definition success (user info : value) : M world unit :=
  if callback then emit (ECallback [VNull; user; info])
  else
    let info := or info empty_object in
    flash_block "successFlash" "success" info;;
    message_block "successMessage" info;;
    let* assignProperty := opt "assignProperty" in
    if truthy assignProperty then
      write_req (to_string assignProperty) user;;
      emit (ENext None)
    else
      let* f := read_req "logIn" in
      if negb (String.eqb (typeof f) "function") then throw
      else
        emit (ELogIn user);;
        let* err := (fun w => Ok (logIn user (options w) (req w)) w) in
        if truthy err then emit (ENext (Some (ErrValue err)))
        else
          let* authInfo := opt "authInfo" in
          if is_not_false authInfo then
            emit (ETransformAuthInfo info);;
            let* r := (fun w => Ok (transformAuthInfo passport info (req w)) w) in
            if truthy (fst r) then emit (ENext (Some (ErrValue (fst r))))
            else write_req "authInfo" (snd r);; complete
          else complete.

(** [strategy.fail = function fail(challenge, status)]: the element pushed
    onto [failures]. *)
Definition fail (challenge status : value) : failure :=
  if String.eqb (typeof challenge) "number"
  then Failure VUndef challenge
  else Failure challenge status.

(** [strategy.redirect = function redirect(url, status)] *)
Definition strategy_redirect (url status : value) : M world unit :=
  write_statusCode (or status (VNum 302));;
  emit (ESetHeader "Location" url);;
  emit (ESetHeader "Content-Length" (VStr "0"));;
  emit (EEnd None).

(** [strategy.pass = function pass()] *)
Definition pass : M world unit := emit (ENext None).

(** [strategy.error = function error(err)] *)
Definition error_ (err : value) : M world unit :=
  if callback then emit (ECallback [err])
  else emit (ENext (Some (ErrValue err))).

(** The strategy for an entry: the entry itself when it is an instance,
    otherwise what the registry holds under the name. *)
Definition resolve (l : layer) : option strategy :=
  match l with
  | Instance s => Some s
  | Name n => _strategy passport n
  end.

Definition layer_text (l : layer) : string :=
  match l with
  | Instance _ => "[object Object]"
  | Name n => n
  end.

(** [(function attempt(i) { ... }(0))].  [rest] is the part of [name] from
    index [i] on, so that [name[i]] is its head; [fail] calls
    [attempt(i + 1)], which is the call on the tail. *)
Fixpoint attempt (rest : list layer) (i : nat) (failures : list failure) : M world unit :=
  match rest with
  | [] => allFailed failures
  | layer :: rest' =>
      if negb (layer_truthy layer) then allFailed failures
      else
        match resolve layer with
        | None =>
            emit (ENext (Some (ErrUnknownStrategy
              ("Unknown authentication strategy " +:+ dquote +:+ layer_text layer +:+ dquote))))
        | Some strategy =>
            emit (EAuthenticate i);;
            fun w =>
              match strategy (req w) (options w) with
              | Success user info => success user info w
              | Fail challenge status =>
                  attempt rest' (S i) (failures ++ [fail challenge status]) w
              | Redirect url status => strategy_redirect url status w
              | Pass => pass w
              | Error err => error_ err w
              end
        end
  end.

End Middleware.

(** The [options] argument of the factory: an object, a function (taken as
    the callback), or nothing. *)
Inductive options_arg :=
| OptionsObject (o : gmap string value)
| OptionsFunction
| OptionsNone.

(** What [authenticate(passport, name, options, callback)] returns: a
    middleware closed over the chain, the options object and the
    callback. *)
Record middleware := Middleware {
  m_passport : Passport;
  m_name : list layer;
  m_multi : bool;
  m_options : gmap string value;
  m_callback : bool
}.

(** [module.exports = function authenticate(passport, name, options, callback)] *)
Definition authenticate (passport : Passport) (name : names)
    (options : options_arg) (callback : bool) : middleware :=
  let callback := match options with OptionsFunction => true | _ => callback end in
  let options := match options with OptionsObject o => o | _ => ∅ end in
  match name with
  | Many ls => Middleware passport ls true options callback
  | Single l => Middleware passport [l] false options callback
  end.

(** One request through the middleware: [function authenticate(req, res,
    next)], run in a world whose options are the object the middleware
    closed over. *)
Definition handle (STATUS_CODES : value -> value)
    (logIn : value -> gmap string value -> gmap string value -> value)
    (m : middleware) : M world unit :=
  attempt STATUS_CODES logIn (m_passport m) (m_multi m) (m_callback m) (m_name m) 0 [].

(** *** Notions used to state the properties *)

(** The world [w] with the events [evs] added to its trace. *)
Definition after (w : world) (evs : list event) : world :=
  World (options w) (req w) (statusCode w) (trace w ++ evs).

(** The first status of the failure records that is truthy, [401] when
    there is none. *)
Definition first_status (failures : list failure) : value :=
  match List.find (fun f => truthy (status f)) failures with
  | Some f => status f
  | None => VNum 401
  end.

(** The challenges of the failure records that are strings, in order. *)
Definition string_challenges (failures : list failure) : list value :=
  List.filter (fun c => String.eqb (typeof c) "string") (map challenge failures).

(** The chain entry [l] is a strategy that, asked in the world [w], calls
    [fail], which records [f]. *)
Definition fails_with (passport : Passport) (w : world) (l : layer) (f : failure) : Prop :=
  layer_truthy l = true /\
  exists s c st,
    resolve passport l = Some s /\ s (req w) (options w) = Fail c st /\ f = fail c st.

(** Events that write the response head or body. *)
Definition writes_response (e : event) : bool :=
  match e with
  | ESetHeader _ _ | EEnd _ => true
  | _ => false
  end.

Definition sets_challenge_header (e : event) : bool :=
  match e with
  | ESetHeader name _ => String.eqb name "WWW-Authenticate"
  | _ => false
  end.

Definition is_redirect (e : event) : bool :=
  match e with
  | EResRedirect _ => true
  | _ => false
  end.

(** How far a world may have moved: options outside [K] are as they were,
    the status code too when [S] is set, and the trace has only gained
    events accepted by [Q]. *)
Definition evolves (K : string -> Prop) (S : bool) (Q : event -> bool) (w w' : world) : Prop :=
  (forall k, ~ K k -> options w' !! k = options w !! k)
  /\ (S = true -> statusCode w' = statusCode w)
  /\ exists evs, trace w' = trace w ++ evs /\ forallb Q evs = true.

(** A computation whose final world is always related by [R] to the one it
    started in, whether it completes or throws. *)
Definition keeps {A} (R : world -> world -> Prop) (m : M world A) : Prop :=
  forall w, R w (final (m w)).

(** The one write that reaches the options: the object held under [key]
    gets its [type] defaulted to [dflt]. *)
Definition flash_defaulted (key dflt : string) (w w' : world) : Prop :=
  exists flash',
    set_prop (options w !!! key) "type"
      (or (prop (options w !!! key) "type") (VStr dflt)) = Some flash'
    /\ options w' = <[key := flash']> (options w).

(** The events of [redirect(url)] for a given session value. *)
Definition redirect_events (session url : value) : list event :=
  if truthy session && truthy (prop session "save")
     && String.eqb (typeof (prop session "save")) "function"
  then [ESessionSave; EResRedirect url]
  else [EResRedirect url].

(** The events of asking the first [n] entries of a chain, from index
    [i] on. *)
Definition asked (i n : nat) : list event := map EAuthenticate (seq i n).

(** The challenge [allFailed] presents: that of the first failure record,
    or [{}]. *)
Definition presented_challenge (failures : list failure) : value :=
  or (match failures !! 0%nat with Some f => challenge f | None => VUndef end) empty_object.

(** The header [allFailed] sets by default, if any. *)
Definition challenge_header (failures : list failure) : list event :=
  if is_401 (first_status failures) && negb (length (string_challenges failures) =? 0)%nat
  then [ESetHeader "WWW-Authenticate" (array (string_challenges failures))]
  else [].

(** The text of the error raised for a name the registry does not know. *)
Definition unknown_strategy (n : string) : error :=
  ErrUnknownStrategy ("Unknown authentication strategy " +:+ dquote +:+ n +:+ dquote).

Definition is_authenticate (e : event) : bool :=
  match e with
  | EAuthenticate _ => true
  | _ => false
  end.

(** The events that resolve a dispatch: the application callback, [next],
    a redirect through [res.redirect], and the end of the response. *)
Definition terminal (e : event) : bool :=
  match e with
  | ECallback _ | ENext _ | EResRedirect _ | EEnd _ => true
  | _ => false
  end.

(** An outcome that resolved once: when the dispatch completed, the events
    added end with a terminal one and hold no other; when it threw, they
    hold none. *)
Definition resolved_once (w : world) (r : result world unit) : Prop :=
  match r with
  | Ok _ w' =>
      exists pre e,
        trace w' = trace w ++ pre ++ [e]
        /\ forallb (fun x => negb (terminal x)) pre = true
        /\ terminal e = true
  | Throws w' =>
      exists pre,
        trace w' = trace w ++ pre
        /\ forallb (fun x => negb (terminal x)) pre = true
  end.

Definition resolves (m : M world unit) : Prop := forall w, resolved_once w (m w).


(** The events of the flash and message blocks. *)
Definition notes (e : event) : bool :=
  match e with
  | EFlash _ _ | EPush _ => true
  | _ => false
  end.

(** *** Sample collaborators, strategies and requests *)

Definition status_text (code : value) : value :=
  match code with
  | VNum 401 => VStr "Unauthorized"
  | VNum 403 => VStr "Forbidden"
  | _ => VUndef
  end.

(** A [req.logIn] that always succeeds. *)
Definition login_ok : value -> gmap string value -> gmap string value -> value :=
  fun _ _ _ => VUndef.

(** An authenticator with an empty registry and an identity info
    transformer. *)
Definition bare_passport : Passport :=
  {| _strategy := fun _ => None; transformAuthInfo := fun info _ => (VNull, info) |}.

Definition fails_basic : strategy := fun _ _ => Fail (VStr "basic") (VNum 401).
Definition fails_bearer : strategy := fun _ _ => Fail (VStr "bearer") (VNum 401).
Definition fails_object : strategy :=
  fun _ _ => Fail (VObj {[ "type" := VStr "x" ]}) (VNum 403).
Definition fails_plain : strategy := fun _ _ => Fail VUndef VUndef.
Definition fails_number (n : Z) : strategy := fun _ _ => Fail (VNum n) VUndef.
Definition fails_status (n : Z) : strategy := fun _ _ => Fail VUndef (VNum n).
Definition succeeds (user : value) : strategy := fun _ _ => Success user VUndef.

(** A request with [logIn] and [flash], and a session holding
    [returnTo = "/dash"]. *)
Definition sample_req : gmap string value :=
  {[ "logIn" := VFun "function logIn() {}" ∅;
     "flash" := VFun "function flash() {}" ∅;
     "session" := VObj {[ "returnTo" := VStr "/dash" ]} ]}.

Definition sample_world (options : gmap string value) : world :=
  World options sample_req (VNum 200) [].

Definition redirects (url : value) : strategy := fun _ _ => Redirect url VUndef.
(** A [req.logIn] that always reports an error. *)
Definition login_fails : value -> gmap string value -> gmap string value -> value :=
  fun _ _ _ => VStr "session store down".

End Authenticate.

(** ** lib/middleware/authenticate.js, over an object graph *)

Module AuthenticateHeap.

(** The middleware once more, with the objects it works on held in a heap
    and named by addresses.  An object reached through the options may be
    held elsewhere too, under another option, inside another object or on
    the request; a write to it shows wherever it is held.  This is the
    view in which what the middleware writes, and what it leaves alone,
    can be said of the objects themselves. *)

Definition loc := positive.

Inductive value :=
| VUndef
| VNull
| VBool (b : bool)
| VNum (n : Z)
| VStr (s : string)
| VRef (l : loc).

#[export] Instance value_inhabited : Inhabited value := populate VUndef.

(** The three kinds of object the middleware tells apart. *)
Inductive kind :=
| Plain
| Array (elems : list value)
| Function (src : string).

(** An object: its kind and its own properties. *)
Record object := Object { kind_of : kind; props : gmap string value }.

(** The object stored at an address; an address nothing was stored at
    reads as the empty object. *)
Definition object_at (h : gmap loc object) (l : loc) : object :=
  default (Object Plain ∅) (h !! l).

Definition truthy (v : value) : bool :=
  match v with
  | VUndef | VNull => false
  | VBool b => b
  | VNum n => negb (n =? 0)
  | VStr s => negb (String.eqb s "")
  | VRef _ => true
  end.

Definition typeof (h : gmap loc object) (v : value) : string :=
  match v with
  | VUndef => "undefined"
  | VNull => "object"
  | VBool _ => "boolean"
  | VNum _ => "number"
  | VStr _ => "string"
  | VRef l => match kind_of (object_at h l) with
              | Function _ => "function"
              | _ => "object"
              end
  end.

(** [a || b] *)
Definition or (a b : value) : value := if truthy a then a else b.

(** [x !== false] *)
Definition is_not_false (v : value) : bool :=
  match v with VBool false => false | _ => true end.

(** [x === 401] *)
Definition is_401 (v : value) : bool :=
  match v with VNum n => n =? 401 | _ => false end.

(** The errors handed to [next]. *)
Inductive error :=
| ErrValue (err : value)
| ErrUnknownStrategy (message : string)
| ErrAuthentication (message status : value).

(** What the middleware does to the outside, in the order it does it. *)
Inductive event :=
| EAuthenticate (i : nat)
| ECallback (args : list value)
| ENext (err : option error)
| EFlash (type msg : value)
| EPush (messages msg : value)
  (** [messages.push(msg)] where [messages] is no array but brings a
      [push] function *)
| ESessionSave
| EResRedirect (url : value)
| ESetHeader (name : string) (v : value)
| EEnd (body : option value)
| ELogIn (user : value)
| ETransformAuthInfo (info : value).

Record world := World {
  heap : gmap loc object;
  statusCode : value;          (** [res.statusCode] *)
  trace : list event
}.

Definition emit (e : event) : M world unit :=
  fun w => Ok tt (World (heap w) (statusCode w) (trace w ++ [e])).

(** [v.p], for the names the middleware reads: own properties only. *)
Definition get (v : value) (p : string) : M world value :=
  fun w => match v with
           | VUndef | VNull => Throws w
           | VRef l => Ok (props (object_at (heap w) l) !!! p) w
           | _ => Ok VUndef w
           end.

(** [v.p = x] in strict mode: a write to anything but an object throws. *)
Definition set (v : value) (p : string) (x : value) : M world unit :=
  fun w => match v with
           | VRef l =>
               let o := object_at (heap w) l in
               Ok tt (World (<[l := Object (kind_of o) (<[p := x]> (props o))]> (heap w))
                        (statusCode w) (trace w))
           | _ => Throws w
           end.

(** [delete v.p], reached only with an object. *)
Definition delete_prop (v : value) (p : string) : M world unit :=
  fun w => match v with
           | VRef l =>
               let o := object_at (heap w) l in
               Ok tt (World (<[l := Object (kind_of o) (delete p (props o))]> (heap w))
                        (statusCode w) (trace w))
           | VUndef | VNull => Throws w
           | _ => Ok tt w
           end.

(** An object or array literal: a fresh address. *)
Definition new_object (o : object) : M world value :=
  fun w => let l := fresh (dom (heap w)) in
           Ok (VRef l) (World (<[l := o]> (heap w)) (statusCode w) (trace w)).

Definition type_of (v : value) : M world string :=
  fun w => Ok (typeof (heap w) v) w.

Definition read_statusCode : M world value :=
  fun w => Ok (statusCode w) w.

Definition write_statusCode (v : value) : M world unit :=
  fun w => Ok tt (World (heap w) v (trace w)).

(** The verb a strategy invokes, with the arguments it passes. *)
Inductive action :=
| Success (user info : value)
| Fail (challenge status : value)
| Redirect (url status : value)
| Pass
| Error (err : value).

(** A strategy is known by the one verb its [authenticate(req, options)]
    invokes, given the request, the options and the objects as they are. *)
Definition strategy := loc -> loc -> gmap loc object -> action.

Inductive layer :=
| Instance (s : strategy)
| Name (n : string).

Definition layer_truthy (l : layer) : bool :=
  match l with
  | Instance _ => true
  | Name n => negb (String.eqb n "")
  end.

Record Passport := {
  _strategy : string -> option strategy;
  transformAuthInfo : value -> gmap loc object -> value * value
}.

(** An element of the [failures] accumulator. *)
Record failure := Failure { challenge : value; status : value }.

Definition dquote : string := String (Ascii.ascii_of_nat 34) EmptyString.

Section Middleware.

(** Collaborators that live outside these sources. *)

(** [http.STATUS_CODES[code]] *)
Variable STATUS_CODES : value -> value.
(** The error, if any, that [req.logIn(user, options, cb)] hands to [cb]. *)
Variable logIn : value -> gmap loc object -> value.
(** The property name a value that is no string stands for in [req[v]];
    [None] when its conversion throws. *)
Variable to_property_key : gmap loc object -> value -> option string.

(** The variables the returned middleware closes over, and the request it
    is called with. *)
Variable passport : Passport.
Variable multi : bool.
Variable callback : bool.
Variable options : loc.
Variable req : loc.

(** [function redirect(url)] *)
Definition redirect (url : value) : M world unit :=
  let* session := get (VRef req) "session" in
  let* save := if truthy session then get session "save" else ret session in
  let* t := type_of save in
  if truthy save && String.eqb t "function"
  then emit ESessionSave;; emit (EResRedirect url)
  else emit (EResRedirect url).

(** The end of the flash block: what is flashed, if anything.  [flash] is
    the local of that name, [source] is [challenge] or [info]. *)
Definition flash_send (flash : value) (dflt : string) (source : value) : M world unit :=
  (* const type = flash.type || source.type || dflt; *)
  let* ftype := get flash "type" in
  let* stype := get source "type" in
  let type := or (or ftype stype) (VStr dflt) in
  (* const msg = flash.message || source.message || source; *)
  let* fmessage := get flash "message" in
  let* smessage := get source "message" in
  let msg := or (or fmessage smessage) source in
  (* if (typeof msg === 'string') { req.flash(type, msg); } *)
  let* t := type_of msg in
  if String.eqb t "string"
  then let* f := get (VRef req) "flash" in
       let* tf := type_of f in
       if String.eqb tf "function" then emit (EFlash type msg) else throw
  else ret tt.

(** The flash block of [allFailed] and of [success]: [key] is
    [failureFlash] or [successFlash], [dflt] is ['error'] or ['success'],
    [source] is [challenge] or [info]. *)
Definition flash_block (key dflt : string) (source : value) : M world unit :=
  let* configured := get (VRef options) key in
  if truthy configured then
    (* let flash = options[key]; *)
    let* t := type_of configured in
    (* if (typeof flash === 'string') { flash = { type: dflt, message: flash }; } *)
    let* flash :=
      if String.eqb t "string"
      then new_object (Object Plain (<["message" := configured]> (<["type" := VStr dflt]> ∅)))
      else ret configured in
    (* if (typeof flash !== 'boolean') { flash.type = flash.type || dflt; } *)
    let* t := type_of flash in
    (if negb (String.eqb t "boolean")
     then let* own := get flash "type" in
          set flash "type" (or own (VStr dflt))
     else ret tt);;
    flash_send flash dflt source
  else ret tt.

(** [messages.push(msg)] *)
Definition push (messages msg : value) : M world unit :=
  fun w =>
    match messages with
    | VUndef | VNull => Throws w
    | VRef l =>
        let o := object_at (heap w) l in
        match kind_of o, props o !! "push" with
        | Array elems, None =>
            Ok tt (World (<[l := Object (Array (elems ++ [msg])) (props o)]> (heap w))
                     (statusCode w) (trace w))
        | _, _ =>
            if String.eqb (typeof (heap w) (props o !!! "push")) "function"
            then emit (EPush messages msg) w
            else Throws w
        end
    | _ => Throws w
    end.

(** The message block of [allFailed] and of [success]: [key] is
    [failureMessage] or [successMessage]. *)
Definition message_block (key : string) (source : value) : M world unit :=
  let* configured := get (VRef options) key in
  if truthy configured then
    let* t := type_of configured in
    let* msg :=
      if String.eqb t "boolean"
      then let* smessage := get source "message" in ret (or smessage source)
      else ret configured in
    let* t := type_of msg in
    if String.eqb t "string" then
      (* req.session.messages = req.session.messages || []; *)
      let* session := get (VRef req) "session" in
      let* messages := get session "messages" in
      let* messages :=
        if truthy messages then ret messages else new_object (Object (Array []) ∅) in
      set session "messages" messages;;
      (* req.session.messages.push(msg); *)
      let* session := get (VRef req) "session" in
      let* messages := get session "messages" in
      push messages msg
    else ret tt
  else ret tt.

(** The loop [failures.forEach(...)] of [allFailed]: the pair
    [(rstatus, rchallenge)] after the last element. *)
Definition collect (failures : list failure) : value * list value :=
  fold_left
    (fun acc f =>
       (or (fst acc) (status f),
        (* if (typeof challenge === 'string') *)
        match challenge f with
        | VStr _ => snd acc ++ [challenge f]
        | _ => snd acc
        end))
    failures (VUndef, []).

(** [function allFailed()] *)
Definition allFailed (failures : list failure) : M world unit :=
  if callback then
    if negb multi then
      match failures !! 0%nat with
      | Some f => emit (ECallback [VNull; VBool false; challenge f; status f])
      | None => throw
      end
    else
      let* challenges := new_object (Object (Array (map challenge failures)) ∅) in
      let* statuses := new_object (Object (Array (map status failures)) ∅) in
      emit (ECallback [VNull; VBool false; challenges; statuses])
  else
    (* const failure = failures[0] || {}; const challenge = failure.challenge || {}; *)
    let* failure_challenge :=
      match failures !! 0%nat with
      | Some f => ret (challenge f)
      | None => new_object (Object Plain ∅);; ret VUndef
      end in
    let* challenge :=
      if truthy failure_challenge then ret failure_challenge
      else new_object (Object Plain ∅) in
    flash_block "failureFlash" "error" challenge;;
    message_block "failureMessage" challenge;;
    let* failureRedirect := get (VRef options) "failureRedirect" in
    if truthy failureRedirect then redirect failureRedirect
    else
      let rstatus := fst (collect failures) in
      let* rchallenge := new_object (Object (Array (snd (collect failures))) ∅) in
      write_statusCode (or rstatus (VNum 401));;
      let* code := read_statusCode in
      (if is_401 code && negb (length (snd (collect failures)) =? 0)%nat
       then emit (ESetHeader "WWW-Authenticate" rchallenge)
       else ret tt);;
      let* failWithError := get (VRef options) "failWithError" in
      let* code := read_statusCode in
      if truthy failWithError
      then emit (ENext (Some (ErrAuthentication (STATUS_CODES code) rstatus)))
      else emit (EEnd (Some (STATUS_CODES code))).

(** [function complete()] *)
Definition complete : M world unit :=
  let* successReturnToOrRedirect := get (VRef options) "successReturnToOrRedirect" in
  if truthy successReturnToOrRedirect then
    let* session := get (VRef req) "session" in
    let* returnTo := if truthy session then get session "returnTo" else ret session in
    let* url :=
      if truthy returnTo
      then let* session := get (VRef req) "session" in
           let* url := get session "returnTo" in
           let* session := get (VRef req) "session" in
           delete_prop session "returnTo";;
           ret url
      else ret successReturnToOrRedirect in
    redirect url
  else
    let* successRedirect := get (VRef options) "successRedirect" in
    if truthy successRedirect then redirect successRedirect
    else emit (ENext None).

(** [req[options.assignProperty]]: the property name. *)
Definition property_key (v : value) : M world string :=
  fun w => match v with
           | VStr s => Ok s w
           | _ => match to_property_key (heap w) v with
                  | Some key => Ok key w
                  | None => Throws w
                  end
           end.

(** [strategy.success = function success(user, info)] *)
Definition success (user info : value) : M world unit :=
  if callback then emit (ECallback [VNull; user; info])
  else
    (* info = info || {}; *)
    let* info := if truthy info then ret info else new_object (Object Plain ∅) in
    flash_block "successFlash" "success" info;;
    message_block "successMessage" info;;
    let* assignProperty := get (VRef options) "assignProperty" in
    if truthy assignProperty then
      let* assignProperty := get (VRef options) "assignProperty" in
      let* key := property_key assignProperty in
      set (VRef req) key user;;
      emit (ENext None)
    else
      let* f := get (VRef req) "logIn" in
      let* t := type_of f in
      if negb (String.eqb t "function") then throw
      else
        emit (ELogIn user);;
        let* err := (fun w => Ok (logIn user (heap w)) w) in
        if truthy err then emit (ENext (Some (ErrValue err)))
        else
          let* authInfo := get (VRef options) "authInfo" in
          if is_not_false authInfo then
            emit (ETransformAuthInfo info);;
            let* r := (fun w => Ok (transformAuthInfo passport info (heap w)) w) in
            if truthy (fst r) then emit (ENext (Some (ErrValue (fst r))))
            else set (VRef req) "authInfo" (snd r);; complete
          else complete.

(** [strategy.fail = function fail(challenge, status)]: the element pushed
    onto [failures]. *)
Definition fail (challenge status : value) : failure :=
  (* if (typeof challenge === 'number') *)
  match challenge with
  | VNum _ => Failure VUndef challenge
  | _ => Failure challenge status
  end.

(** [strategy.redirect = function redirect(url, status)] *)
Definition strategy_redirect (url status : value) : M world unit :=
  write_statusCode (or status (VNum 302));;
  emit (ESetHeader "Location" url);;
  emit (ESetHeader "Content-Length" (VStr "0"));;
  emit (EEnd None).

(** [strategy.pass = function pass()] *)
Definition pass : M world unit := emit (ENext None).

(** [strategy.error = function error(err)] *)
Definition error_ (err : value) : M world unit :=
  if callback then emit (ECallback [err])
  else emit (ENext (Some (ErrValue err))).

Definition resolve (l : layer) : option strategy :=
  match l with
  | Instance s => Some s
  | Name n => _strategy passport n
  end.

Definition layer_text (l : layer) : string :=
  match l with
  | Instance _ => "[object Object]"
  | Name n => n
  end.

(** [(function attempt(i) { ... }(0))], [rest] being the part of [name]
    from index [i] on. *)
Fixpoint attempt (rest : list layer) (i : nat) (failures : list failure) : M world unit :=
  match rest with
  | [] => allFailed failures
  | layer :: rest' =>
      if negb (layer_truthy layer) then allFailed failures
      else
        match resolve layer with
        | None =>
            emit (ENext (Some (ErrUnknownStrategy
              ("Unknown authentication strategy " +:+ dquote +:+ layer_text layer +:+ dquote))))
        | Some strategy =>
            emit (EAuthenticate i);;
            fun w =>
              match strategy req options (heap w) with
              | Success user info => success user info w
              | Fail challenge status =>
                  attempt rest' (S i) (failures ++ [fail challenge status]) w
              | Redirect url status => strategy_redirect url status w
              | Pass => pass w
              | Error err => error_ err w
              end
        end
  end.

(** *** Notions used to state what the dispatch writes *)













End Middleware.


(** *** A sample configuration that shares an object *)

Definition status_text (code : value) : value :=
  match code with
  | VNum 401 => VStr "Unauthorized"
  | _ => VUndef
  end.

Definition bare_passport : Passport :=
  {| _strategy := fun _ => None; transformAuthInfo := fun info _ => (VNull, info) |}.

Definition fails_plain : strategy := fun _ _ _ => Fail VUndef VUndef.


End AuthenticateHeap.

(** * Properties of the session manager *)

Module SessionManagerProofs.
Import SessionManager.

Lemma object_at_alter (h : gmap loc (gmap string value)) (f : gmap string value -> gmap string value) l l' :
  f ∅ = ∅ ->
  object_at (alter f l h) l' = if decide (l = l') then f (object_at h l') else object_at h l'.
Proof.
  intros Hf. unfold object_at. destruct (decide (l = l')) as [->|Hne].
  - rewrite lookup_alter_eq. destruct (h !! l'); simpl; [reflexivity | symmetry; exact Hf].
  - rewrite lookup_alter_ne by exact Hne. reflexivity.
Qed.

Lemma object_at_logOut_other (h : gmap loc (gmap string value)) l l' p :
  p <> "user" ->
  object_at (alter (delete "user") l h) l' !!! p = object_at h l' !!! p.
Proof.
  intros Hp. rewrite object_at_alter by apply delete_empty.
  destruct (decide (l = l')); [|reflexivity].
  apply lookup_total_delete_ne. congruence.
Qed.

(** Deleting [user] does not move the object [logOut] looks at. *)
Lemma target_after_logOut h r : target (heap_after_logOut h r) r = target h r.
Proof.
  unfold heap_after_logOut. destruct (target h r) as [l|] eqn:Ht; [|exact Ht].
  unfold target in *.
  rewrite object_at_logOut_other by discriminate.
  destruct (object_at h r !!! "_passport"); try discriminate.
  rewrite object_at_logOut_other by discriminate.
  exact Ht.
Qed.

Lemma heap_after_logOut_idem h r :
  heap_after_logOut (heap_after_logOut h r) r = heap_after_logOut h r.
Proof.
  unfold heap_after_logOut at 1. rewrite target_after_logOut.
  unfold heap_after_logOut. destruct (target h r) as [l|]; [|reflexivity].
  rewrite alter_alter_eq. apply alter_ext. intros o _. simpl.
  apply delete_delete_eq.
Qed.

(** What a call of [logOut] comes to, for every request object. *)
Lemma logOut_run r cb w :
  logOut (Ref r) cb w =
  Ok tt (World (heap_after_logOut (heap w) r) (calls w ++ if cb then [[]] else [])).
Proof.
  destruct w as [h cs].
  unfold logOut, passport_session, heap_after_logOut, target, bind, get, ret,
    delete_prop, call_cb, truthy; simpl.
  destruct (object_at h r !!! "_passport") as [| |b|n|s|p] eqn:Hp; simpl.
  all: repeat (case_match; simplify_eq/=; rewrite ?app_nil_r; try done).
Qed.

Lemma passport_session_target r l w :
  passport_session (Ref r) w = Ok (Ref l) w -> target (heap w) r = Some l.
Proof.
  unfold passport_session, target, bind, get.
  destruct (object_at (heap w) r !!! "_passport"); simpl; try discriminate.
  intros [= ->]. reflexivity.
Qed.

(** C8 (amended).  For every request object, [logOut] completes without
    throwing, calls the completion callback exactly when one is given, and
    a second [logOut] leaves the heap as the first one left it.  When
    [req._passport.session] is the very object stored at
    [req.session.passport], as [logIn] leaves it under the default key,
    that object loses its [user] entry and keeps every other entry, it
    stays where it was in the session, and every other object of the heap,
    the session included, is unchanged.  When [req._passport.session] is
    no object, the heap is unchanged. *)
Theorem logOut_removes_user (r : loc) (cb : bool) (w : world) :
  exists w',
    logOut (Ref r) cb w = Ok tt w'
    /\ calls w' = calls w ++ (if cb then [[]] else [])
    /\ logOut (Ref r) cb w' = Ok tt (World (heap w') (calls w' ++ if cb then [[]] else []))
    /\ (target (heap w) r = None -> heap w' = heap w)
    /\ forall l,
        passport_session (Ref r) w = Ok (Ref l) w ->
        session_entry (Ref r) "passport" w = Ok (Ref l) w ->
        session_entry (Ref r) "passport" w' = Ok (Ref l) w'
        /\ object_at (heap w') l !! "user" = None
        /\ (forall p, p <> "user" -> object_at (heap w') l !! p = object_at (heap w) l !! p)
        /\ (forall l', l' <> l -> heap w' !! l' = heap w !! l').
Proof.
  eexists. split; [apply logOut_run|]. simpl. split; [reflexivity|]. split.
  - rewrite logOut_run. simpl. rewrite heap_after_logOut_idem. reflexivity.
  - split; [intros Hn; unfold heap_after_logOut; rewrite Hn; reflexivity|].
    intros l Hps Hse. apply passport_session_target in Hps.
    unfold heap_after_logOut. rewrite Hps.
    repeat split.
    + revert Hse. unfold session_entry, bind, get. simpl.
      rewrite object_at_logOut_other by discriminate.
      destruct (object_at (heap w) r !!! "session") as [| |b|n|s|rs]; try discriminate.
      rewrite object_at_logOut_other by discriminate.
      intros [= ->]. reflexivity.
    + rewrite object_at_alter by apply delete_empty.
      rewrite decide_True by reflexivity. apply lookup_delete_eq.
    + intros p Hp. rewrite object_at_alter by apply delete_empty.
      rewrite decide_True by reflexivity. apply lookup_delete_ne. congruence.
    + intros l' Hl'. apply lookup_alter_ne. congruence.
Qed.

Lemma logOut_removes_user_witness :
  exists w',
    logOut (Ref 1%positive) true logged_in = Ok tt w'
    /\ session_entry (Ref 1%positive) "passport" w' = Ok (Ref 3%positive) w'
    /\ object_at (heap w') 3%positive !! "user" = None.
Proof.
  destruct (logOut_removes_user 1%positive true logged_in) as (w' & Hrun & _ & _ & _ & Hal).
  exists w'. split; [exact Hrun|].
  destruct (Hal 3%positive) as (H1 & H2 & _); [reflexivity | reflexivity |].
  split; [exact H1 | exact H2].
Defined.

(** C8, as stated, fails on a request that carries no [_passport]: the
    [user] entry of [session.passport] is still there after [logOut]. *)
Lemma logOut_detached_keeps_user :
  exists w',
    logOut (Ref 1%positive) true detached = Ok tt w'
    /\ session_entry (Ref 1%positive) "passport" w' = Ok (Ref 3%positive) w'
    /\ object_at (heap w') 3%positive !! "user" = Some (Str "bob").
Proof.
  eexists. split; [apply logOut_run|]. split; reflexivity.
Qed.

(** After a [logIn] that goes through, the session substructure is the
    object stored under the key, and a [logOut] empties it of its user. *)
Example logIn_then_logOut :
  exists w1 w2 l,
    logIn (new ArgNone (Some echo_serializer)) (Ref 1%positive) (Str "bob") anonymous
    = Ok tt w1
    /\ passport_session (Ref 1%positive) w1 = Ok (Ref l) w1
    /\ session_entry (Ref 1%positive) "passport" w1 = Ok (Ref l) w1
    /\ object_at (heap w1) l !! "user" = Some (Str "bob")
    /\ logOut (Ref 1%positive) true w1 = Ok tt w2
    /\ object_at (heap w2) l !! "user" = None.
Proof.
  eexists _, _, _. split; [reflexivity|]. split; [reflexivity|].
  split; [reflexivity|]. split; [reflexivity|]. split; reflexivity.
Qed.

(** C10.  When the serializer hands an error to its callback, [logIn]
    calls the completion callback once, with that error, and the heap is
    exactly the one it started from: no session object is created,
    [req._passport.session.user] is not written, and [req.session] and the
    record under the key are untouched. *)
Theorem logIn_serializer_error (self : SessionManager) (serializeUser : serializer)
    (req user err obj : value) (w : world) :
  _serializeUser self = Some serializeUser ->
  serializeUser user req (heap w) = (err, obj) ->
  truthy err = true ->
  logIn self req user w = Ok tt (World (heap w) (calls w ++ [[err]])).
Proof.
  intros Hs He Ht. unfold logIn. rewrite Hs, He, Ht. reflexivity.
Qed.

Lemma logIn_serializer_error_witness :
  logIn (new ArgNone (Some failing_serializer)) (Ref 1%positive) (Str "bob") anonymous
  = Ok tt (World (heap anonymous) (calls anonymous ++ [[Str "cannot serialize"]])).
Proof.
  apply (logIn_serializer_error _ failing_serializer (Ref 1%positive) (Str "bob")
           (Str "cannot serialize") Undefined anonymous); reflexivity.
Defined.

(** *** [logIn], and [logIn] with [logOut] *)

Lemma object_at_insert (h : gmap loc (gmap string value)) l o l' :
  object_at (<[l := o]> h) l' = if decide (l = l') then o else object_at h l'.
Proof.
  unfold object_at. destruct (decide (l = l')) as [->|Hne].
  - rewrite lookup_insert_eq. reflexivity.
  - rewrite lookup_insert_ne by exact Hne. reflexivity.
Qed.

Lemma fresh_not_allocated (h : gmap loc (gmap string value)) l :
  is_Some (h !! l) -> fresh (dom h) <> l.
Proof.
  intros Hl E. apply elem_of_dom in Hl. rewrite <- E in Hl.
  exact (is_fresh (dom h) Hl).
Qed.

Lemma object_at_allocated (h : gmap loc (gmap string value)) l p v :
  object_at h l !!! p = v -> v <> Undefined -> is_Some (h !! l).
Proof.
  unfold object_at. destruct (h !! l); [eauto|]. simpl.
  rewrite lookup_total_empty. intros <- H. contradiction.
Qed.

Ltac heap_simpl :=
  repeat first
    [ rewrite object_at_insert
    | rewrite decide_True by congruence
    | rewrite decide_False by congruence
    | rewrite lookup_total_insert_eq
    | rewrite lookup_total_insert_ne by congruence ].

Lemma bind_ok {W A B} (m : M W A) (k : A -> M W B) w a w' :
  m w = Ok a w' -> bind m k w = k a w'.
Proof. intros H. unfold bind. rewrite H. reflexivity. Qed.

Lemma get_ref l p w : get (Ref l) p w = Ok (object_at (heap w) l !!! p) w.
Proof. reflexivity. Qed.

Lemma set_ref l p x w :
  set (Ref l) p x w
  = Ok tt (World (<[l := <[p := x]> (object_at (heap w) l)]> (heap w)) (calls w)).
Proof. reflexivity. Qed.

Lemma passport_session_ref r p w :
  object_at (heap w) r !!! "_passport" = Ref p ->
  passport_session (Ref r) w = Ok (object_at (heap w) p !!! "session") w.
Proof.
  intros H. unfold passport_session. rewrite (bind_ok _ _ w (Ref p) w).
  - apply get_ref.
  - rewrite get_ref, H. reflexivity.
Qed.

Lemma filled_vacant h v : truthy v = false -> filled h v = fresh (dom h).
Proof. destruct v; simpl; try reflexivity; discriminate. Qed.

Lemma logIn_run self ser r p user err obj w :
  _serializeUser self = Some ser ->
  ser user (Ref r) (heap w) = (err, obj) ->
  truthy err = false ->
  object_at (heap w) r !!! "_passport" = Ref p ->
  p <> r ->
  is_Some (heap w !! p) ->
  vacant_or_object (heap w) [r; p] (object_at (heap w) p !!! "session") ->
  vacant_or_object (heap w) [r; p; filled (heap w) (object_at (heap w) p !!! "session")]
    (object_at (heap w) r !!! "session") ->
  logIn self (Ref r) user w
  = Ok tt (World (heap_after_logIn (heap w) r p (_key self) obj) (calls w ++ [[]])).
Proof.
  intros Hs He Ht Hp Hpr Hpa Hs0 Hrs0.
  assert (Hra : is_Some (heap w !! r)) by (eapply object_at_allocated; [exact Hp | discriminate]).
  destruct w as [h cs]. cbn [heap calls] in *.
  unfold logIn. rewrite Hs. cbn beta. cbn [heap]. rewrite He, Ht.
  unfold heap_after_logIn.
  set (s0 := object_at h p !!! "session") in *.
  set (rs0 := object_at h r !!! "session") in *.
  assert (Hf := fresh_not_allocated h).
  (* if (!req._passport.session) { req._passport.session = {}; } *)
  erewrite bind_ok by (apply passport_session_ref; exact Hp). cbn [heap]. fold s0.
  set (l := filled h s0).
  set (h1 := if truthy s0 then h
             else <[p := <["session" := Ref l]> (object_at h p)]> (<[l := ∅]> h)).
  assert (Hl : l <> r /\ l <> p).
  { destruct Hs0 as [Hs0|(l0 & El0 & _ & Hn)].
    - unfold l. rewrite filled_vacant by exact Hs0. split; apply Hf; assumption.
    - unfold l. rewrite El0. simpl.
      rewrite !not_elem_of_cons in Hn. destruct Hn as (? & ? & _). split; assumption. }
  destruct Hl as [Hlr Hlp].
  assert (E1 : (if negb (truthy s0)
                then let* p0 := get (Ref r) "_passport" in
                     let* o := new_object in set p0 "session" o
                else ret tt) (World h cs) = Ok tt (World h1 cs)).
  { unfold h1. destruct (truthy s0) eqn:Hts; [reflexivity|]. cbn [negb].
    erewrite bind_ok by apply get_ref. cbn [heap]. rewrite Hp.
    unfold bind, new_object. cbn [heap calls]. rewrite set_ref. cbn [heap calls].
    unfold l. rewrite filled_vacant by exact Hts.
    heap_simpl. rewrite decide_False by (apply Hf; assumption). reflexivity. }
  erewrite bind_ok by exact E1.
  assert (Hp1 : object_at h1 r !!! "_passport" = Ref p).
  { unfold h1. destruct (truthy s0); [exact Hp|]. heap_simpl. exact Hp. }
  assert (Hs1 : object_at h1 p !!! "session" = Ref l).
  { unfold h1. destruct Hs0 as [Hs0|(l0 & El0 & _ & _)].
    - rewrite Hs0. heap_simpl. reflexivity.
    - unfold l. rewrite El0. simpl. exact El0. }
  (* req._passport.session.user = obj; *)
  erewrite bind_ok by (apply passport_session_ref; exact Hp1). cbn [heap]. rewrite Hs1.
  erewrite bind_ok by apply set_ref. cbn [heap calls].
  set (h2 := <[l := <["user" := obj]> (object_at h1 l)]> h1).
  assert (Hrs2 : object_at h2 r !!! "session" = rs0).
  { unfold h2. heap_simpl. unfold h1. destruct (truthy s0); [reflexivity|]. heap_simpl.
    reflexivity. }
  (* if (!req.session) { req.session = {}; } *)
  erewrite bind_ok by apply get_ref. cbn [heap]. rewrite Hrs2.
  set (rs := filled h2 rs0).
  set (h3 := if truthy rs0 then h2
             else <[r := <["session" := Ref rs]> (object_at h2 r)]> (<[rs := ∅]> h2)).
  assert (Hr2 : is_Some (h2 !! r) /\ is_Some (h2 !! p) /\ is_Some (h2 !! l)).
  { unfold h2. rewrite !lookup_insert_is_Some'. unfold h1.
    destruct (truthy s0); rewrite ?lookup_insert_is_Some'; tauto. }
  destruct Hr2 as (Hr2 & Hp2 & Hl2).
  assert (Hrs : rs <> r /\ rs <> p /\ rs <> l).
  { destruct Hrs0 as [Hrs0|(x & Ex & _ & Hn)].
    - unfold rs. rewrite filled_vacant by exact Hrs0.
      repeat split; apply fresh_not_allocated; assumption.
    - unfold rs. rewrite Ex. simpl. fold l in Hn.
      rewrite !not_elem_of_cons in Hn. destruct Hn as (? & ? & ? & _).
      repeat split; assumption. }
  destruct Hrs as (Hrsr & Hrsp & Hrsl).
  assert (E3 : (if negb (truthy rs0)
                then let* o := new_object in set (Ref r) "session" o
                else ret tt) (World h2 cs) = Ok tt (World h3 cs)).
  { unfold h3. destruct (truthy rs0) eqn:Hts; [reflexivity|]. cbn [negb].
    unfold bind, new_object. cbn [heap calls]. rewrite set_ref. cbn [heap calls].
    unfold rs. rewrite filled_vacant by exact Hts.
    rewrite object_at_insert, decide_False by (apply fresh_not_allocated; assumption).
    reflexivity. }
  erewrite bind_ok by exact E3.
  assert (Hrs3 : object_at h3 r !!! "session" = Ref rs).
  { unfold h3. destruct Hrs0 as [Hrs0|(x & Ex & _ & _)].
    - rewrite Hrs0. heap_simpl. reflexivity.
    - unfold rs. rewrite Ex. simpl. rewrite Hrs2. exact Ex. }
  assert (Hp3 : object_at h3 r !!! "_passport" = Ref p).
  { unfold h3. destruct (truthy rs0).
    - unfold h2. heap_simpl. exact Hp1.
    - heap_simpl. unfold h2. heap_simpl. exact Hp1. }
  assert (Hs3 : object_at h3 p !!! "session" = Ref l).
  { unfold h3. destruct (truthy rs0).
    - unfold h2. heap_simpl. exact Hs1.
    - heap_simpl. unfold h2. heap_simpl. exact Hs1. }
  (* req.session[self._key] = req._passport.session; *)
  erewrite bind_ok by apply get_ref. cbn [heap]. rewrite Hrs3.
  erewrite bind_ok by (apply passport_session_ref; exact Hp3). cbn [heap]. rewrite Hs3.
  erewrite bind_ok by apply set_ref. cbn [heap calls].
  reflexivity.
Qed.

(** The shape of the heap [logIn] leaves. *)
Lemma heap_after_logIn_shape h r p key obj :
  object_at h r !!! "_passport" = Ref p ->
  p <> r ->
  is_Some (h !! p) ->
  vacant_or_object h [r; p] (object_at h p !!! "session") ->
  vacant_or_object h [r; p; filled h (object_at h p !!! "session")]
    (object_at h r !!! "session") ->
  let h' := heap_after_logIn h r p key obj in
  let l := filled h (object_at h p !!! "session") in
  exists rs,
    (object_at h r !!! "session" = Ref rs \/
     (truthy (object_at h r !!! "session") = false /\ h !! rs = None))
    /\ rs <> r /\ rs <> p /\ rs <> l /\ l <> r /\ l <> p
    /\ is_Some (h' !! r) /\ is_Some (h' !! p) /\ is_Some (h' !! l) /\ is_Some (h' !! rs)
    /\ h' !! r = Some (if truthy (object_at h r !!! "session") then object_at h r
                       else <["session" := Ref rs]> (object_at h r))
    /\ h' !! p = Some (if truthy (object_at h p !!! "session") then object_at h p
                       else <["session" := Ref l]> (object_at h p))
    /\ h' !! l = Some (<["user" := obj]> (object_at h l))
    /\ h' !! rs = Some (<[key := Ref l]> (object_at h rs))
    /\ (forall x, x <> r -> x <> p -> x <> l -> x <> rs -> h' !! x = h !! x).
Proof.
  intros Hp Hpr Hpa Hs0 Hrs0.
  assert (Hra : is_Some (h !! r)) by (eapply object_at_allocated; [exact Hp | discriminate]).
  assert (Hf := fresh_not_allocated h).
  cbv zeta. unfold heap_after_logIn.
  set (s0 := object_at h p !!! "session") in *.
  set (rs0 := object_at h r !!! "session") in *.
  set (l := filled h s0) in *.
  set (h1 := if truthy s0 then h
             else <[p := <["session" := Ref l]> (object_at h p)]> (<[l := ∅]> h)).
  set (h2 := <[l := <["user" := obj]> (object_at h1 l)]> h1).
  set (rs := filled h2 rs0).
  assert (Hl : l <> r /\ l <> p /\ (truthy s0 = false -> h !! l = None)
               /\ (truthy s0 = true -> is_Some (h !! l))).
  { destruct Hs0 as [Hs0|(l0 & El0 & Ha & Hn)].
    - unfold l. rewrite filled_vacant by exact Hs0.
      repeat split; try (apply Hf; assumption).
      + intros _. apply not_elem_of_dom. apply is_fresh.
      + rewrite Hs0. discriminate.
    - unfold l. rewrite El0. simpl.
      rewrite !not_elem_of_cons in Hn. destruct Hn as (? & ? & _).
      split; [assumption|]. split; [assumption|].
      split; [discriminate | intros _; exact Ha]. }
  destruct Hl as (Hlr & Hlp & Hlv & Hlo).
  assert (Hd1 : forall x, is_Some (h !! x) -> is_Some (h1 !! x)).
  { intros x Hx. unfold h1. destruct (truthy s0); [exact Hx|].
    rewrite !lookup_insert_is_Some'. tauto. }
  assert (Hd2 : forall x, is_Some (h !! x) -> is_Some (h2 !! x)).
  { intros x Hx. unfold h2. rewrite lookup_insert_is_Some'. right. apply Hd1, Hx. }
  assert (Hl2 : is_Some (h2 !! l)) by (unfold h2; rewrite lookup_insert_is_Some'; tauto).
  assert (Hrs : rs <> r /\ rs <> p /\ rs <> l
                /\ (rs0 = Ref rs \/ (truthy rs0 = false /\ h !! rs = None /\ h2 !! rs = None))).
  { destruct Hrs0 as [Hrs0|(x & Ex & Ha & Hn)].
    - unfold rs. rewrite filled_vacant by exact Hrs0.
      repeat split; try (apply fresh_not_allocated; auto).
      right. split; [exact Hrs0|].
      assert (Hn2 : h2 !! fresh (dom h2) = None) by (apply not_elem_of_dom, is_fresh).
      split; [|exact Hn2].
      destruct (h !! fresh (dom h2)) eqn:E; [|reflexivity].
      assert (Hx : is_Some (h2 !! fresh (dom h2))) by (apply Hd2; eauto).
      rewrite Hn2 in Hx. destruct Hx as [? Hx]. discriminate.
    - unfold rs. rewrite Ex. simpl. fold l in Hn.
      rewrite !not_elem_of_cons in Hn. destruct Hn as (? & ? & ? & _).
      split; [assumption|]. split; [assumption|]. split; [assumption|].
      left. reflexivity. }
  destruct Hrs as (Hrsr & Hrsp & Hrsl & Hrs).
  assert (O1 : forall x, x <> p -> x <> l -> object_at h1 x = object_at h x).
  { intros x Hxp Hxl. unfold h1. destruct (truthy s0); [reflexivity|]. heap_simpl.
    reflexivity. }
  assert (O1l : object_at h1 l = object_at h l).
  { unfold h1. destruct (truthy s0) eqn:Hts; [reflexivity|]. heap_simpl.
    unfold object_at. rewrite (Hlv eq_refl). reflexivity. }
  assert (O1p : object_at h1 p = if truthy s0 then object_at h p
                                 else <["session" := Ref l]> (object_at h p)).
  { unfold h1. destruct (truthy s0); [reflexivity|]. heap_simpl. reflexivity. }
  exists rs. split.
  { destruct Hrs as [H|(H & H' & _)]; [left; exact H | right; split; assumption]. }
  do 5 (split; [assumption|]).
  assert (L : forall x,
    (<[rs := <[key := Ref l]>
               (object_at (if truthy rs0 then h2
                           else <[r := <["session" := Ref rs]> (object_at h2 r)]>
                                  (<[rs := ∅]> h2)) rs)]>
       (if truthy rs0 then h2
        else <[r := <["session" := Ref rs]> (object_at h2 r)]> (<[rs := ∅]> h2))) !! x
    = if decide (x = rs) then Some (<[key := Ref l]> (object_at h rs))
      else if decide (x = r)
           then Some (if truthy rs0 then object_at h r
                      else <["session" := Ref rs]> (object_at h r))
           else if decide (x = l) then Some (<["user" := obj]> (object_at h l))
           else if decide (x = p)
                then Some (if truthy s0 then object_at h p
                           else <["session" := Ref l]> (object_at h p))
                else h !! x).
  { intros x.
    assert (O2 : forall y, y <> l -> object_at h2 y = object_at h1 y)
      by (intros y Hy; unfold h2; heap_simpl; reflexivity).
    assert (Ors : object_at h rs = if truthy rs0 then object_at h2 rs else ∅).
    { destruct Hrs as [E|(E & Hn & _)].
      - rewrite E. simpl. rewrite O2 by congruence. rewrite O1 by congruence. reflexivity.
      - rewrite E. unfold object_at. rewrite Hn. reflexivity. }
    destruct (decide (x = rs)) as [->|Hxrs].
    - rewrite lookup_insert_eq. f_equal. f_equal. rewrite Ors.
      destruct (truthy rs0); [reflexivity|]. heap_simpl. reflexivity.
    - rewrite lookup_insert_ne by congruence.
      destruct (decide (x = r)) as [->|Hxr].
      + destruct (truthy rs0) eqn:Hts.
        * assert (Hx : is_Some (h2 !! r)) by (apply Hd2, Hra).
          destruct Hx as [o Ho]. rewrite Ho. f_equal.
          rewrite <- (O1 r) by congruence. rewrite <- (O2 r) by congruence.
          unfold object_at. rewrite Ho. reflexivity.
        * rewrite lookup_insert_eq. f_equal. rewrite O2 by congruence.
          rewrite O1 by congruence. reflexivity.
      + assert (E : (if truthy rs0 then h2
                     else <[r := <["session" := Ref rs]> (object_at h2 r)]>
                            (<[rs := ∅]> h2)) !! x = h2 !! x).
        { destruct (truthy rs0); [reflexivity|].
          rewrite !lookup_insert_ne by congruence. reflexivity. }
        rewrite E. unfold h2.
        destruct (decide (x = l)) as [->|Hxl].
        * rewrite lookup_insert_eq, O1l. reflexivity.
        * rewrite lookup_insert_ne by congruence.
          destruct (decide (x = p)) as [->|Hxp].
          -- assert (Hx : is_Some (h1 !! p)) by (apply Hd1, Hpa).
             destruct Hx as [o Ho]. rewrite Ho. f_equal. rewrite <- O1p.
             unfold object_at. rewrite Ho. reflexivity.
          -- unfold h1. destruct (truthy s0); [reflexivity|].
             rewrite !lookup_insert_ne by congruence. reflexivity. }
  fold h1. fold h2. fold rs.
  repeat split.
  - rewrite L. rewrite decide_False, decide_True by congruence. eauto.
  - rewrite L. rewrite !decide_False, decide_True by congruence. eauto.
  - rewrite L. rewrite !decide_False, decide_True by congruence. eauto.
  - rewrite L. rewrite decide_True by congruence. eauto.
  - rewrite L. rewrite decide_False, decide_True by congruence. reflexivity.
  - rewrite L. rewrite !decide_False, decide_True by congruence. reflexivity.
  - rewrite L. rewrite !decide_False, decide_True by congruence. reflexivity.
  - rewrite L. rewrite decide_True by congruence. reflexivity.
  - intros x H1 H2 H3 H4. rewrite L. rewrite !decide_False by congruence. reflexivity.
Qed.

Lemma truthy_slot_is_object h avoid v :
  vacant_or_object h avoid v -> truthy v = true -> v = Ref (filled h v).
Proof.
  intros [H|(l & -> & _)] Ht; [rewrite H in Ht; discriminate | reflexivity].
Qed.

Lemma object_at_lookup (h : gmap loc (gmap string value)) l o :
  h !! l = Some o -> object_at h l = o.
Proof. intros H. unfold object_at. rewrite H. reflexivity. Qed.

(** What the request reads as once [logIn] has run. *)
Lemma heap_after_logIn_reads h r p key obj :
  object_at h r !!! "_passport" = Ref p ->
  p <> r ->
  is_Some (h !! p) ->
  vacant_or_object h [r; p] (object_at h p !!! "session") ->
  vacant_or_object h [r; p; filled h (object_at h p !!! "session")]
    (object_at h r !!! "session") ->
  let h' := heap_after_logIn h r p key obj in
  let l := filled h (object_at h p !!! "session") in
  exists rs,
    object_at h' r !!! "_passport" = Ref p
    /\ object_at h' p !!! "session" = Ref l
    /\ object_at h' r !!! "session" = Ref rs
    /\ object_at h' rs = <[key := Ref l]> (object_at h rs)
    /\ object_at h' l = <["user" := obj]> (object_at h l)
    /\ rs <> r /\ rs <> p /\ rs <> l /\ l <> r /\ l <> p
    /\ is_Some (h' !! p) /\ is_Some (h' !! l) /\ is_Some (h' !! rs).
Proof.
  intros Hp Hpr Hpa Hs0 Hrs0.
  destruct (heap_after_logIn_shape h r p key obj Hp Hpr Hpa Hs0 Hrs0)
    as (rs & Hrs & N1 & N2 & N3 & N4 & N5 & _ & A2 & A3 & A4 & Er & Ep & El & Ers & _).
  cbv zeta. exists rs.
  rewrite (object_at_lookup _ _ _ Er), (object_at_lookup _ _ _ Ep),
    (object_at_lookup _ _ _ El), (object_at_lookup _ _ _ Ers).
  repeat split; try assumption.
  - destruct (truthy (object_at h r !!! "session")); [exact Hp|].
    rewrite lookup_total_insert_ne by discriminate. exact Hp.
  - destruct (truthy (object_at h p !!! "session")) eqn:E.
    + eapply truthy_slot_is_object; eassumption.
    + apply lookup_total_insert_eq.
  - destruct (truthy (object_at h r !!! "session")) eqn:E.
    + destruct Hrs as [H|[H _]]; [exact H | rewrite H in E; discriminate].
    + apply lookup_total_insert_eq.
Qed.


Lemma logIn_completes self ser r p user err obj w :
  _serializeUser self = Some ser ->
  ser user (Ref r) (heap w) = (err, obj) ->
  truthy err = false ->
  initialised (heap w) r p ->
  logIn self (Ref r) user w
  = Ok tt (World (heap_after_logIn (heap w) r p (_key self) obj) (calls w ++ [[]])).
Proof.
  intros Hs He Ht (H1 & H2 & H3 & H4 & H5). eapply logIn_run; eassumption.
Qed.

(** The request is still initialised after [logIn], now with both slots
    filled. *)
Lemma initialised_after_logIn h r p key obj :
  initialised h r p ->
  let h' := heap_after_logIn h r p key obj in
  initialised h' r p
  /\ filled h' (object_at h' p !!! "session") = filled h (object_at h p !!! "session")
  /\ truthy (object_at h' p !!! "session") = true
  /\ truthy (object_at h' r !!! "session") = true.
Proof.
  intros (H1 & H2 & H3 & H4 & H5).
  destruct (heap_after_logIn_reads h r p key obj H1 H2 H3 H4 H5)
    as (rs & Ep & Es & Ers & _ & _ & N1 & N2 & N3 & N4 & N5 & A1 & A2 & A3).
  cbv zeta. unfold initialised. rewrite Es, Ers. cbn [filled truthy].
  split; [|repeat split].
  split; [exact Ep|]. split; [exact H2|]. split; [exact A1|]. split.
  - right. eexists. split; [reflexivity|]. split; [assumption|].
    rewrite !not_elem_of_cons. repeat split; try assumption. apply not_elem_of_nil.
  - right. eexists. split; [reflexivity|]. split; [assumption|].
    rewrite !not_elem_of_cons. repeat split; try assumption. apply not_elem_of_nil.
Qed.

(** X1. [logIn] on an initialised request whose serializer reports no
    error completes, calls the callback once with no argument, and leaves
    one and the same object under [req._passport.session] and under
    [req.session[key]], holding the serialized identity as [user]. *)
Theorem logIn_stores_identity self ser r p user err obj w :
  _serializeUser self = Some ser ->
  ser user (Ref r) (heap w) = (err, obj) ->
  truthy err = false ->
  initialised (heap w) r p ->
  exists w' l,
    logIn self (Ref r) user w = Ok tt w'
    /\ calls w' = calls w ++ [[]]
    /\ passport_session (Ref r) w' = Ok (Ref l) w'
    /\ session_entry (Ref r) (_key self) w' = Ok (Ref l) w'
    /\ object_at (heap w') l !! "user" = Some obj.
Proof.
  intros Hs He Ht Hi.
  eexists _, (filled (heap w) (object_at (heap w) p !!! "session")).
  split; [eapply logIn_completes; eassumption|]. split; [reflexivity|].
  destruct Hi as (H1 & H2 & H3 & H4 & H5).
  destruct (heap_after_logIn_reads (heap w) r p (_key self) obj H1 H2 H3 H4 H5)
    as (rs & Ep & Es & Ers & Ors & Ol & _).
  cbn [heap].
  split; [|split].
  - rewrite (passport_session_ref r p) by exact Ep. cbn [heap]. rewrite Es. reflexivity.
  - unfold session_entry. erewrite bind_ok by apply get_ref. cbn [heap]. rewrite Ers.
    rewrite get_ref. cbn [heap]. rewrite Ors, lookup_total_insert_eq. reflexivity.
  - rewrite Ol. apply lookup_insert_eq.
Qed.

(** X2. Such a [logIn] writes nothing else: the other entries of the
    session record, of [req.session], of the request and of
    [req._passport] are as they were, and so is every other object. *)
Theorem logIn_keeps_other_entries self ser r p user err obj w :
  _serializeUser self = Some ser ->
  ser user (Ref r) (heap w) = (err, obj) ->
  truthy err = false ->
  initialised (heap w) r p ->
  exists w' l rs,
    logIn self (Ref r) user w = Ok tt w'
    /\ passport_session (Ref r) w' = Ok (Ref l) w'
    /\ get (Ref r) "session" w' = Ok (Ref rs) w'
    /\ (forall q, q <> "user" -> object_at (heap w') l !! q = object_at (heap w) l !! q)
    /\ (forall q, q <> _key self ->
                  object_at (heap w') rs !! q = object_at (heap w) rs !! q)
    /\ (forall q, q <> "session" ->
                  object_at (heap w') r !! q = object_at (heap w) r !! q
                  /\ object_at (heap w') p !! q = object_at (heap w) p !! q)
    /\ (forall x, x <> r -> x <> p -> x <> l -> x <> rs -> heap w' !! x = heap w !! x).
Proof.
  intros Hs He Ht Hi.
  pose proof Hi as (H1 & H2 & H3 & H4 & H5).
  destruct (heap_after_logIn_shape (heap w) r p (_key self) obj H1 H2 H3 H4 H5)
    as (rs & Hrs & _ & _ & _ & _ & _ & _ & _ & _ & _ & Er & Ep & El & Ers & Hx).
  destruct (heap_after_logIn_reads (heap w) r p (_key self) obj H1 H2 H3 H4 H5)
    as (rs' & Ep' & Es' & _).
  eexists _, (filled (heap w) (object_at (heap w) p !!! "session")), rs.
  split; [eapply logIn_completes; eassumption|]. cbn [heap].
  split.
  { rewrite (passport_session_ref r p) by exact Ep'. cbn [heap]. rewrite Es'. reflexivity. }
  rewrite get_ref. cbn [heap].
  rewrite (object_at_lookup _ _ _ Er), (object_at_lookup _ _ _ Ep),
    (object_at_lookup _ _ _ El), (object_at_lookup _ _ _ Ers).
  repeat split.
  - f_equal. destruct (truthy (object_at (heap w) r !!! "session")) eqn:E.
    + destruct Hrs as [H|[H _]]; [exact H | rewrite H in E; discriminate].
    + apply lookup_total_insert_eq.
  - intros q Hq. apply lookup_insert_ne. congruence.
  - intros q Hq. apply lookup_insert_ne. congruence.
  - destruct (truthy (object_at (heap w) r !!! "session")); [reflexivity|].
    apply lookup_insert_ne. congruence.
  - destruct (truthy (object_at (heap w) p !!! "session")); [reflexivity|].
    apply lookup_insert_ne. congruence.
  - exact Hx.
Qed.

(** X3. [logIn] on a request whose [_passport] is not an object throws
    once the serializer has answered without an error: the callback is not
    called and no object that existed is changed. *)
Theorem logIn_uninitialised_throws self ser r user err obj w :
  _serializeUser self = Some ser ->
  ser user (Ref r) (heap w) = (err, obj) ->
  truthy err = false ->
  (forall p, object_at (heap w) r !!! "_passport" <> Ref p) ->
  exists w',
    logIn self (Ref r) user w = Throws w'
    /\ calls w' = calls w
    /\ forall x, is_Some (heap w !! x) -> heap w' !! x = heap w !! x.
Proof.
  intros Hs He Ht Hn. unfold logIn. rewrite Hs. cbn beta. rewrite He, Ht.
  destruct w as [h cs]. cbn [heap calls] in *.
  unfold passport_session, bind, get, set, new_object, ret. cbn [heap calls].
  destruct (object_at h r !!! "_passport") as [| |b|n|s|p] eqn:Hp;
    try (exfalso; exact (Hn p eq_refl));
    cbn [truthy negb heap calls]; rewrite ?Hp; cbn [heap calls];
    rewrite ?object_at_insert; rewrite ?decide_False by congruence;
    try rewrite decide_False
      by (apply fresh_not_allocated; eapply object_at_allocated; [exact Hp | discriminate]);
    rewrite ?Hp;
    (eexists; split; [reflexivity|]; split; [reflexivity|]);
    intros x Hx; cbn [heap]; try reflexivity;
    apply lookup_insert_ne; apply fresh_not_allocated; exact Hx.
Qed.

(** X4. [logOut] after [logIn] gives back the session record as it was
    before, less any [user] entry; the record stays where [logIn] put it,
    under [req._passport.session] and [req.session[key]]. *)
Theorem logOut_undoes_logIn self ser r p user err obj cb w :
  _serializeUser self = Some ser ->
  ser user (Ref r) (heap w) = (err, obj) ->
  truthy err = false ->
  initialised (heap w) r p ->
  exists w1 w2 l,
    logIn self (Ref r) user w = Ok tt w1
    /\ logOut (Ref r) cb w1 = Ok tt w2
    /\ passport_session (Ref r) w2 = Ok (Ref l) w2
    /\ session_entry (Ref r) (_key self) w2 = Ok (Ref l) w2
    /\ object_at (heap w2) l = delete "user" (object_at (heap w) l)
    /\ (forall x, x <> l -> heap w2 !! x = heap w1 !! x).
Proof.
  intros Hs He Ht Hi.
  pose proof Hi as (H1 & H2 & H3 & H4 & H5).
  destruct (heap_after_logIn_reads (heap w) r p (_key self) obj H1 H2 H3 H4 H5)
    as (rs & Ep & Es & Ers & Ors & Ol & N1 & N2 & N3 & N4 & N5 & _).
  set (l := filled (heap w) (object_at (heap w) p !!! "session")) in *.
  set (h1 := heap_after_logIn (heap w) r p (_key self) obj) in *.
  assert (Htg : target h1 r = Some l) by (unfold target; rewrite Ep, Es; reflexivity).
  eexists _, _, l.
  split; [eapply logIn_completes; eassumption|].
  split; [apply logOut_run|]. cbn [heap calls]. fold h1.
  unfold heap_after_logOut. rewrite Htg.
  assert (O : forall x, x <> l -> object_at (alter (delete "user") l h1) x = object_at h1 x).
  { intros x Hx. rewrite object_at_alter by apply delete_empty.
    rewrite decide_False by congruence. reflexivity. }
  split; [|split; [|split]].
  - rewrite (passport_session_ref r p); cbn [heap]; rewrite !O by congruence;
      [rewrite Es; reflexivity | exact Ep].
  - unfold session_entry. erewrite bind_ok by apply get_ref. cbn [heap].
    rewrite O by congruence. rewrite Ers. rewrite get_ref. cbn [heap].
    rewrite O by congruence. rewrite Ors, lookup_total_insert_eq. reflexivity.
  - rewrite object_at_alter by apply delete_empty.
    rewrite decide_True by reflexivity. rewrite Ol. apply delete_insert_eq.
  - intros x Hx. apply lookup_alter_ne. congruence.
Qed.

(** X5. A second [logIn] on the same request reuses the session record
    of the first: it allocates nothing and replaces the [user] entry. *)
Theorem logIn_again_reuses_session self ser r p user err obj user' err' obj' w :
  _serializeUser self = Some ser ->
  ser user (Ref r) (heap w) = (err, obj) ->
  truthy err = false ->
  initialised (heap w) r p ->
  ser user' (Ref r) (heap_after_logIn (heap w) r p (_key self) obj) = (err', obj') ->
  truthy err' = false ->
  exists w1 w2 l,
    logIn self (Ref r) user w = Ok tt w1
    /\ logIn self (Ref r) user' w1 = Ok tt w2
    /\ passport_session (Ref r) w1 = Ok (Ref l) w1
    /\ passport_session (Ref r) w2 = Ok (Ref l) w2
    /\ session_entry (Ref r) (_key self) w2 = Ok (Ref l) w2
    /\ object_at (heap w2) l !! "user" = Some obj'
    /\ dom (heap w2) = dom (heap w1).
Proof.
  intros Hs He Ht Hi He' Ht'.
  destruct (initialised_after_logIn (heap w) r p (_key self) obj Hi)
    as (Hi1 & Hl1 & Ts1 & Trs1).
  set (h1 := heap_after_logIn (heap w) r p (_key self) obj) in *.
  set (l := filled (heap w) (object_at (heap w) p !!! "session")) in *.
  pose proof Hi as (H1 & H2 & H3 & H4 & H5).
  destruct (heap_after_logIn_reads (heap w) r p (_key self) obj H1 H2 H3 H4 H5)
    as (rs & Ep & Es & Ers & _).
  pose proof Hi1 as (G1 & G2 & G3 & G4 & G5).
  destruct (heap_after_logIn_reads h1 r p (_key self) obj' G1 G2 G3 G4 G5)
    as (rs2 & Ep2 & Es2 & Ers2 & Ors2 & Ol2 & _).
  destruct (heap_after_logIn_shape h1 r p (_key self) obj' G1 G2 G3 G4 G5)
    as (rs3 & Hrs3 & _ & _ & _ & _ & _ & A1 & A2 & A3 & A4 & _ & _ & _ & _ & Hx).
  fold h1 in Es, Ep, Ers. fold l in Es. rewrite Hl1 in *.
  exists (World h1 (calls w ++ [[]])),
    (World (heap_after_logIn h1 r p (_key self) obj') ((calls w ++ [[]]) ++ [[]])), l.
  split; [eapply logIn_completes; eassumption|].
  split; [eapply (logIn_completes self ser r p user' err' obj' (World h1 _)); eassumption|].
  cbn [heap].
  split; [rewrite (passport_session_ref r p) by exact Ep; cbn [heap]; rewrite Es; reflexivity|].
  split; [rewrite (passport_session_ref r p) by exact Ep2; cbn [heap]; rewrite Es2;
          reflexivity|].
  split.
  { unfold session_entry. erewrite bind_ok by apply get_ref. cbn [heap]. rewrite Ers2.
    rewrite get_ref. cbn [heap]. rewrite Ors2, lookup_total_insert_eq. reflexivity. }
  split; [rewrite Ol2; apply lookup_insert_eq|].
  assert (Ers3 : rs3 = rs).
  { destruct Hrs3 as [E|[E _]]; [rewrite Ers in E; congruence | rewrite E in Trs1; discriminate]. }
  subst rs3.
  assert (Ars : is_Some (h1 !! rs)).
  { destruct G5 as [E|(x & Ex & Ax & _)]; [rewrite E in Trs1; discriminate|].
    rewrite Ers in Ex. injection Ex as ->. exact Ax. }
  assert (Al : is_Some (h1 !! l)).
  { destruct G4 as [E|(x & Ex & Ax & _)]; [rewrite E in Ts1; discriminate|].
    rewrite Es in Ex. injection Ex as ->. exact Ax. }
  assert (Ar : is_Some (h1 !! r))
    by (eapply object_at_allocated; [exact G1 | discriminate]).
  apply set_eq. intros x. rewrite !elem_of_dom.
  destruct (decide (x = r)) as [->|?]; [tauto|].
  destruct (decide (x = p)) as [->|?]; [tauto|].
  destruct (decide (x = l)) as [->|?]; [tauto|].
  destruct (decide (x = rs)) as [->|?]; [tauto|].
  rewrite Hx by assumption. tauto.
Qed.

Ltac initialised_here :=
  repeat split;
  first [ discriminate
        | reflexivity
        | eexists; reflexivity
        | left; reflexivity
        | right; eexists; split; [reflexivity|]; split; [eexists; reflexivity|];
          rewrite !not_elem_of_cons; repeat split; try discriminate; apply not_elem_of_nil ].

Lemma logIn_stores_identity_witness :
  exists w' l,
    logIn (new ArgNone (Some echo_serializer)) (Ref 1%positive) (Str "bob") anonymous
    = Ok tt w'
    /\ session_entry (Ref 1%positive) "passport" w' = Ok (Ref l) w'
    /\ object_at (heap w') l !! "user" = Some (Str "bob").
Proof.
  destruct (logIn_stores_identity (new ArgNone (Some echo_serializer)) echo_serializer
              1%positive 2%positive (Str "bob") Null (Str "bob") anonymous)
    as (w' & l & H1 & _ & _ & H2 & H3);
    [reflexivity | reflexivity | reflexivity | initialised_here |].
  exists w', l. split; [exact H1|]. split; [exact H2 | exact H3].
Defined.

Lemma logIn_keeps_other_entries_witness :
  exists w' l rs,
    logIn (new ArgNone (Some echo_serializer)) (Ref 1%positive) (Str "alice") logged_in
    = Ok tt w'
    /\ passport_session (Ref 1%positive) w' = Ok (Ref l) w'
    /\ get (Ref 1%positive) "session" w' = Ok (Ref rs) w'
    /\ object_at (heap w') l !! "seen" = object_at (heap logged_in) l !! "seen"
    /\ object_at (heap w') rs !! "returnTo" = object_at (heap logged_in) rs !! "returnTo".
Proof.
  destruct (logIn_keeps_other_entries (new ArgNone (Some echo_serializer)) echo_serializer
              1%positive 2%positive (Str "alice") Null (Str "alice") logged_in)
    as (w' & l & rs & H1 & H2 & H3 & H4 & H5 & _);
    [reflexivity | reflexivity | reflexivity | initialised_here |].
  exists w', l, rs. split; [exact H1|]. split; [exact H2|]. split; [exact H3|].
  split; [apply H4 | apply H5]; discriminate.
Defined.

Lemma logIn_uninitialised_throws_witness :
  exists w',
    logIn (new ArgNone (Some echo_serializer)) (Ref 1%positive) (Str "bob") detached
    = Throws w'
    /\ calls w' = [].
Proof.
  destruct (logIn_uninitialised_throws (new ArgNone (Some echo_serializer)) echo_serializer
              1%positive (Str "bob") Null (Str "bob") detached)
    as (w' & H1 & H2 & _);
    [reflexivity | reflexivity | reflexivity | intros p; vm_compute; discriminate |].
  exists w'. split; [exact H1 | exact H2].
Defined.

Lemma logOut_undoes_logIn_witness :
  exists w1 w2 l,
    logIn (new ArgNone (Some echo_serializer)) (Ref 1%positive) (Str "bob") anonymous
    = Ok tt w1
    /\ logOut (Ref 1%positive) true w1 = Ok tt w2
    /\ session_entry (Ref 1%positive) "passport" w2 = Ok (Ref l) w2
    /\ object_at (heap w2) l = delete "user" (object_at (heap anonymous) l).
Proof.
  destruct (logOut_undoes_logIn (new ArgNone (Some echo_serializer)) echo_serializer
              1%positive 2%positive (Str "bob") Null (Str "bob") true anonymous)
    as (w1 & w2 & l & H1 & H2 & _ & H3 & H4 & _);
    [reflexivity | reflexivity | reflexivity | initialised_here |].
  exists w1, w2, l. split; [exact H1|]. split; [exact H2|]. split; [exact H3 | exact H4].
Defined.

Lemma logIn_again_reuses_session_witness :
  exists w1 w2 l,
    logIn (new ArgNone (Some echo_serializer)) (Ref 1%positive) (Str "bob") anonymous
    = Ok tt w1
    /\ logIn (new ArgNone (Some echo_serializer)) (Ref 1%positive) (Str "alice") w1
       = Ok tt w2
    /\ passport_session (Ref 1%positive) w1 = Ok (Ref l) w1
    /\ passport_session (Ref 1%positive) w2 = Ok (Ref l) w2
    /\ object_at (heap w2) l !! "user" = Some (Str "alice").
Proof.
  destruct (logIn_again_reuses_session (new ArgNone (Some echo_serializer)) echo_serializer
              1%positive 2%positive (Str "bob") Null (Str "bob")
              (Str "alice") Null (Str "alice") anonymous)
    as (w1 & w2 & l & H1 & H2 & H3 & H4 & _ & H5 & _);
    [reflexivity | reflexivity | reflexivity | initialised_here | reflexivity | reflexivity |].
  exists w1, w2, l. repeat split; assumption.
Defined.

End SessionManagerProofs.

(** * Properties of the middleware *)

Module AuthenticateProofs.
Import Authenticate.

(** ** The frame relation *)

Lemma evolves_refl K S Q w : evolves K S Q w w.
Proof.
  repeat split; auto. exists []. rewrite app_nil_r. split; reflexivity.
Qed.

Lemma evolves_trans K S Q w1 w2 w3 :
  evolves K S Q w1 w2 -> evolves K S Q w2 w3 -> evolves K S Q w1 w3.
Proof.
  intros (Ho & Hs & evs & Ht & Hq) (Ho' & Hs' & evs' & Ht' & Hq').
  repeat split.
  - intros k Hk. rewrite Ho' by exact Hk. apply Ho, Hk.
  - intros HS. rewrite Hs' by exact HS. apply Hs, HS.
  - exists (evs ++ evs'). split.
    + rewrite Ht', Ht, app_assoc. reflexivity.
    + rewrite forallb_app, Hq, Hq'. reflexivity.
Qed.

Lemma final_bind {A B} (m : M world A) (k : A -> M world B) w :
  final (bind m k w) =
  match m w with
  | Ok a w' => final (k a w')
  | Throws w' => w'
  end.
Proof. unfold bind. destruct (m w); reflexivity. Qed.

Section Keeps.
Variable K : string -> Prop.
Variable S : bool.
Variable Q : event -> bool.

Lemma keeps_ret {A} (a : A) : keeps (evolves K S Q) (ret a).
Proof. intros w. apply evolves_refl. Qed.

Lemma keeps_throw {A} : keeps (evolves K S Q) (@throw world A).
Proof. intros w. apply evolves_refl. Qed.

Lemma keeps_bind {A B} (m : M world A) (k : A -> M world B) :
  keeps (evolves K S Q) m -> (forall a, keeps (evolves K S Q) (k a)) ->
  keeps (evolves K S Q) (bind m k).
Proof.
  intros Hm Hk w. rewrite final_bind. specialize (Hm w).
  destruct (m w) as [a w'|w']; simpl in Hm; [|exact Hm].
  eapply evolves_trans; [exact Hm | apply Hk].
Qed.

Lemma keeps_emit e : Q e = true -> keeps (evolves K S Q) (emit e).
Proof.
  intros He w. repeat split; auto. exists [e]. simpl. rewrite He. auto.
Qed.

Lemma keeps_opt key : keeps (evolves K S Q) (opt key).
Proof. intros w. apply evolves_refl. Qed.

Lemma keeps_read_req key : keeps (evolves K S Q) (read_req key).
Proof. intros w. apply evolves_refl. Qed.

Lemma keeps_read_statusCode : keeps (evolves K S Q) read_statusCode.
Proof. intros w. apply evolves_refl. Qed.

Lemma keeps_ask {A} (f : world -> A) : keeps (evolves K S Q) (fun w => Ok (f w) w).
Proof. intros w. apply evolves_refl. Qed.

Lemma keeps_write_req key v : keeps (evolves K S Q) (write_req key v).
Proof.
  intros w. repeat split; auto. exists []. simpl. rewrite app_nil_r. auto.
Qed.

Lemma keeps_write_option key v : K key -> keeps (evolves K S Q) (write_option key v).
Proof.
  intros Hk w. repeat split; auto.
  - intros k Hn. simpl. apply lookup_insert_ne. intros ->. exact (Hn Hk).
  - exists []. simpl. rewrite app_nil_r. auto.
Qed.

Lemma keeps_write_statusCode v : S = false -> keeps (evolves K S Q) (write_statusCode v).
Proof.
  intros HS w. repeat split; auto.
  - rewrite HS. discriminate.
  - exists []. simpl. rewrite app_nil_r. auto.
Qed.

End Keeps.

Create HintDb keeps.

#[local] Hint Resolve keeps_ret keeps_throw keeps_opt keeps_read_req keeps_read_statusCode
  keeps_write_req keeps_ask : keeps.

(** Decompose a computation along its binds and its case distinctions. *)
Ltac keeps_step :=
  match goal with
  | |- keeps _ (bind _ _) => apply keeps_bind; [|intros ?]
  | |- keeps _ (if ?b then _ else _) => destruct b
  | |- keeps _ (match ?x with _ => _ end) => destruct x
  | |- keeps _ (emit _) => apply keeps_emit; reflexivity
  | |- keeps _ (write_option _ _) => apply keeps_write_option; solve [auto]
  | |- keeps _ (write_statusCode _) => apply keeps_write_statusCode; reflexivity
  | |- keeps _ _ => solve [auto with keeps]
  end.
Ltac keeps_all := repeat keeps_step.

Section Blocks.
Variable K : string -> Prop.
Variable S : bool.
Variable Q : event -> bool.

Lemma keeps_read_session p : keeps (evolves K S Q) (read_session p).
Proof. unfold read_session. keeps_all. Qed.

Lemma keeps_write_session p x : keeps (evolves K S Q) (write_session p x).
Proof. unfold write_session. keeps_all. Qed.

#[local] Hint Resolve keeps_read_session keeps_write_session : keeps.

Lemma keeps_redirect url :
  Q ESessionSave = true -> Q (EResRedirect url) = true ->
  keeps (evolves K S Q) (redirect url).
Proof.
  intros H1 H2. unfold redirect.
  repeat first [ apply keeps_emit; assumption | keeps_step ].
Qed.

Lemma keeps_flash_block key dflt source :
  K key -> (forall t m, Q (EFlash t m) = true) ->
  keeps (evolves K S Q) (flash_block key dflt source).
Proof.
  intros Hk Hq. unfold flash_block.
  repeat first [ apply keeps_emit; apply Hq | keeps_step ].
Qed.

Lemma keeps_message_block key source :
  (forall m, Q (EPush m) = true) ->
  keeps (evolves K S Q) (message_block key source).
Proof.
  intros Hq. unfold message_block.
  repeat first [ apply keeps_emit; apply Hq | keeps_step ].
Qed.

End Blocks.

(** ** The loop over the failure records *)

Lemma collect_status_from (failures : list failure) (a : value) (l : list value) :
  or (fst (fold_left
             (fun acc f =>
                (or (fst acc) (status f),
                 if String.eqb (typeof (challenge f)) "string"
                 then snd acc ++ [challenge f]
                 else snd acc))
             failures (a, l))) (VNum 401)
  = if truthy a then a else first_status failures.
Proof.
  revert a l. induction failures as [|f fs IH]; intros a l; simpl.
  - unfold or. reflexivity.
  - rewrite IH. unfold or, first_status. simpl.
    destruct (truthy a) eqn:Ha; simpl.
    + rewrite Ha. reflexivity.
    + destruct (truthy (status f)); reflexivity.
Qed.

Lemma collect_challenges_from (failures : list failure) (a : value) (l : list value) :
  snd (fold_left
         (fun acc f =>
            (or (fst acc) (status f),
             if String.eqb (typeof (challenge f)) "string"
             then snd acc ++ [challenge f]
             else snd acc))
         failures (a, l))
  = l ++ string_challenges failures.
Proof.
  revert a l. induction failures as [|f fs IH]; intros a l; simpl.
  - rewrite app_nil_r. reflexivity.
  - rewrite IH. unfold string_challenges. simpl.
    destruct (String.eqb (typeof (challenge f)) "string"); simpl.
    + rewrite <- app_assoc. reflexivity.
    + reflexivity.
Qed.

Lemma collect_status failures :
  or (fst (collect failures)) (VNum 401) = first_status failures.
Proof. unfold collect. rewrite collect_status_from. reflexivity. Qed.

Lemma collect_challenges failures :
  snd (collect failures) = string_challenges failures.
Proof. unfold collect. rewrite collect_challenges_from. reflexivity. Qed.

Lemma is_401_spec v : is_401 v = true <-> v = VNum 401.
Proof.
  destruct v; simpl; try (split; [discriminate | intros [=]]).
  rewrite Z.eqb_eq. split; [intros ->; reflexivity | intros [= ->]; reflexivity].
Qed.

(** ** Worlds that differ by their trace only *)

Lemma after_nil w : after w [] = w.
Proof. destruct w. unfold after. simpl. rewrite app_nil_r. reflexivity. Qed.

Lemma after_after w evs evs' : after (after w evs) evs' = after w (evs ++ evs').
Proof. unfold after. simpl. rewrite app_assoc. reflexivity. Qed.

(** ** Blocks that are switched off *)

Lemma flash_block_off key dflt source w :
  truthy (options w !!! key) = false -> flash_block key dflt source w = Ok tt w.
Proof. intros H. unfold flash_block, bind, opt. rewrite H. reflexivity. Qed.

Lemma message_block_off key source w :
  truthy (options w !!! key) = false -> message_block key source w = Ok tt w.
Proof. intros H. unfold message_block, bind, opt. rewrite H. reflexivity. Qed.

Lemma redirect_run url w :
  redirect url w = Ok tt (after w (redirect_events (req w !!! "session") url)).
Proof.
  unfold redirect, redirect_events, bind, read_req.
  destruct (truthy (req w !!! "session") && truthy (prop (req w !!! "session") "save")
            && String.eqb (typeof (prop (req w !!! "session") "save")) "function");
    unfold emit, after; simpl; rewrite <- ?app_assoc; reflexivity.
Qed.

Section Chain.
Variable STATUS_CODES : value -> value.
Variable logIn : value -> gmap string value -> gmap string value -> value.
Variable passport : Passport.
Variable multi : bool.

(** ** What each procedure leaves alone *)

Lemma keeps_complete K S Q :
  Q ESessionSave = true -> (forall url, Q (EResRedirect url) = true) ->
  Q (ENext None) = true ->
  keeps (evolves K S Q) complete.
Proof.
  intros H1 H2 H3. unfold complete.
  repeat first [ apply keeps_redirect; solve [auto] | apply keeps_emit; assumption | keeps_step ].
Qed.

(** [success] writes neither the response head nor the response body and
    leaves the status code alone. *)
Lemma keeps_success K S Q callback user info :
  K "successFlash" ->
  (forall e, writes_response e = false -> Q e = true) ->
  keeps (evolves K S Q) (success logIn passport callback user info).
Proof.
  intros Hk Hq. unfold success.
  repeat first
    [ apply keeps_flash_block; [exact Hk | intros; apply Hq; reflexivity]
    | apply keeps_message_block; intros; apply Hq; reflexivity
    | apply keeps_complete; intros; apply Hq; reflexivity
    | apply keeps_emit; apply Hq; reflexivity
    | keeps_step ].
Qed.

(** ** The options *)

Lemma evolves_options_kept S Q w w' :
  evolves (fun _ => False) S Q w w' -> options w' = options w.
Proof. intros (Ho & _). apply map_eq. intros k. apply Ho. tauto. Qed.

(** When whatever follows [m] leaves the options alone, the options at
    the end are those [m] ended with. *)
Lemma options_after_bind {A B} (m : M world A) (k : A -> M world B) w :
  (forall a, keeps (evolves (fun _ => False) false (fun _ => true)) (k a)) ->
  options (final (bind m k w)) = options (final (m w)).
Proof.
  intros Hk. rewrite final_bind. destruct (m w) as [a w'|w']; simpl; [|reflexivity].
  apply (evolves_options_kept false (fun _ => true)). apply Hk.
Qed.

Lemma flash_block_options key dflt source w :
  options (final (flash_block key dflt source w)) = options w
  \/ flash_defaulted key dflt w (final (flash_block key dflt source w)).
Proof.
  unfold flash_defaulted, flash_block, bind, opt, write_option, read_req, emit, ret, throw.
  destruct (truthy (options w !!! key)); simpl; [|left; reflexivity].
  destruct (String.eqb (typeof (options w !!! key)) "string") eqn:Hs; simpl.
  - left. repeat (case_match; simpl; try reflexivity).
  - destruct (String.eqb (typeof (options w !!! key)) "boolean"); simpl.
    + left. repeat (case_match; simpl; try reflexivity).
    + destruct (set_prop (options w !!! key) "type"
                  (or (prop (options w !!! key) "type") (VStr dflt))) as [flash'|] eqn:Hset;
        simpl; [|left; reflexivity].
      right. exists flash'. split; [reflexivity|].
      repeat (case_match; simpl; try reflexivity).
  Qed.

Lemma success_options callback user info w :
  options (final (success logIn passport callback user info w)) = options w
  \/ flash_defaulted "successFlash" "success" w
       (final (success logIn passport callback user info w)).
Proof.
  unfold flash_defaulted, success. destruct callback; [left; reflexivity|].
  rewrite options_after_bind.
  - destruct (flash_block_options "successFlash" "success" (or info empty_object) w)
      as [H|(f & H1 & H2)]; [left; exact H | right; exists f; split; assumption].
  - intros _.
    repeat first
      [ apply keeps_message_block; reflexivity
      | apply keeps_complete; reflexivity
      | keeps_step ].
Qed.

Lemma allFailed_options callback failures w :
  options (final (allFailed STATUS_CODES multi callback failures w)) = options w
  \/ flash_defaulted "failureFlash" "error" w
       (final (allFailed STATUS_CODES multi callback failures w)).
Proof.
  unfold flash_defaulted, allFailed. destruct callback.
  - left. destruct (negb multi); [destruct (failures !! 0%nat)|]; reflexivity.
  - rewrite options_after_bind.
    + match goal with
      | |- context [flash_block _ _ ?c w] =>
          destruct (flash_block_options "failureFlash" "error" c w)
            as [H|(f & H1 & H2)]; [left; exact H | right; exists f; split; assumption]
      end.
    + intros _.
      repeat first
        [ apply keeps_message_block; reflexivity
        | apply keeps_redirect; reflexivity
        | keeps_step ].
Qed.

(** ** The chain *)

Lemma attempt_step callback l rest i failures w s :
  layer_truthy l = true -> resolve passport l = Some s ->
  attempt STATUS_CODES logIn passport multi callback (l :: rest) i failures w =
  match s (req w) (options w) with
  | Success user info =>
      success logIn passport callback user info (after w [EAuthenticate i])
  | Fail challenge status =>
      attempt STATUS_CODES logIn passport multi callback rest (S i)
        (failures ++ [fail challenge status]) (after w [EAuthenticate i])
  | Redirect url status => strategy_redirect url status (after w [EAuthenticate i])
  | Pass => pass (after w [EAuthenticate i])
  | Error err => error_ callback err (after w [EAuthenticate i])
  end.
Proof. intros Ht Hr. simpl. rewrite Ht, Hr. reflexivity. Qed.

(** A prefix of strategies that all fail is walked through in order; each
    one is asked once and leaves one failure record. *)
Lemma attempt_failing_prefix callback w0 pre recorded :
  Forall2 (fails_with passport w0) pre recorded ->
  forall tail i failures evs,
    attempt STATUS_CODES logIn passport multi callback (pre ++ tail) i failures (after w0 evs)
    = attempt STATUS_CODES logIn passport multi callback tail (i + length pre)
        (failures ++ recorded) (after w0 (evs ++ asked i (length pre))).
Proof.
  induction 1 as [|l f pre recorded (Ht & s & c & st & Hr & Hs & ->) _ IH];
    intros tail i failures evs.
  - simpl. rewrite Nat.add_0_r, !app_nil_r. reflexivity.
  - rewrite <- app_comm_cons.
    rewrite (attempt_step callback l (pre ++ tail) i failures (after w0 evs) s Ht Hr).
    simpl req. simpl options. rewrite Hs. rewrite after_after, IH.
    unfold asked. simpl. rewrite <- !app_assoc. simpl.
    replace (S (i + length pre))%nat with (i + S (length pre))%nat by lia.
    reflexivity.
Qed.

Lemma attempt_all_fail callback w chain failures :
  Forall2 (fails_with passport w) chain failures ->
  attempt STATUS_CODES logIn passport multi callback chain 0 [] w
  = allFailed STATUS_CODES multi callback failures (after w (asked 0 (length chain))).
Proof.
  intros H.
  pose proof (attempt_failing_prefix callback w chain failures H [] 0%nat [] []) as E.
  rewrite after_nil, app_nil_r in E. simpl in E. exact E.
Qed.

Lemma attempt_options callback chain i failures w :
  let w' := final (attempt STATUS_CODES logIn passport multi callback chain i failures w) in
  options w' = options w
  \/ flash_defaulted "failureFlash" "error" w w'
  \/ flash_defaulted "successFlash" "success" w w'.
Proof.
  revert i failures w. induction chain as [|l rest IH]; intros i failures w; simpl.
  - destruct (allFailed_options callback failures w); auto.
  - destruct (layer_truthy l); simpl.
    2: destruct (allFailed_options callback failures w); auto.
    destruct (resolve passport l) as [s|]; [|left; reflexivity].
    unfold bind. simpl.
    destruct (s (req w) (options w)) as [u info|c st|url st| |err].
    + destruct (success_options callback u info
                  (World (options w) (req w) (statusCode w) (trace w ++ [EAuthenticate i]))); auto.
    + apply (IH (S i) (failures ++ [fail c st])
               (World (options w) (req w) (statusCode w) (trace w ++ [EAuthenticate i]))).
    + left. reflexivity.
    + left. reflexivity.
    + left. unfold error_. destruct callback; reflexivity.
Qed.

End Chain.

(** [complete] when no success redirect is configured. *)
Lemma complete_plain w :
  truthy (options w !!! "successReturnToOrRedirect") = false ->
  truthy (options w !!! "successRedirect") = false ->
  complete w = Ok tt (after w [ENext None]).
Proof.
  intros H1 H2. unfold complete, bind, opt. rewrite H1, H2. reflexivity.
Qed.

Lemma evolves_emitted K S Q w r evs :
  forallb Q evs = true ->
  evolves K S Q w (World (options w) r (statusCode w) (trace w ++ evs)).
Proof.
  intros H. repeat split; auto. exists evs. split; [reflexivity | exact H].
Qed.

(** Without a success redirect configured, [success] redirects nowhere. *)
Lemma success_without_redirect logIn passport user info w :
  truthy (options w !!! "successReturnToOrRedirect") = false ->
  truthy (options w !!! "successRedirect") = false ->
  evolves (fun k => k = "successFlash") true (fun e => negb (is_redirect e))
    w (final (success logIn passport false user info w)).
Proof.
  intros H1 H2. unfold success. rewrite final_bind.
  pose proof (keeps_flash_block (fun k => k = "successFlash") true
                (fun e => negb (is_redirect e)) "successFlash" "success"
                (or info empty_object) eq_refl (fun _ _ => eq_refl) w) as Hfl.
  destruct (flash_block "successFlash" "success" (or info empty_object) w) as [[] wa|wa];
    simpl in Hfl; [|exact Hfl].
  eapply evolves_trans; [exact Hfl|].
  rewrite final_bind.
  pose proof (keeps_message_block (fun k => k = "successFlash") true
                (fun e => negb (is_redirect e)) "successMessage"
                (or info empty_object) (fun _ => eq_refl) wa) as Hms.
  destruct (message_block "successMessage" (or info empty_object) wa) as [[] wb|wb];
    simpl in Hms; [|exact Hms].
  eapply evolves_trans; [exact Hms|].
  assert (Hwb : evolves (fun k => k = "successFlash") true
                  (fun e => negb (is_redirect e)) w wb)
    by (eapply evolves_trans; eassumption).
  destruct Hwb as (Ho & _).
  assert (E1 : truthy (options wb !!! "successReturnToOrRedirect") = false).
  { assert (E : options wb !!! "successReturnToOrRedirect"
                = options w !!! "successReturnToOrRedirect")
      by (rewrite !lookup_total_alt; f_equal; apply Ho; discriminate).
    rewrite E. exact H1. }
  assert (E2 : truthy (options wb !!! "successRedirect") = false).
  { assert (E : options wb !!! "successRedirect" = options w !!! "successRedirect")
      by (rewrite !lookup_total_alt; f_equal; apply Ho; discriminate).
    rewrite E. exact H2. }
  unfold bind, opt, read_req, write_req, emit, throw. simpl.
  repeat (case_match; simpl);
    rewrite ?complete_plain by assumption; simpl;
    try apply evolves_refl;
    unfold after; simpl; rewrite <- ?app_assoc; simpl;
    apply evolves_emitted; reflexivity.
Qed.

(** ** Numbers as property names *)

(** The forms [Number::toString] gives an integer: plain digits, the
    nearest representable number beyond [2^53], the exponent form from
    [1e21] on. *)
Example number_to_string_forms :
  to_string (VNum 401) = "401"
  /\ to_string (VNum (-5)) = "-5"
  /\ to_string (VNum (2 ^ 53 + 1)) = "9007199254740992"
  /\ to_string (VNum (2 ^ 64)) = "18446744073709552000"
  /\ to_string (VNum (10 ^ 21)) = "1e+21"
  /\ to_string (VNum (2 ^ 70)) = "1.1805916207174113e+21".
Proof. vm_compute. repeat split. Qed.

(** ** What a dispatch adds to the trace *)

#[local] Hint Resolve keeps_read_session keeps_write_session : keeps.

Lemma keeps_allFailed STATUS_CODES multi callback K S Q failures :
  K "failureFlash" -> S = false ->
  (forall e, is_authenticate e = false -> Q e = true) ->
  keeps (evolves K S Q) (allFailed STATUS_CODES multi callback failures).
Proof.
  intros Hk HS Hq. unfold allFailed.
  repeat first
    [ apply keeps_flash_block; [exact Hk | intros; apply Hq; reflexivity]
    | apply keeps_message_block; intros; apply Hq; reflexivity
    | apply keeps_redirect; apply Hq; reflexivity
    | apply keeps_emit; apply Hq; reflexivity
    | apply keeps_write_statusCode; exact HS
    | keeps_step ].
Qed.

Lemma keeps_success_any logIn passport callback K S Q user info :
  K "successFlash" ->
  (forall e, is_authenticate e = false -> Q e = true) ->
  keeps (evolves K S Q) (success logIn passport callback user info).
Proof.
  intros Hk Hq. unfold success.
  repeat first
    [ apply keeps_flash_block; [exact Hk | intros; apply Hq; reflexivity]
    | apply keeps_message_block; intros; apply Hq; reflexivity
    | apply keeps_complete; intros; apply Hq; reflexivity
    | apply keeps_emit; apply Hq; reflexivity
    | keeps_step ].
Qed.

Lemma keeps_strategy_redirect K Q url status :
  (forall e, is_authenticate e = false -> Q e = true) ->
  keeps (evolves K false Q) (strategy_redirect url status).
Proof.
  intros Hq. unfold strategy_redirect.
  repeat first [ apply keeps_emit; apply Hq; reflexivity | keeps_step ].
Qed.

Lemma blocks_frame fkey mkey dflt source w w1 :
  (flash_block fkey dflt source;; message_block mkey source) w = Ok tt w1 ->
  evolves (fun k => k = fkey) true notes w w1.
Proof.
  intros Hb.
  assert (Hk : keeps (evolves (fun k => k = fkey) true notes)
                 (flash_block fkey dflt source;; message_block mkey source)).
  { apply keeps_bind; [apply keeps_flash_block | intros _; apply keeps_message_block];
      reflexivity. }
  specialize (Hk w). rewrite Hb in Hk. exact Hk.
Qed.

Lemma option_kept (K : string -> Prop) S Q w w1 key :
  evolves K S Q w w1 -> ~ K key -> options w1 !!! key = options w !!! key.
Proof.
  intros (Ho & _) Hk. rewrite !lookup_total_alt. f_equal. apply Ho, Hk.
Qed.

(** [success] without a callback, once its flash and message blocks have
    completed: what is left to run. *)
Lemma success_after_blocks logIn passport user info w w1 :
  (flash_block "successFlash" "success" (or info empty_object);;
   message_block "successMessage" (or info empty_object)) w = Ok tt w1 ->
  success logIn passport false user info w
  = (let* assignProperty := opt "assignProperty" in
     if truthy assignProperty then
       write_req (to_string assignProperty) user;;
       emit (ENext None)
     else
       let* f := read_req "logIn" in
       if negb (String.eqb (typeof f) "function") then throw
       else
         emit (ELogIn user);;
         let* err := (fun w => Ok (logIn user (options w) (req w)) w) in
         if truthy err then emit (ENext (Some (ErrValue err)))
         else
           let* authInfo := opt "authInfo" in
           if is_not_false authInfo then
             emit (ETransformAuthInfo (or info empty_object));;
             let* r := (fun w => Ok (transformAuthInfo passport (or info empty_object) (req w)) w) in
             if truthy (fst r) then emit (ENext (Some (ErrValue (fst r))))
             else write_req "authInfo" (snd r);; complete
           else complete) w1.
Proof.
  intros Hb. unfold success. unfold bind at 1 2. unfold bind at 1 in Hb.
  destruct (flash_block "successFlash" "success" (or info empty_object) w)
    as [[] wa|]; [|discriminate].
  rewrite Hb. reflexivity.
Qed.

(** A dispatch only adds to the trace. *)
Lemma keeps_attempt STATUS_CODES logIn passport multi callback K Q chain :
  K "failureFlash" -> K "successFlash" -> (forall e, Q e = true) ->
  forall i failures,
    keeps (evolves K false Q)
      (attempt STATUS_CODES logIn passport multi callback chain i failures).
Proof.
  intros Kf Ks HQ. induction chain as [|l rest IH]; intros i failures; cbn [attempt].
  - apply keeps_allFailed; auto.
  - destruct (layer_truthy l); cbn [negb]; [|apply keeps_allFailed; auto].
    destruct (resolve passport l) as [s|]; [|apply keeps_emit; apply HQ].
    apply keeps_bind; [apply keeps_emit; apply HQ|]. intros _ w.
    destruct (s (req w) (options w)) as [u info|c st|url st| |err].
    + apply keeps_success_any; auto.
    + apply IH.
    + apply keeps_strategy_redirect; auto.
    + unfold pass. apply keeps_emit, HQ.
    + unfold error_. destruct callback; apply keeps_emit, HQ.
Qed.

(** An entry that names a strategy is asked before anything else
    happens. *)
Lemma attempt_asks_first STATUS_CODES logIn passport multi callback l s rest i failures w :
  layer_truthy l = true -> resolve passport l = Some s ->
  exists evs,
    trace (final (attempt STATUS_CODES logIn passport multi callback (l :: rest) i failures w))
    = trace w ++ EAuthenticate i :: evs.
Proof.
  intros Ht Hr.
  rewrite (attempt_step STATUS_CODES logIn passport multi callback l rest i failures w s Ht Hr).
  assert (G : forall m : M world unit,
            keeps (evolves (fun _ => True) false (fun _ => true)) m ->
            exists evs,
              trace (final (m (after w [EAuthenticate i]))) = trace w ++ EAuthenticate i :: evs).
  { intros m Hm. destruct (Hm (after w [EAuthenticate i])) as (_ & _ & evs & Ht' & _).
    exists evs. rewrite Ht'. cbn [after trace]. rewrite <- app_assoc. reflexivity. }
  destruct (s (req w) (options w)) as [u info|c st|url st| |err].
  - apply G, keeps_success_any; auto.
  - apply G, keeps_attempt; auto.
  - apply G, keeps_strategy_redirect; auto.
  - apply G. unfold pass. apply keeps_emit. reflexivity.
  - apply G. unfold error_. destruct callback; apply keeps_emit; reflexivity.
Qed.

Lemma fails_with_number passport w l s (n : Z) (st : value) :
  layer_truthy l = true -> resolve passport l = Some s ->
  (s (req w) (options w) = Fail (VNum n) st \/ s (req w) (options w) = Fail VUndef (VNum n)) ->
  fails_with passport w l (Failure VUndef (VNum n)).
Proof.
  intros Ht Hr [Hs|Hs]; (split; [exact Ht|]).
  - exists s, (VNum n), st. repeat split; assumption.
  - exists s, VUndef, (VNum n). repeat split; assumption.
Qed.

(** What a success without a callback does with the identity, when it
    completes: under a property name it is stored on the request and
    [next()] follows; with no property to assign, [req.logIn] is called
    with it.  Before that come only flash and message events. *)
Lemma success_carries logIn passport (U info : value) (w w' : world) :
  success logIn passport false U info w = Ok tt w' ->
  (forall name,
      options w !!! "assignProperty" = VStr name -> name <> "" ->
      req w' !!! name = U
      /\ exists evs, trace w' = trace w ++ evs ++ [ENext None] /\ forallb notes evs = true)
  /\ (truthy (options w !!! "assignProperty") = false ->
      exists evs1 evs2,
        trace w' = trace w ++ evs1 ++ ELogIn U :: evs2 /\ forallb notes evs1 = true).
Proof.
  intros Hrun.
  destruct ((flash_block "successFlash" "success" (or info empty_object);;
             message_block "successMessage" (or info empty_object)) w)
    as [[] w1|w1] eqn:Hb.
  2: { exfalso. unfold success in Hrun. unfold bind in Hrun, Hb.
       destruct (flash_block "successFlash" "success" (or info empty_object) w)
         as [[] wa|]; [|discriminate].
       destruct (message_block "successMessage" (or info empty_object) wa)
         as [[] wb|]; discriminate. }
  pose proof (blocks_frame _ _ _ _ _ _ Hb) as Hf.
  assert (E : options w1 !!! "assignProperty" = options w !!! "assignProperty")
    by (apply (option_kept _ _ _ _ _ _ Hf); discriminate).
  destruct Hf as (_ & _ & evs & Ht & Hq).
  rewrite (success_after_blocks logIn passport U info w w1 Hb) in Hrun.
  unfold bind at 1, opt at 1 in Hrun. rewrite E in Hrun.
  split.
  - intros name Ha Hn. rewrite Ha in Hrun. cbn [truthy to_string] in Hrun.
    apply String.eqb_neq in Hn. rewrite Hn in Hrun.
    unfold bind, write_req, emit in Hrun. cbn in Hrun. injection Hrun as <-.
    cbn [req trace]. split; [apply lookup_total_insert_eq|].
    exists evs. rewrite Ht, <- app_assoc. split; [reflexivity | exact Hq].
  - intros Ha. rewrite Ha in Hrun.
    unfold bind at 1, read_req at 1 in Hrun.
    destruct (negb (String.eqb (typeof (req w1 !!! "logIn")) "function"));
      [discriminate|].
    unfold bind at 1 in Hrun. cbn [emit] in Hrun.
    match type of Hrun with
    | ?k ?w2 = _ =>
        assert (G : exists evs2, trace (final (k w2)) = trace w2 ++ evs2)
    end.
    { match goal with
      | |- exists evs2, trace (final (?k ?w2)) = _ =>
          assert (Hk : keeps (evolves (fun _ => True) true (fun _ => true)) k)
      end.
      { repeat first
          [ apply keeps_complete; reflexivity
          | apply keeps_emit; reflexivity
          | keeps_step ]. }
      match goal with
      | |- exists evs2, trace (final (?k ?w2)) = _ =>
          destruct (Hk w2) as (_ & _ & evs2 & Ht2 & _)
      end.
      exists evs2. exact Ht2. }
    rewrite Hrun in G. destruct G as (evs2 & Ht2). cbn [final trace] in Ht2.
    exists evs, evs2. split; [|exact Hq].
    rewrite Ht2, Ht, <- !app_assoc. reflexivity.
Qed.

(** ** The claims about the chain *)

(** C1.  Without a callback, a strategy that calls [fail] makes the
    dispatcher ask the next entry of the chain, and a strategy that calls
    [success] ends the chain in the success procedure.

    After a strategy that fails, the next entry that names a strategy is
    the next one asked.  When the first strategy that does not fail calls
    [success] with the identity [U], the entries behind it are never
    asked; the status code is the one the response had, no header is set
    and no body is written, and there is no redirect unless a success
    redirect is configured; and a dispatch that completes has handed [U]
    on: stored on the request under the property name [assignProperty]
    gives, [next()] following, or else passed to [req.logIn], with only
    flash and message steps before.

    For the chain [A, B], where [A] calls [fail("basic", 401)] and [B]
    calls [success] with [U], under options that configure no success
    flash, message, property or redirect, and when login and info
    transformation report no error: both are asked in order, [req.logIn]
    is called with [U], the transformed info is attached unless
    [authInfo] is [false], and [next()] is called; nothing else
    happens. *)
Theorem fail_advances_success_halts :
  (forall STATUS_CODES logIn passport multi l s next s' rest i failures w c st,
      layer_truthy l = true -> resolve passport l = Some s ->
      s (req w) (options w) = Fail c st ->
      layer_truthy next = true -> resolve passport next = Some s' ->
      exists evs,
        trace (final (attempt STATUS_CODES logIn passport multi false
                        (l :: next :: rest) i failures w))
        = trace w ++ [EAuthenticate i; EAuthenticate (S i)] ++ evs)
  /\ (forall STATUS_CODES logIn passport multi pre recorded l s rest w U info,
      Forall2 (fails_with passport w) pre recorded ->
      layer_truthy l = true -> resolve passport l = Some s ->
      s (req w) (options w) = Success U info ->
      let r := attempt STATUS_CODES logIn passport multi false (pre ++ l :: rest) 0 [] w in
      statusCode (final r) = statusCode w
      /\ exists evs,
          trace (final r) = trace w ++ asked 0 (S (length pre)) ++ evs
          /\ forallb (fun e => negb (is_authenticate e)) evs = true
          /\ forallb (fun e => negb (writes_response e)) evs = true
          /\ (truthy (options w !!! "successReturnToOrRedirect") = false ->
              truthy (options w !!! "successRedirect") = false ->
              forallb (fun e => negb (is_redirect e)) evs = true)
          /\ forall w',
              r = Ok tt w' ->
              (forall name,
                  options w !!! "assignProperty" = VStr name ->
                  name <> "" -> name <> "__proto__" ->
                  req w' !!! name = U
                  /\ exists evs0, evs = evs0 ++ [ENext None] /\ forallb notes evs0 = true)
              /\ (truthy (options w !!! "assignProperty") = false ->
                  exists evs1 evs2,
                    evs = evs1 ++ ELogIn U :: evs2 /\ forallb notes evs1 = true))
  /\ (forall STATUS_CODES logIn passport U w,
      let A := Instance (fun _ _ => Fail (VStr "basic") (VNum 401)) in
      let B := Instance (fun _ _ => Success U VUndef) in
      let t := transformAuthInfo passport empty_object (req w) in
      truthy (options w !!! "successFlash") = false ->
      truthy (options w !!! "successMessage") = false ->
      truthy (options w !!! "assignProperty") = false ->
      truthy (options w !!! "successReturnToOrRedirect") = false ->
      truthy (options w !!! "successRedirect") = false ->
      typeof (req w !!! "logIn") = "function" ->
      truthy (logIn U (options w) (req w)) = false ->
      truthy (fst t) = false ->
      handle STATUS_CODES logIn
        (authenticate passport (Many [A; B]) (OptionsObject (options w)) false) w
      = Ok tt
          (if is_not_false (options w !!! "authInfo")
           then World (options w) (<["authInfo" := snd t]> (req w)) (statusCode w)
                  (trace w ++ [EAuthenticate 0; EAuthenticate 1; ELogIn U;
                               ETransformAuthInfo empty_object; ENext None])
           else after w [EAuthenticate 0; EAuthenticate 1; ELogIn U; ENext None])).
Proof.
  split; [|split].
  - intros SC logIn passport multi l s next s' rest i failures w c st Ht Hr Hs Htn Hrn.
    rewrite (attempt_step SC logIn passport multi false l (next :: rest) i failures w s Ht Hr),
      Hs.
    destruct (attempt_asks_first SC logIn passport multi false next s' rest (S i)
                (failures ++ [fail c st]) (after w [EAuthenticate i]) Htn Hrn)
      as (evs & Hevs).
    exists evs. rewrite Hevs. cbn [after trace]. rewrite <- app_assoc. reflexivity.
  - intros SC logIn passport multi pre recorded l s rest w U info Hpre Ht Hr Hs r.
    set (w0 := after w (asked 0 (length pre))).
    assert (Er : r = success logIn passport false U info
                       (after w (asked 0 (S (length pre))))).
    { subst r.
      pose proof (attempt_failing_prefix SC logIn passport multi false w pre recorded Hpre
                    (l :: rest) 0%nat [] []) as E.
      rewrite after_nil in E. rewrite E. cbn [app Nat.add].
      rewrite (attempt_step SC logIn passport multi false l rest (length pre) recorded
                 (after w (asked 0 (length pre))) s Ht Hr).
      cbn [after req options]. rewrite Hs. unfold after. cbn [options req statusCode trace].
      unfold asked. rewrite seq_S, map_app, <- app_assoc. reflexivity. }
    set (ws := after w (asked 0 (S (length pre)))) in *.
    assert (HQ1 : forall e, writes_response e = false -> negb (writes_response e) = true)
      by (intros e ->; reflexivity).
    assert (HQ2 : forall e, is_authenticate e = false -> negb (is_authenticate e) = true)
      by (intros e ->; reflexivity).
    destruct (keeps_success logIn passport (fun _ => True) true
                (fun e => negb (writes_response e)) false U info I HQ1 ws)
      as (_ & Hst & evs & Htr & Hq1).
    destruct (keeps_success_any logIn passport false (fun _ => True) true
                (fun e => negb (is_authenticate e)) U info I HQ2 ws)
      as (_ & _ & evs2 & Htr2 & Hq2).
    rewrite Htr in Htr2. apply app_inv_head in Htr2. subst evs2.
    rewrite Er. split; [apply Hst; reflexivity|].
    exists evs. split; [rewrite Htr; unfold ws; cbn [after trace];
                        rewrite <- app_assoc; reflexivity|].
    split; [exact Hq2|]. split; [exact Hq1|]. split.
    + intros H1 H2.
      destruct (success_without_redirect logIn passport U info ws H1 H2)
        as (_ & _ & evs' & Ht' & Hq').
      rewrite Htr in Ht'. apply app_inv_head in Ht'. subst evs'. exact Hq'.
    + intros w' Hrun. rewrite Hrun in Htr. cbn [final] in Htr.
      destruct (success_carries logIn passport U info ws w' Hrun) as (Hname & Hlog).
      split.
      * intros name Ha Hn _. destruct (Hname name Ha Hn) as (Hreq & evs0 & Ht0 & Hq0).
        split; [exact Hreq|]. exists evs0. split; [|exact Hq0].
        rewrite Htr in Ht0. apply app_inv_head in Ht0. exact Ht0.
      * intros Ha. destruct (Hlog Ha) as (evs1 & evs2 & Ht0 & Hq0).
        exists evs1, evs2. split; [|exact Hq0].
        rewrite Htr in Ht0. apply app_inv_head in Ht0. exact Ht0.
  - intros SC logIn passport U w A B t Hf Hm Ha H1 H2 Hfn Hl Htr.
    subst A B t. unfold handle, authenticate. cbn [m_name m_passport m_multi m_callback].
    cbn [attempt layer_truthy negb resolve]. unfold bind at 1. cbn [emit].
    cbn [req options]. unfold bind at 1. cbn [emit]. cbn [req options].
    unfold success, bind.
    rewrite flash_block_off by exact Hf. rewrite message_block_off by exact Hm.
    unfold opt at 1. cbn [options]. rewrite Ha. unfold read_req at 1. cbn [req].
    rewrite Hfn. cbn [String.eqb Ascii.eqb Bool.eqb negb emit options req statusCode trace].
    rewrite Hl. unfold opt at 1. cbn [options].
    destruct (is_not_false (options w !!! "authInfo")).
    + cbn [emit options req statusCode trace or truthy empty_object].
      rewrite Htr. cbn [write_req options req statusCode trace].
      rewrite complete_plain by assumption. unfold after. cbn [options req statusCode trace].
      rewrite <- !app_assoc. reflexivity.
    + rewrite complete_plain by assumption. unfold after. cbn [options req statusCode trace].
      rewrite <- !app_assoc. reflexivity.
Qed.

Lemma fail_advances_success_halts_witness :
  handle status_text login_ok
    (authenticate bare_passport
       (Many [Instance (fun _ _ => Fail (VStr "basic") (VNum 401));
              Instance (fun _ _ => Success (VStr "U") VUndef)])
       (OptionsObject ∅) false)
    (sample_world ∅)
  = Ok tt (World ∅ (<["authInfo" := empty_object]> sample_req) (VNum 200)
             [EAuthenticate 0; EAuthenticate 1; ELogIn (VStr "U");
              ETransformAuthInfo empty_object; ENext None])
  /\ exists evs,
      trace (final (attempt status_text login_ok bare_passport true false
                      [Instance fails_basic; Instance fails_bearer] 0 [] (sample_world ∅)))
      = [EAuthenticate 0; EAuthenticate 1] ++ evs.
Proof.
  split.
  - change (OptionsObject ∅) with (OptionsObject (options (sample_world ∅))).
    rewrite (proj2 (proj2 fail_advances_success_halts) status_text login_ok bare_passport
               (VStr "U") (sample_world ∅)); reflexivity.
  - apply (proj1 fail_advances_success_halts status_text login_ok bare_passport true
             (Instance fails_basic) fails_basic (Instance fails_bearer) fails_bearer []
             0%nat [] (sample_world ∅) (VStr "basic") (VNum 401)); reflexivity.
Defined.

(** C4.  For every number [n], a strategy that calls [fail(n)] and one
    that calls [fail(undefined, n)] leave the dispatcher in the same state.
    The record pushed has no challenge and the status [n]; whatever
    follows in the chain, the two dispatches are the same; when every
    other strategy of the chain fails too, the callback receives that
    record at the place of the strategy, among those of the others; and
    the entry after the strategy is the next one asked. *)
Theorem fail_number_is_status STATUS_CODES logIn passport
    (pre post : list layer) (before behind : list failure)
    (l1 l2 : layer) (s1 s2 : strategy) w (n : Z) :
  Forall2 (fails_with passport w) pre before ->
  Forall2 (fails_with passport w) post behind ->
  layer_truthy l1 = true -> resolve passport l1 = Some s1 ->
  layer_truthy l2 = true -> resolve passport l2 = Some s2 ->
  s1 (req w) (options w) = Fail (VNum n) VUndef ->
  s2 (req w) (options w) = Fail VUndef (VNum n) ->
  let record := Failure VUndef (VNum n) in
  let records := before ++ record :: behind in
  fail (VNum n) VUndef = record
  /\ fail VUndef (VNum n) = record
  /\ (forall multi callback rest,
        attempt STATUS_CODES logIn passport multi callback (pre ++ l1 :: rest) 0 [] w
        = attempt STATUS_CODES logIn passport multi callback (pre ++ l2 :: rest) 0 [] w)
  /\ (forall l,
        l = l1 \/ l = l2 ->
        handle STATUS_CODES logIn
          (authenticate passport (Many (pre ++ l :: post)) (OptionsObject (options w)) true) w
        = Ok tt (after w (asked 0 (length (pre ++ l :: post)) ++
                          [ECallback [VNull; VBool false;
                                      array (map challenge records);
                                      array (map status records)]])))
  /\ (forall multi callback l next s' rest,
        l = l1 \/ l = l2 ->
        layer_truthy next = true -> resolve passport next = Some s' ->
        exists evs,
          trace (final (attempt STATUS_CODES logIn passport multi callback
                          (pre ++ l :: next :: rest) 0 [] w))
          = trace w ++ asked 0 (length pre)
              ++ [EAuthenticate (length pre); EAuthenticate (S (length pre))] ++ evs).
Proof.
  intros Hpre Hpost Ht1 Hr1 Ht2 Hr2 Hs1 Hs2 record records.
  assert (F1 : fails_with passport w l1 record)
    by (apply (fails_with_number passport w l1 s1 n VUndef); auto).
  assert (F2 : fails_with passport w l2 record)
    by (apply (fails_with_number passport w l2 s2 n VUndef); auto).
  assert (Step : forall multi callback l rest,
            l = l1 \/ l = l2 ->
            attempt STATUS_CODES logIn passport multi callback (pre ++ l :: rest) 0 [] w
            = attempt STATUS_CODES logIn passport multi callback rest (S (length pre))
                (before ++ [record]) (after w (asked 0 (S (length pre))))).
  { intros multi callback l rest Hl.
    assert (Hall : Forall2 (fails_with passport w) (pre ++ [l]) (before ++ [record])).
    { apply Forall2_app; [exact Hpre|]. constructor; [|constructor].
      destruct Hl as [-> | ->]; assumption. }
    pose proof (attempt_failing_prefix STATUS_CODES logIn passport multi callback w
                  (pre ++ [l]) (before ++ [record]) Hall rest 0%nat [] []) as E.
    rewrite after_nil, <- app_assoc in E. cbn [app] in E. rewrite E.
    rewrite length_app. cbn [length app Nat.add].
    replace (length pre + 1)%nat with (S (length pre)) by lia. reflexivity. }
  split; [reflexivity|]. split; [reflexivity|]. split; [|split].
  - intros multi callback rest. rewrite !Step by auto. reflexivity.
  - intros l Hl. unfold handle, authenticate. cbn [m_name m_passport m_multi m_callback].
    assert (Hall : Forall2 (fails_with passport w) (pre ++ l :: post) records).
    { apply Forall2_app; [exact Hpre|]. constructor; [|exact Hpost].
      destruct Hl as [-> | ->]; assumption. }
    rewrite (attempt_all_fail STATUS_CODES logIn passport true true w _ _ Hall).
    unfold allFailed. cbn [negb]. unfold emit, after. cbn [options req statusCode trace].
    rewrite <- app_assoc. reflexivity.
  - intros multi callback l next s' rest Hl Htn Hrn.
    rewrite Step by exact Hl.
    destruct (attempt_asks_first STATUS_CODES logIn passport multi callback next s' rest
                (S (length pre)) (before ++ [record]) (after w (asked 0 (S (length pre))))
                Htn Hrn) as (evs & Hevs).
    exists evs. rewrite Hevs. cbn [after trace]. unfold asked.
    rewrite seq_S, map_app, <- !app_assoc. reflexivity.
Qed.

Lemma fail_number_is_status_witness :
  handle status_text login_ok
    (authenticate bare_passport
       (Many [Instance fails_basic; Instance (fails_number 403); Instance fails_bearer])
       (OptionsObject ∅) true)
    (sample_world ∅)
  = Ok tt (after (sample_world ∅)
             [EAuthenticate 0; EAuthenticate 1; EAuthenticate 2;
              ECallback [VNull; VBool false;
                         array [VStr "basic"; VUndef; VStr "bearer"];
                         array [VNum 401; VNum 403; VNum 401]]]).
Proof.
  destruct (fail_number_is_status status_text login_ok bare_passport
              [Instance fails_basic] [Instance fails_bearer]
              [Failure (VStr "basic") (VNum 401)] [Failure (VStr "bearer") (VNum 401)]
              (Instance (fails_number 403)) (Instance (fails_status 403))
              (fails_number 403) (fails_status 403) (sample_world ∅) 403)
    as (_ & _ & _ & H & _);
    [repeat econstructor | repeat econstructor
    | reflexivity | reflexivity | reflexivity | reflexivity | reflexivity | reflexivity |].
  exact (H (Instance (fails_number 403)) (or_introl eq_refl)).
Defined.

(** X24.  When the dispatcher reaches a non-empty name that the
    registry does not resolve, after any number of strategies that failed,
    the dispatch ends there with the "unknown strategy" error handed to
    [next]: the world is the one reached, with that single event added, so
    that nothing is recorded for the name, no later entry is asked and the
    all-failed procedure does not run. *)
Theorem unknown_strategy_is_fatal STATUS_CODES logIn passport multi callback
    (pre : list layer) (recorded : list failure) (n : string) (rest : list layer) w :
  Forall2 (fails_with passport w) pre recorded ->
  n <> "" ->
  _strategy passport n = None ->
  attempt STATUS_CODES logIn passport multi callback (pre ++ Name n :: rest) 0 [] w
  = Ok tt (after w (asked 0 (length pre) ++ [ENext (Some (unknown_strategy n))])).
Proof.
  intros Hpre Hn Hreg.
  pose proof (attempt_failing_prefix STATUS_CODES logIn passport multi callback w pre recorded
                Hpre (Name n :: rest) 0%nat [] []) as E.
  rewrite after_nil in E. rewrite E. simpl.
  apply String.eqb_neq in Hn. rewrite Hn, Hreg. simpl.
  unfold emit, after. simpl. rewrite <- app_assoc. reflexivity.
Qed.

Lemma unknown_strategy_is_fatal_witness :
  attempt status_text login_ok bare_passport true false
    ([Instance fails_basic] ++ Name "digest" :: [Instance (succeeds (VStr "U"))]) 0 []
    (sample_world ∅)
  = Ok tt (after (sample_world ∅)
             (asked 0 1 ++ [ENext (Some (unknown_strategy "digest"))])).
Proof.
  apply (unknown_strategy_is_fatal status_text login_ok bare_passport true false
           [Instance fails_basic] [Failure (VStr "basic") (VNum 401)] "digest"
           [Instance (succeeds (VStr "U"))] (sample_world ∅)).
  - repeat constructor. exists fails_basic, (VStr "basic"), (VNum 401).
    repeat split; reflexivity.
  - discriminate.
  - reflexivity.
Defined.

(** C5.  The chain [['', B]], where the registry holds nothing under the
    empty name and [B] would succeed: the dispatcher tests the entry for
    truthiness before it looks the name up, takes the empty name for the
    end of the chain and runs the all-failed procedure.  The response is
    [401 Unauthorized]; no "unknown strategy" error reaches [next], and
    [B], which is still in the chain, is never asked. *)
Lemma empty_name_ends_chain :
  _strategy bare_passport "" = None
  /\ handle status_text login_ok
       (authenticate bare_passport (Many [Name ""; Instance (succeeds (VStr "U"))])
          (OptionsObject ∅) false)
       (sample_world ∅)
     = Ok tt (World ∅ sample_req (VNum 401) [EEnd (Some (VStr "Unauthorized"))]).
Proof. split; reflexivity. Qed.

(** ** The all-failed procedure *)

(** What [allFailed] does by default, once the flash and message blocks
    have completed and no failure redirect is configured. *)
Lemma allFailed_default STATUS_CODES multi failures w w1 :
  (flash_block "failureFlash" "error" (presented_challenge failures);;
   message_block "failureMessage" (presented_challenge failures)) w = Ok tt w1 ->
  truthy (options w1 !!! "failureRedirect") = false ->
  allFailed STATUS_CODES multi false failures w
  = Ok tt (World (options w1) (req w1) (first_status failures)
             (trace w1 ++ challenge_header failures ++
              [if truthy (options w1 !!! "failWithError")
               then ENext (Some (ErrAuthentication (STATUS_CODES (first_status failures))
                                   (fst (collect failures))))
               else EEnd (Some (STATUS_CODES (first_status failures)))])).
Proof.
  intros Hb Hr. unfold allFailed. fold (presented_challenge failures).
  unfold bind in *.
  destruct (flash_block "failureFlash" "error" (presented_challenge failures) w)
    as [[] wa|]; [|discriminate].
  destruct (message_block "failureMessage" (presented_challenge failures) wa)
    as [[] wb|]; [|discriminate].
  injection Hb as ->.
  unfold opt at 1. rewrite Hr.
  unfold write_statusCode, read_statusCode, opt, challenge_header. simpl.
  rewrite collect_status, collect_challenges.
  destruct (is_401 (first_status failures)
            && negb (length (string_challenges failures) =? 0)%nat); simpl;
    destruct (truthy (options w1 !!! "failWithError")); simpl;
    unfold emit; simpl; rewrite <- ?app_assoc; reflexivity.
Qed.

Lemma blocks_evolve failures w w1 :
  (flash_block "failureFlash" "error" (presented_challenge failures);;
   message_block "failureMessage" (presented_challenge failures)) w = Ok tt w1 ->
  evolves (fun k => k = "failureFlash") true
    (fun e => negb (sets_challenge_header e)) w w1.
Proof.
  intros Hb.
  assert (Hk : keeps (evolves (fun k => k = "failureFlash") true
                        (fun e => negb (sets_challenge_header e)))
                 (flash_block "failureFlash" "error" (presented_challenge failures);;
                  message_block "failureMessage" (presented_challenge failures))).
  { apply keeps_bind; [apply keeps_flash_block | intros _; apply keeps_message_block];
      reflexivity. }
  specialize (Hk w). rewrite Hb in Hk. exact Hk.
Qed.

Lemma asked_no_header i n v : ~ In (ESetHeader "WWW-Authenticate" v) (asked i n).
Proof.
  unfold asked. rewrite in_map_iff. intros (j & Hj & _). discriminate.
Qed.

Lemma quiet_no_header evs v :
  forallb (fun e => negb (sets_challenge_header e)) evs = true ->
  ~ In (ESetHeader "WWW-Authenticate" v) evs.
Proof.
  intros Hq Hin. rewrite forallb_forall in Hq. apply Hq in Hin. discriminate.
Qed.

(** C2.  Without a callback, when every strategy of the chain fails, no
    failure redirect is configured and the flash and message blocks
    complete, the dispatch completes, the status code of the response is
    the first truthy status among the failure records, 401 when there is
    none, and a [WWW-Authenticate] header is set exactly when that status
    is 401 and some challenge is a string; its value is then the list of
    the string challenges, in the order they were recorded. *)
Theorem default_failure_response STATUS_CODES logIn passport multi
    (chain : list layer) (failures : list failure) (w w1 : world) :
  Forall2 (fails_with passport w) chain failures ->
  (flash_block "failureFlash" "error" (presented_challenge failures);;
   message_block "failureMessage" (presented_challenge failures))
    (after w (asked 0 (length chain))) = Ok tt w1 ->
  truthy (options w !!! "failureRedirect") = false ->
  exists w',
    attempt STATUS_CODES logIn passport multi false chain 0 [] w = Ok tt w'
    /\ statusCode w' = first_status failures
    /\ exists evs,
        trace w' = trace w ++ evs
        /\ forall v,
            In (ESetHeader "WWW-Authenticate" v) evs
            <-> (first_status failures = VNum 401
                 /\ string_challenges failures <> []
                 /\ v = array (string_challenges failures)).
Proof.
  intros Hall Hb Hr.
  destruct (blocks_evolve failures _ w1 Hb) as (Ho & _ & evs & Ht & Hq).
  assert (Hr1 : truthy (options w1 !!! "failureRedirect") = false).
  { assert (E : options w1 !!! "failureRedirect" = options w !!! "failureRedirect")
      by (rewrite !lookup_total_alt; f_equal; apply Ho; discriminate).
    rewrite E. exact Hr. }
  rewrite (attempt_all_fail STATUS_CODES logIn passport multi false w chain failures Hall).
  rewrite (allFailed_default STATUS_CODES multi failures _ w1 Hb Hr1).
  eexists. split; [reflexivity|]. split; [reflexivity|].
  simpl in Ht. simpl. rewrite Ht.
  eexists. split; [rewrite <- !app_assoc; reflexivity|].
  intros v. rewrite !in_app_iff. split.
  - intros [H|[H|[H|H]]].
    + exfalso. exact (asked_no_header _ _ _ H).
    + exfalso. exact (quiet_no_header _ _ Hq H).
    + unfold challenge_header in H.
      destruct (is_401 (first_status failures)) eqn:H401; simpl in H; [|contradiction].
      destruct (string_challenges failures) as [|c cs] eqn:Hc; simpl in H; [contradiction|].
      destruct H as [H|[]]. injection H as <-.
      apply is_401_spec in H401. repeat split; [exact H401 | discriminate].
    + exfalso. destruct (truthy (options w1 !!! "failWithError"));
        destruct H as [H|[]]; discriminate.
  - intros (H401 & Hne & ->). right. right. left.
    unfold challenge_header. apply is_401_spec in H401. rewrite H401.
    destruct (string_challenges failures); [contradiction|]. left. reflexivity.
Qed.

Lemma default_failure_response_witness :
  exists w',
    attempt status_text login_ok bare_passport true false
      [Instance fails_object; Instance fails_basic; Instance fails_bearer] 0 []
      (sample_world {[ "failureFlash" := VBool true ]}) = Ok tt w'
    /\ statusCode w' = VNum 403.
Proof.
  destruct (default_failure_response status_text login_ok bare_passport true
              [Instance fails_object; Instance fails_basic; Instance fails_bearer]
              [Failure (VObj {[ "type" := VStr "x" ]}) (VNum 403);
               Failure (VStr "basic") (VNum 401);
               Failure (VStr "bearer") (VNum 401)]
              (sample_world {[ "failureFlash" := VBool true ]})
              (after (sample_world {[ "failureFlash" := VBool true ]}) (asked 0 3)))
    as (w' & Hrun & Hst & _).
  - repeat constructor.
    + exists fails_object, (VObj {[ "type" := VStr "x" ]}), (VNum 403).
      repeat split; reflexivity.
    + exists fails_basic, (VStr "basic"), (VNum 401). repeat split; reflexivity.
    + exists fails_bearer, (VStr "bearer"), (VNum 401). repeat split; reflexivity.
  - reflexivity.
  - reflexivity.
  - exists w'. split; [exact Hrun | exact Hst].
Defined.

Lemma blocks_off failures w :
  truthy (options w !!! "failureFlash") = false ->
  truthy (options w !!! "failureMessage") = false ->
  (flash_block "failureFlash" "error" (presented_challenge failures);;
   message_block "failureMessage" (presented_challenge failures)) w = Ok tt w.
Proof.
  intros Hf Hm. unfold bind.
  rewrite flash_block_off by exact Hf. apply message_block_off, Hm.
Qed.

(** C3 (amended).  For the chain [A, B] without a callback and with no
    failure flash, message, redirect or failWithError option, where [A]
    calls [fail({type: "x"}, 403)] and [B] calls [fail("bearer", 401)], the
    status code of the response is 403 and the list of challenges
    collected for the header is ["bearer"], the object challenge left out;
    the status not being 401, that list is not set as a header: the
    dispatch asks the two strategies and ends the response, and does
    nothing else. *)
Theorem object_challenge_status_403 STATUS_CODES logIn passport (w : world) :
  truthy (options w !!! "failureFlash") = false ->
  truthy (options w !!! "failureMessage") = false ->
  truthy (options w !!! "failureRedirect") = false ->
  truthy (options w !!! "failWithError") = false ->
  let A := Instance (fun _ _ => Fail (VObj {[ "type" := VStr "x" ]}) (VNum 403)) in
  let B := Instance (fun _ _ => Fail (VStr "bearer") (VNum 401)) in
  handle STATUS_CODES logIn
    (authenticate passport (Many [A; B]) (OptionsObject (options w)) false) w
  = Ok tt (World (options w) (req w) (VNum 403)
             (trace w ++ [EAuthenticate 0; EAuthenticate 1;
                          EEnd (Some (STATUS_CODES (VNum 403)))]))
  /\ snd (collect [fail (VObj {[ "type" := VStr "x" ]}) (VNum 403);
                   fail (VStr "bearer") (VNum 401)])
     = [VStr "bearer"].
Proof.
  intros Hf Hm Hr He A B. split; [|reflexivity].
  unfold handle, authenticate. simpl m_name. simpl m_passport. simpl m_multi. simpl m_callback.
  rewrite (attempt_all_fail STATUS_CODES logIn passport true false w [A; B]
             [Failure (VObj {[ "type" := VStr "x" ]}) (VNum 403);
              Failure (VStr "bearer") (VNum 401)]).
  2: { repeat constructor; eexists _, _, _; repeat split; reflexivity. }
  rewrite (allFailed_default STATUS_CODES true _ _ (after w (asked 0 2))).
  - simpl. rewrite He. rewrite <- app_assoc. reflexivity.
  - apply blocks_off; [exact Hf | exact Hm].
  - exact Hr.
Qed.

Lemma object_challenge_status_403_witness :
  handle status_text login_ok
    (authenticate bare_passport
       (Many [Instance (fun _ _ => Fail (VObj {[ "type" := VStr "x" ]}) (VNum 403));
              Instance (fun _ _ => Fail (VStr "bearer") (VNum 401))])
       (OptionsObject (options (sample_world ∅))) false) (sample_world ∅)
  = Ok tt (World ∅ sample_req (VNum 403)
             [EAuthenticate 0; EAuthenticate 1; EEnd (Some (VStr "Forbidden"))]).
Proof.
  destruct (object_challenge_status_403 status_text login_ok bare_passport (sample_world ∅))
    as [H _]; [reflexivity | reflexivity | reflexivity | reflexivity | exact H].
Defined.

(** C3, as stated, fails: in that dispatch the response gets no challenge
    header at all, hence none that would list "bearer". *)
Lemma no_challenge_header_on_403 :
  ~ exists v,
      In (ESetHeader "WWW-Authenticate" v)
        (trace (final (handle status_text login_ok
                         (authenticate bare_passport
                            (Many [Instance fails_object; Instance fails_bearer])
                            (OptionsObject ∅) false)
                         (sample_world ∅)))).
Proof.
  intros (v & H). simpl in H.
  destruct H as [H|[H|[H|[]]]]; discriminate.
Qed.

(** C6 (amended).  Without a callback, a chain whose only strategy calls
    [fail()] is resolved, once that strategy has been asked, exactly as the
    empty chain is: both run the all-failed procedure, which acts on the
    one blank failure record as it does on none.  With no failure flash,
    message or redirect configured, the status code is 401 in both
    cases. *)
Theorem empty_chain_is_blank_failure STATUS_CODES logIn passport multi
    (s : strategy) (w : world) :
  s (req w) (options w) = Fail VUndef VUndef ->
  attempt STATUS_CODES logIn passport multi false [Instance s] 0 [] w
  = attempt STATUS_CODES logIn passport multi false [] 0 [] (after w [EAuthenticate 0])
  /\ attempt STATUS_CODES logIn passport multi false [] 0 [] w
     = allFailed STATUS_CODES multi false [] w
  /\ (forall w', allFailed STATUS_CODES multi false [Failure VUndef VUndef] w'
                 = allFailed STATUS_CODES multi false [] w')
  /\ (truthy (options w !!! "failureFlash") = false ->
      truthy (options w !!! "failureMessage") = false ->
      truthy (options w !!! "failureRedirect") = false ->
      statusCode (final (attempt STATUS_CODES logIn passport multi false [] 0 [] w)) = VNum 401
      /\ statusCode (final (attempt STATUS_CODES logIn passport multi false [Instance s] 0 [] w))
         = VNum 401).
Proof.
  intros Hs.
  assert (Hblank : forall w', allFailed STATUS_CODES multi false [Failure VUndef VUndef] w'
                              = allFailed STATUS_CODES multi false [] w')
    by (intros w'; reflexivity).
  assert (Hone : attempt STATUS_CODES logIn passport multi false [Instance s] 0 [] w
                 = attempt STATUS_CODES logIn passport multi false [] 0 []
                     (after w [EAuthenticate 0])).
  { rewrite (attempt_step STATUS_CODES logIn passport multi false (Instance s) [] 0%nat [] w s
               eq_refl eq_refl), Hs.
    simpl. apply Hblank. }
  split; [exact Hone|]. split; [reflexivity|]. split; [exact Hblank|].
  intros Hf Hm Hr. rewrite Hone. cbn [attempt].
  rewrite (allFailed_default STATUS_CODES multi [] w w)
    by (try apply blocks_off; assumption).
  rewrite (allFailed_default STATUS_CODES multi [] (after w [EAuthenticate 0])
             (after w [EAuthenticate 0]))
    by (try apply blocks_off; assumption).
  split; reflexivity.
Qed.

Lemma empty_chain_is_blank_failure_witness :
  statusCode (final (attempt status_text login_ok bare_passport true false [] 0 []
                       (sample_world ∅))) = VNum 401
  /\ statusCode (final (attempt status_text login_ok bare_passport true false
                          [Instance fails_plain] 0 [] (sample_world ∅))) = VNum 401.
Proof.
  destruct (empty_chain_is_blank_failure status_text login_ok bare_passport true fails_plain
              (sample_world ∅)) as (_ & _ & _ & H); [reflexivity|].
  apply H; reflexivity.
Defined.

(** C6, as stated, fails with a callback: the empty chain hands it empty
    lists of challenges and statuses, the chain of one failing strategy
    hands it lists of one element. *)
Lemma callback_sees_the_blank_failure :
  handle status_text login_ok
    (authenticate bare_passport (Many []) (OptionsObject ∅) true) (sample_world ∅)
  = Ok tt (after (sample_world ∅)
             [ECallback [VNull; VBool false; array []; array []]])
  /\ handle status_text login_ok
       (authenticate bare_passport (Many [Instance fails_plain]) (OptionsObject ∅) true)
       (sample_world ∅)
     = Ok tt (after (sample_world ∅)
                [EAuthenticate 0;
                 ECallback [VNull; VBool false; array [VUndef]; array [VUndef]]]).
Proof. split; reflexivity. Qed.


(** ** The success procedure *)

Lemma redirect_events_shape session url :
  exists pre,
    redirect_events session url = pre ++ [EResRedirect url]
    /\ forallb (fun e => negb (is_redirect e)) pre = true.
Proof.
  unfold redirect_events.
  destruct (truthy session && truthy (prop session "save")
            && String.eqb (typeof (prop session "save")) "function").
  - exists [ESessionSave]. split; reflexivity.
  - exists []. split; reflexivity.
Qed.

(** [complete] when [successReturnToOrRedirect] is configured. *)
Lemma complete_run w :
  truthy (options w !!! "successReturnToOrRedirect") = true ->
  complete w
  = Ok tt
      (if truthy (req w !!! "session") && truthy (prop (req w !!! "session") "returnTo")
       then after (World (options w)
                     (<["session" := delete_prop (req w !!! "session") "returnTo"]> (req w))
                     (statusCode w) (trace w))
              (redirect_events (delete_prop (req w !!! "session") "returnTo")
                 (prop (req w !!! "session") "returnTo"))
       else after w (redirect_events (req w !!! "session")
                       (options w !!! "successReturnToOrRedirect"))).
Proof.
  intros H. unfold complete, bind, opt. rewrite H. unfold read_req.
  destruct (truthy (req w !!! "session") && truthy (prop (req w !!! "session") "returnTo"));
    simpl; rewrite redirect_run; simpl; rewrite ?lookup_total_insert_eq; reflexivity.
Qed.

(** [success] up to [complete], when login and info transformation go
    through and neither a flash, a message nor a property assignment is
    configured. *)
Lemma success_run logIn passport user info w :
  (forall u o r, truthy (logIn u o r) = false) ->
  (forall i r, truthy (fst (transformAuthInfo passport i r)) = false) ->
  truthy (options w !!! "successFlash") = false ->
  truthy (options w !!! "successMessage") = false ->
  truthy (options w !!! "assignProperty") = false ->
  typeof (req w !!! "logIn") = "function" ->
  success logIn passport false user info w
  = complete
      (if is_not_false (options w !!! "authInfo")
       then World (options w)
              (<["authInfo" := snd (transformAuthInfo passport (or info empty_object) (req w))]>
                 (req w))
              (statusCode w)
              (trace w ++ [ELogIn user; ETransformAuthInfo (or info empty_object)])
       else after w [ELogIn user]).
Proof.
  intros Hl Ht Hf Hm Ha Hfn. unfold success, bind.
  rewrite flash_block_off by exact Hf. rewrite message_block_off by exact Hm.
  unfold opt at 1. rewrite Ha. unfold read_req at 1. rewrite Hfn. simpl.
  rewrite Hl. simpl.
  destruct (is_not_false (options w !!! "authInfo")); [|reflexivity].
  simpl. rewrite Ht. simpl. rewrite <- app_assoc. reflexivity.
Qed.

(** One successful dispatch of a single strategy under
    [successReturnToOrRedirect]. *)
Lemma returning_success STATUS_CODES logIn passport user info w :
  (forall u o r, truthy (logIn u o r) = false) ->
  (forall i r, truthy (fst (transformAuthInfo passport i r)) = false) ->
  truthy (options w !!! "successFlash") = false ->
  truthy (options w !!! "successMessage") = false ->
  truthy (options w !!! "assignProperty") = false ->
  truthy (options w !!! "successReturnToOrRedirect") = true ->
  typeof (req w !!! "logIn") = "function" ->
  exists w' evs,
    handle STATUS_CODES logIn
      (authenticate passport (Single (Instance (fun _ _ => Success user info)))
         (OptionsObject (options w)) false) w = Ok tt w'
    /\ options w' = options w
    /\ req w' !!! "logIn" = req w !!! "logIn"
    /\ forallb (fun e => negb (is_redirect e)) evs = true
    /\ if truthy (req w !!! "session") && truthy (prop (req w !!! "session") "returnTo")
       then trace w' = trace w ++ evs ++ [EResRedirect (prop (req w !!! "session") "returnTo")]
            /\ req w' !!! "session" = delete_prop (req w !!! "session") "returnTo"
       else trace w' = trace w ++ evs
                       ++ [EResRedirect (options w !!! "successReturnToOrRedirect")]
            /\ req w' !!! "session" = req w !!! "session".
Proof.
  intros Hl Ht Hf Hm Ha Hr Hfn.
  unfold handle, authenticate. simpl m_name. simpl m_passport. simpl m_multi. simpl m_callback.
  rewrite (attempt_step STATUS_CODES logIn passport false false
             (Instance (fun _ _ => Success user info)) [] 0%nat [] w
             (fun _ _ => Success user info) eq_refl eq_refl).
  rewrite success_run by assumption. simpl options.
  destruct (is_not_false (options w !!! "authInfo")).
  - rewrite complete_run by exact Hr. simpl options. simpl req.
    rewrite (lookup_total_insert_ne (req w) "authInfo" "session") by discriminate.
    destruct (truthy (req w !!! "session") && truthy (prop (req w !!! "session") "returnTo")).
    + destruct (redirect_events_shape (delete_prop (req w !!! "session") "returnTo")
                  (prop (req w !!! "session") "returnTo")) as (pre & -> & Hpre).
      eexists _, ([EAuthenticate 0; ELogIn user; ETransformAuthInfo (or info empty_object)] ++ pre).
      split; [reflexivity|]. simpl. rewrite Hpre.
      repeat split.
      * rewrite lookup_total_insert_ne by discriminate.
        rewrite lookup_total_insert_ne by discriminate. reflexivity.
      * rewrite <- !app_assoc. reflexivity.
      * rewrite lookup_total_insert_eq. reflexivity.
    + destruct (redirect_events_shape (req w !!! "session")
                  (options w !!! "successReturnToOrRedirect")) as (pre & -> & Hpre).
      eexists _, ([EAuthenticate 0; ELogIn user; ETransformAuthInfo (or info empty_object)] ++ pre).
      split; [reflexivity|]. simpl. rewrite Hpre.
      repeat split.
      * rewrite lookup_total_insert_ne by discriminate. reflexivity.
      * rewrite <- !app_assoc. reflexivity.
      * rewrite lookup_total_insert_ne by discriminate. reflexivity.
  - rewrite complete_run by exact Hr. simpl options. simpl req.
    destruct (truthy (req w !!! "session") && truthy (prop (req w !!! "session") "returnTo")).
    + destruct (redirect_events_shape (delete_prop (req w !!! "session") "returnTo")
                  (prop (req w !!! "session") "returnTo")) as (pre & -> & Hpre).
      eexists _, ([EAuthenticate 0; ELogIn user] ++ pre).
      split; [reflexivity|]. simpl. rewrite Hpre.
      repeat split.
      * rewrite lookup_total_insert_ne by discriminate. reflexivity.
      * rewrite <- !app_assoc. reflexivity.
      * rewrite lookup_total_insert_eq. reflexivity.
    + destruct (redirect_events_shape (req w !!! "session")
                  (options w !!! "successReturnToOrRedirect")) as (pre & -> & Hpre).
      eexists _, ([EAuthenticate 0; ELogIn user] ++ pre).
      split; [reflexivity|]. simpl. rewrite Hpre.
      repeat split.
      rewrite <- !app_assoc. reflexivity.
Qed.

Lemma prop_delete_prop v p : prop (delete_prop v p) p = VUndef.
Proof.
  destruct v; simpl; try reflexivity; rewrite lookup_total_delete_eq; reflexivity.
Qed.

Lemma truthy_has_prop v p s : prop v p = VStr s -> s <> "" -> truthy v = true.
Proof.
  destruct v; simpl; try reflexivity; intros [= <-]; contradiction.
Qed.

(** C7 (amended).  For a successful authentication without a callback,
    with [successReturnToOrRedirect] configured and the session holding
    [returnTo = "/dash"], the dispatcher redirects to "/dash" and deletes
    [returnTo] from the session; a second identical success, the session
    now holding no [returnTo], redirects to the configured URL. *)
Theorem success_returns_to STATUS_CODES logIn passport (user info : value)
    (w : world) (session configured : value) :
  (forall u o r, truthy (logIn u o r) = false) ->
  (forall i r, truthy (fst (transformAuthInfo passport i r)) = false) ->
  truthy (options w !!! "successFlash") = false ->
  truthy (options w !!! "successMessage") = false ->
  truthy (options w !!! "assignProperty") = false ->
  options w !!! "successReturnToOrRedirect" = configured ->
  truthy configured = true ->
  typeof (req w !!! "logIn") = "function" ->
  req w !!! "session" = session ->
  prop session "returnTo" = VStr "/dash" ->
  let m := authenticate passport (Single (Instance (fun _ _ => Success user info)))
             (OptionsObject (options w)) false in
  exists w1 w2 evs1 evs2,
    handle STATUS_CODES logIn m w = Ok tt w1
    /\ trace w1 = trace w ++ evs1 ++ [EResRedirect (VStr "/dash")]
    /\ forallb (fun e => negb (is_redirect e)) evs1 = true
    /\ req w1 !!! "session" = delete_prop session "returnTo"
    /\ prop (req w1 !!! "session") "returnTo" = VUndef
    /\ handle STATUS_CODES logIn m w1 = Ok tt w2
    /\ trace w2 = trace w1 ++ evs2 ++ [EResRedirect configured]
    /\ forallb (fun e => negb (is_redirect e)) evs2 = true.
Proof.
  intros Hl Ht Hf Hm Ha Hc Hct Hfn Hs Hrt m.
  assert (Hr : truthy (options w !!! "successReturnToOrRedirect") = true)
    by (rewrite Hc; exact Hct).
  destruct (returning_success STATUS_CODES logIn passport user info w Hl Ht Hf Hm Ha Hr Hfn)
    as (w1 & evs1 & Hrun1 & Ho1 & Hl1 & Hq1 & Hcase1).
  rewrite Hs, Hrt in Hcase1.
  rewrite (truthy_has_prop session "returnTo" "/dash" Hrt) in Hcase1 by discriminate.
  simpl in Hcase1. destruct Hcase1 as (Htr1 & Hse1).
  assert (Hrt1 : prop (req w1 !!! "session") "returnTo" = VUndef)
    by (rewrite Hse1; apply prop_delete_prop).
  destruct (returning_success STATUS_CODES logIn passport user info w1)
    as (w2 & evs2 & Hrun2 & Ho2 & Hl2 & Hq2 & Hcase2);
    try assumption; try (rewrite Ho1; assumption); try (rewrite Hl1; assumption).
  rewrite Hrt1 in Hcase2. rewrite andb_false_r in Hcase2.
  destruct Hcase2 as (Htr2 & _). rewrite Ho1, Hc in Htr2.
  exists w1, w2, evs1, evs2. subst m.
  rewrite Ho1 in Hrun2.
  repeat split; assumption.
Qed.

Lemma success_returns_to_witness :
  exists w1 w2,
    handle status_text login_ok
      (authenticate bare_passport (Single (Instance (succeeds (VStr "U"))))
         (OptionsObject {[ "successReturnToOrRedirect" := VStr "/home" ]}) false)
      (sample_world {[ "successReturnToOrRedirect" := VStr "/home" ]}) = Ok tt w1
    /\ prop (req w1 !!! "session") "returnTo" = VUndef
    /\ handle status_text login_ok
         (authenticate bare_passport (Single (Instance (succeeds (VStr "U"))))
            (OptionsObject {[ "successReturnToOrRedirect" := VStr "/home" ]}) false)
         w1 = Ok tt w2.
Proof.
  destruct (success_returns_to status_text login_ok bare_passport (VStr "U") VUndef
              (sample_world {[ "successReturnToOrRedirect" := VStr "/home" ]})
              (VObj {[ "returnTo" := VStr "/dash" ]}) (VStr "/home"))
    as (w1 & w2 & _ & _ & H1 & _ & _ & _ & H2 & H3 & _); try reflexivity.
  exists w1, w2. split; [exact H1|]. split; [exact H2 | exact H3].
Defined.

(** C7, as stated, fails: with [successRedirect] configured, a pending
    [returnTo] is neither used nor deleted; the redirect goes to the
    configured URL. *)
Lemma successRedirect_ignores_returnTo :
  let w' := final (handle status_text login_ok
                     (authenticate bare_passport (Single (Instance (succeeds (VStr "U"))))
                        (OptionsObject {[ "successRedirect" := VStr "/home" ]}) false)
                     (sample_world {[ "successRedirect" := VStr "/home" ]})) in
  trace w' = [EAuthenticate 0; ELogIn (VStr "U"); ETransformAuthInfo empty_object;
              EResRedirect (VStr "/home")]
  /\ prop (req w' !!! "session") "returnTo" = VStr "/dash".
Proof. split; reflexivity. Qed.

(** *** The dispatch as a whole, and its success and failure paths *)

(** A step that asks no strategy adds only other events. *)
Lemma asks_nothing (m : M world unit) (i : nat) (w : world) :
  keeps (evolves (fun _ => True) false (fun e => negb (is_authenticate e))) m ->
  exists evs,
    trace (final (m w)) = trace w ++ asked i 0 ++ evs
    /\ forallb (fun e => negb (is_authenticate e)) evs = true.
Proof.
  intros Hm. destruct (Hm w) as (_ & _ & evs & Ht & Hq). exists evs. split; assumption.
Qed.

(** X6. Whatever the chain holds, a dispatch asks a prefix of it, in
    order and each entry at most once: the events added to the trace are
    [strategy.authenticate] for the entries [i], [i+1], ..., [i+k-1],
    followed by events that are no such call. *)
Theorem strategies_asked_in_order STATUS_CODES logIn passport multi callback
    (chain : list layer) (i : nat) (failures : list failure) (w : world) :
  exists k evs,
    (k <= length chain)%nat
    /\ trace (final (attempt STATUS_CODES logIn passport multi callback chain i failures w))
       = trace w ++ asked i k ++ evs
    /\ forallb (fun e => negb (is_authenticate e)) evs = true.
Proof.
  assert (HQ : forall e, is_authenticate e = false -> negb (is_authenticate e) = true)
    by (intros e ->; reflexivity).
  revert i failures w. induction chain as [|l rest IH]; intros i failures w.
  - exists 0%nat.
    destruct (asks_nothing (allFailed STATUS_CODES multi callback failures) i w)
      as (evs & Ht & Hq); [apply keeps_allFailed; auto|].
    exists evs. split; [simpl; lia|]. split; assumption.
  - cbn [attempt]. destruct (layer_truthy l); cbn [negb].
    2: { exists 0%nat.
         destruct (asks_nothing (allFailed STATUS_CODES multi callback failures) i w)
           as (evs & Ht & Hq); [apply keeps_allFailed; auto|].
         exists evs. split; [simpl; lia|]. split; assumption. }
    destruct (resolve passport l) as [s|].
    2: { exists 0%nat, [ENext (Some (ErrUnknownStrategy
           ("Unknown authentication strategy " +:+ dquote +:+ layer_text l +:+ dquote)))].
         split; [simpl; lia|]. split; reflexivity. }
    unfold bind. cbn [emit]. cbn [req options].
    assert (Sub : forall (m : M world unit),
              keeps (evolves (fun _ => True) false (fun e => negb (is_authenticate e))) m ->
              exists k evs, (k <= length (l :: rest))%nat
                /\ trace (final (m (World (options w) (req w) (statusCode w)
                                     (trace w ++ [EAuthenticate i]))))
                   = trace w ++ asked i k ++ evs
                /\ forallb (fun e => negb (is_authenticate e)) evs = true).
    { intros m Hm. destruct (Hm (World (options w) (req w) (statusCode w)
                                   (trace w ++ [EAuthenticate i])))
        as (_ & _ & evs & Ht & Hq).
      exists 1%nat, evs. split; [simpl; lia|]. split; [|exact Hq].
      rewrite Ht. cbn [trace]. rewrite <- app_assoc. reflexivity. }
    destruct (s (req w) (options w)) as [u info|c st|url st| |err].
    + apply Sub. apply keeps_success_any; auto.
    + destruct (IH (S i) (failures ++ [fail c st])
                  (World (options w) (req w) (statusCode w) (trace w ++ [EAuthenticate i])))
        as (k & evs & Hk & Ht & Hq).
      exists (S k), evs. split; [simpl; lia|]. split; [|exact Hq].
      rewrite Ht. cbn [trace]. unfold asked. cbn [seq map]. rewrite <- app_assoc.
      reflexivity.
    + apply Sub. apply keeps_strategy_redirect; auto.
    + apply Sub. unfold pass. apply keeps_emit. reflexivity.
    + apply Sub. unfold error_. destruct callback; apply keeps_emit; reflexivity.
Qed.

Lemma resolves_bind {A} (m : M world A) (k : A -> M world unit) :
  keeps (evolves (fun _ => True) false (fun e => negb (terminal e))) m ->
  (forall a, resolves (k a)) ->
  resolves (bind m k).
Proof.
  intros Hm Hk w. unfold bind. specialize (Hm w).
  destruct (m w) as [a w1|w1]; simpl in Hm; destruct Hm as (_ & _ & evs & Ht & Hq).
  - specialize (Hk a w1). destruct (k a w1) as [[] w2|w2]; simpl in *.
    + destruct Hk as (pre & e & Ht' & Hq' & He). exists (evs ++ pre), e.
      rewrite Ht', Ht, forallb_app, Hq, Hq', <- !app_assoc. auto.
    + destruct Hk as (pre & Ht' & Hq'). exists (evs ++ pre).
      rewrite Ht', Ht, forallb_app, Hq, Hq', <- !app_assoc. auto.
  - exists evs. auto.
Qed.

Lemma resolves_emit e : terminal e = true -> resolves (emit e).
Proof. intros He w. exists [], e. simpl. auto. Qed.

Lemma resolves_throw : resolves throw.
Proof. intros w. exists []. simpl. rewrite app_nil_r. auto. Qed.

Ltac quiet :=
  repeat first
    [ apply keeps_flash_block; [exact I | reflexivity]
    | apply keeps_message_block; reflexivity
    | apply keeps_emit; reflexivity
    | apply keeps_write_statusCode; reflexivity
    | keeps_step ].

Ltac resolves_step :=
  match goal with
  | |- resolves (bind _ _) => apply resolves_bind; [quiet | intros ?]
  | |- resolves (if ?b then _ else _) => destruct b
  | |- resolves (match ?x with _ => _ end) => destruct x
  | |- resolves (emit _) => apply resolves_emit; reflexivity
  | |- resolves throw => apply resolves_throw
  end.

Lemma resolves_redirect url : resolves (redirect url).
Proof. unfold redirect. repeat resolves_step. Qed.

Lemma resolves_complete : resolves complete.
Proof.
  unfold complete. repeat first [ apply resolves_redirect | resolves_step ].
Qed.

Lemma resolves_allFailed STATUS_CODES multi callback failures :
  resolves (allFailed STATUS_CODES multi callback failures).
Proof.
  unfold allFailed. repeat first [ apply resolves_redirect | resolves_step ].
Qed.

Lemma resolves_success logIn passport callback user info :
  resolves (success logIn passport callback user info).
Proof.
  unfold success. repeat first [ apply resolves_complete | resolves_step ].
Qed.

(** X7. A dispatch is resolved exactly once: when it completes, the last
    event it added is one of callback, [next], [res.redirect] and
    [res.end], and no earlier one is; when it throws, it added none. *)
Theorem dispatch_resolves_once STATUS_CODES logIn passport multi callback
    (chain : list layer) (i : nat) (failures : list failure) (w : world) :
  resolved_once w (attempt STATUS_CODES logIn passport multi callback chain i failures w).
Proof.
  revert i failures w. induction chain as [|l rest IH]; intros i failures.
  - apply resolves_allFailed.
  - change (resolves (attempt STATUS_CODES logIn passport multi callback (l :: rest) i failures)).
    cbn [attempt]. destruct (layer_truthy l); cbn [negb]; [|apply resolves_allFailed].
    destruct (resolve passport l) as [s|]; [|apply resolves_emit; reflexivity].
    apply resolves_bind; [quiet|]. intros _ w.
    destruct (s (req w) (options w)) as [u info|c st|url st| |err].
    + apply resolves_success.
    + apply IH.
    + revert w. change (resolves (strategy_redirect url st)). unfold strategy_redirect.
      repeat resolves_step.
    + apply resolves_emit. reflexivity.
    + revert w. change (resolves (error_ callback err)). unfold error_.
      repeat resolves_step.
Qed.



(** X9. When every strategy fails and a callback is given, the callback
    receives [(null, false, challenges, statuses)]: for an array of names
    the two arrays of all failures in chain order, for a single name the
    challenge and status of its one failure. *)
Theorem callback_receives_failures STATUS_CODES logIn passport
    (chain : list layer) (failures : list failure) (w : world) :
  Forall2 (fails_with passport w) chain failures ->
  handle STATUS_CODES logIn
    (authenticate passport (Many chain) (OptionsObject (options w)) true) w
  = Ok tt (after w (asked 0 (length chain) ++
                    [ECallback [VNull; VBool false;
                                array (map challenge failures);
                                array (map status failures)]]))
  /\ forall l f,
      chain = [l] -> failures = [f] ->
      handle STATUS_CODES logIn
        (authenticate passport (Single l) (OptionsObject (options w)) true) w
      = Ok tt (after w [EAuthenticate 0;
                        ECallback [VNull; VBool false; challenge f; status f]]).
Proof.
  intros Hall. split.
  - unfold handle, authenticate. cbn [m_name m_passport m_multi m_callback].
    rewrite (attempt_all_fail STATUS_CODES logIn passport true true w chain failures Hall).
    unfold allFailed. cbn [negb]. unfold emit, after. cbn. rewrite <- app_assoc. reflexivity.
  - intros l f -> ->.
    unfold handle, authenticate. cbn [m_name m_passport m_multi m_callback].
    rewrite (attempt_all_fail STATUS_CODES logIn passport false true w [l] [f] Hall).
    unfold allFailed. cbn [negb]. unfold emit, after. cbn. rewrite <- app_assoc. reflexivity.
Qed.

(** X10. A falsy entry ends the chain: after a prefix of failing
    strategies, the dispatch runs [allFailed] on the failures recorded so
    far and asks none of the entries behind the falsy one. *)
Theorem falsy_entry_ends_chain STATUS_CODES logIn passport multi callback
    (pre : list layer) (recorded : list failure) (l : layer) (rest : list layer) (w : world) :
  Forall2 (fails_with passport w) pre recorded ->
  layer_truthy l = false ->
  attempt STATUS_CODES logIn passport multi callback (pre ++ l :: rest) 0 [] w
  = allFailed STATUS_CODES multi callback recorded (after w (asked 0 (length pre))).
Proof.
  intros Hpre Hl.
  pose proof (attempt_failing_prefix STATUS_CODES logIn passport multi callback w pre recorded
                Hpre (l :: rest) 0%nat [] []) as E.
  rewrite after_nil in E. rewrite E. cbn [attempt]. rewrite Hl. reflexivity.
Qed.

(** X11. A strategy that redirects, passes or errors halts the chain at
    once.  [redirect] sets the status ([302] unless given), the headers
    [Location] and [Content-Length: 0] and ends the response; [pass] calls
    [next()]; [error] calls the callback with the error if there is one,
    otherwise [next(err)]. *)
Theorem decisive_verbs_halt_chain STATUS_CODES logIn passport multi callback
    (l : layer) (s : strategy) (rest : list layer) (i : nat) (failures : list failure)
    (w : world) :
  layer_truthy l = true ->
  resolve passport l = Some s ->
  let r := attempt STATUS_CODES logIn passport multi callback (l :: rest) i failures w in
  (forall url status,
      s (req w) (options w) = Redirect url status ->
      r = Ok tt (World (options w) (req w) (or status (VNum 302))
                   (trace w ++ [EAuthenticate i; ESetHeader "Location" url;
                                ESetHeader "Content-Length" (VStr "0"); EEnd None])))
  /\ (s (req w) (options w) = Pass ->
      r = Ok tt (after w [EAuthenticate i; ENext None]))
  /\ (forall err,
      s (req w) (options w) = Error err ->
      r = Ok tt (after w [EAuthenticate i;
                          if callback then ECallback [err]
                          else ENext (Some (ErrValue err))])).
Proof.
  intros Ht Hr r. subst r.
  rewrite (attempt_step STATUS_CODES logIn passport multi callback l rest i failures w s Ht Hr).
  repeat split.
  - intros url status ->. unfold strategy_redirect, bind, write_statusCode, emit. cbn.
    rewrite <- !app_assoc. reflexivity.
  - intros ->. unfold pass, emit, after. cbn. rewrite <- app_assoc. reflexivity.
  - intros err ->. unfold error_. destruct callback; unfold emit, after; cbn;
      rewrite <- app_assoc; reflexivity.
Qed.

(** X12. With [failureRedirect] and no callback, a chain in which every
    strategy fails ends in a redirect to that URL, through
    [req.session.save] when the session brings one; the status code is not
    touched and nothing but flash and message events precedes the
    redirect. *)
Theorem failure_redirect_replaces_response STATUS_CODES logIn passport multi
    (chain : list layer) (failures : list failure) (w w1 : world) :
  Forall2 (fails_with passport w) chain failures ->
  (flash_block "failureFlash" "error" (presented_challenge failures);;
   message_block "failureMessage" (presented_challenge failures))
    (after w (asked 0 (length chain))) = Ok tt w1 ->
  truthy (options w !!! "failureRedirect") = true ->
  attempt STATUS_CODES logIn passport multi false chain 0 [] w
  = Ok tt (after w1 (redirect_events (req w1 !!! "session")
                       (options w !!! "failureRedirect")))
  /\ statusCode w1 = statusCode w
  /\ exists evs,
      trace w1 = trace w ++ asked 0 (length chain) ++ evs
      /\ forallb notes evs = true.
Proof.
  intros Hall Hb Hr.
  pose proof (blocks_frame _ _ _ _ _ _ Hb) as Hf.
  assert (E : options w1 !!! "failureRedirect" = options w !!! "failureRedirect")
    by (apply (option_kept _ _ _ _ _ _ Hf); discriminate).
  destruct Hf as (_ & Hs & evs & Ht & Hq).
  split; [|split; [apply Hs; reflexivity|]].
  - rewrite (attempt_all_fail STATUS_CODES logIn passport multi false w chain failures Hall).
    unfold allFailed. fold (presented_challenge failures). unfold bind in *.
    destruct (flash_block "failureFlash" "error" (presented_challenge failures)
                (after w (asked 0 (length chain)))) as [[] wa|]; [|discriminate].
    destruct (message_block "failureMessage" (presented_challenge failures) wa)
      as [[] wb|]; [|discriminate].
    injection Hb as ->. unfold opt. rewrite E, Hr. apply redirect_run.
  - exists evs. split; [|exact Hq]. rewrite Ht. cbn [after trace].
    rewrite <- app_assoc. reflexivity.
Qed.

Lemma collect_rstatus_from (failures : list failure) (a : value) (l : list value) :
  let rstatus :=
    fst (fold_left
           (fun acc f =>
              (or (fst acc) (status f),
               if String.eqb (typeof (challenge f)) "string"
               then snd acc ++ [challenge f]
               else snd acc))
           failures (a, l)) in
  if truthy a then rstatus = a
  else if existsb (fun f => truthy (status f)) failures
       then rstatus = first_status failures
       else truthy rstatus = false.
Proof.
  revert a l. induction failures as [|f fs IH]; intros a l; cbn zeta; cbn [fold_left existsb].
  - destruct (truthy a) eqn:Ha; [reflexivity | exact Ha].
  - specialize (IH (or a (status f))
                  (if String.eqb (typeof (challenge f)) "string"
                   then l ++ [challenge f] else l)).
    cbn zeta in IH. cbn [fst snd]. unfold or in *.
    destruct (truthy a) eqn:Ha.
    + rewrite Ha in IH. exact IH.
    + unfold first_status. cbn [List.find].
      destruct (truthy (status f)) eqn:Hf; cbn [orb].
      * exact IH.
      * exact IH.
Qed.

(** X13. With [failWithError], no [failureRedirect] and no callback, a
    chain in which every strategy fails sets the status, then the
    challenge header if any, and calls [next] with an authentication error
    that carries the status text and the first truthy status of the
    failures (a falsy one when there is none, the response status then
    being [401]); the response is not ended. *)
Theorem fail_with_error_hands_over STATUS_CODES logIn passport multi
    (chain : list layer) (failures : list failure) (w w1 : world) :
  Forall2 (fails_with passport w) chain failures ->
  (flash_block "failureFlash" "error" (presented_challenge failures);;
   message_block "failureMessage" (presented_challenge failures))
    (after w (asked 0 (length chain))) = Ok tt w1 ->
  truthy (options w !!! "failureRedirect") = false ->
  truthy (options w !!! "failWithError") = true ->
  exists rstatus,
    attempt STATUS_CODES logIn passport multi false chain 0 [] w
    = Ok tt (World (options w1) (req w1) (first_status failures)
               (trace w1 ++ challenge_header failures ++
                [ENext (Some (ErrAuthentication (STATUS_CODES (first_status failures))
                                rstatus))]))
    /\ if existsb (fun f => truthy (status f)) failures
       then rstatus = first_status failures
       else truthy rstatus = false /\ first_status failures = VNum 401.
Proof.
  intros Hall Hb Hr He.
  pose proof (blocks_frame _ _ _ _ _ _ Hb) as Hf.
  assert (E1 : options w1 !!! "failureRedirect" = options w !!! "failureRedirect")
    by (apply (option_kept _ _ _ _ _ _ Hf); discriminate).
  assert (E2 : options w1 !!! "failWithError" = options w !!! "failWithError")
    by (apply (option_kept _ _ _ _ _ _ Hf); discriminate).
  exists (fst (collect failures)). split.
  - rewrite (attempt_all_fail STATUS_CODES logIn passport multi false w chain failures Hall).
    rewrite (allFailed_default STATUS_CODES multi failures _ w1 Hb)
      by (rewrite E1; exact Hr).
    rewrite E2, He. reflexivity.
  - pose proof (collect_rstatus_from failures VUndef []) as H. cbn zeta in H.
    cbn [truthy] in H. fold (collect failures) in H.
    destruct (existsb (fun f => truthy (status f)) failures) eqn:Hex; [exact H|].
    split; [exact H|].
    unfold first_status.
    destruct (List.find (fun f => truthy (status f)) failures) as [f|] eqn:Hfind;
      [|reflexivity].
    apply find_some in Hfind. destruct Hfind as [Hin Htr].
    assert (Hex' : existsb (fun f => truthy (status f)) failures = true)
      by (apply existsb_exists; eauto).
    rewrite Hex in Hex'. discriminate.
Qed.

(** X14. With a property name as [assignProperty] (a non-empty string
    other than [__proto__], which names no property of its own), a
    success stores the user under that property of the request and calls
    [next()]: [req.logIn] is not called, no auth info is attached and no
    redirect happens. *)
Theorem assign_property_bypasses_login logIn passport (user info : value)
    (name : string) (w w1 : world) :
  (flash_block "successFlash" "success" (or info empty_object);;
   message_block "successMessage" (or info empty_object)) w = Ok tt w1 ->
  options w !!! "assignProperty" = VStr name ->
  name <> "" ->
  name <> "__proto__" ->
  success logIn passport false user info w
  = Ok tt (World (options w1) (<[name := user]> (req w1))
             (statusCode w) (trace w1 ++ [ENext None]))
  /\ exists evs, trace w1 = trace w ++ evs /\ forallb notes evs = true.
Proof.
  intros Hb Ha Hn _.
  pose proof (blocks_frame _ _ _ _ _ _ Hb) as Hf.
  assert (E : options w1 !!! "assignProperty" = options w !!! "assignProperty")
    by (apply (option_kept _ _ _ _ _ _ Hf); discriminate).
  destruct Hf as (_ & Hs & evs & Ht & Hq).
  split; [|exists evs; split; assumption].
  rewrite (success_after_blocks logIn passport user info w w1 Hb).
  unfold bind, opt. rewrite E, Ha. cbn [truthy to_string].
  apply String.eqb_neq in Hn. rewrite Hn. unfold write_req, emit. cbn.
  rewrite (Hs eq_refl). reflexivity.
Qed.

(** X15. Without [assignProperty], a success throws when [req.logIn] is
    not a function; an error from [req.logIn], or else from
    [transformAuthInfo], goes to [next] and nothing further happens. *)
Theorem success_errors_go_to_next logIn passport (user info : value) (w w1 : world) :
  (flash_block "successFlash" "success" (or info empty_object);;
   message_block "successMessage" (or info empty_object)) w = Ok tt w1 ->
  truthy (options w1 !!! "assignProperty") = false ->
  let r := success logIn passport false user info w in
  let err := logIn user (options w1) (req w1) in
  let t := transformAuthInfo passport (or info empty_object) (req w1) in
  (String.eqb (typeof (req w1 !!! "logIn")) "function" = false -> r = Throws w1)
  /\ (String.eqb (typeof (req w1 !!! "logIn")) "function" = true ->
      (truthy err = true ->
       r = Ok tt (after w1 [ELogIn user; ENext (Some (ErrValue err))]))
      /\ (truthy err = false ->
          is_not_false (options w1 !!! "authInfo") = true ->
          truthy (fst t) = true ->
          r = Ok tt (after w1 [ELogIn user; ETransformAuthInfo (or info empty_object);
                               ENext (Some (ErrValue (fst t)))]))).
Proof.
  intros Hb Ha r err t. subst r err t.
  rewrite (success_after_blocks logIn passport user info w w1 Hb).
  unfold bind, opt, read_req, write_req, emit, throw, after. cbn. rewrite Ha.
  split; [intros ->; reflexivity|].
  intros ->. cbn. split.
  - intros ->. cbn. rewrite <- ?app_assoc. reflexivity.
  - intros -> Hi Ht. cbn [options req statusCode trace]. rewrite Hi.
    cbn [options req statusCode trace fst snd]. rewrite Ht.
    cbn [options req statusCode trace]. rewrite <- ?app_assoc. reflexivity.
Qed.

(** X16. After a [req.logIn] without error, [authInfo: false] goes
    straight on to [complete]; otherwise the transformed info is stored as
    [req.authInfo] before [complete] runs. *)
Theorem success_attaches_auth_info logIn passport (user info : value) (w w1 : world) :
  (flash_block "successFlash" "success" (or info empty_object);;
   message_block "successMessage" (or info empty_object)) w = Ok tt w1 ->
  truthy (options w1 !!! "assignProperty") = false ->
  String.eqb (typeof (req w1 !!! "logIn")) "function" = true ->
  truthy (logIn user (options w1) (req w1)) = false ->
  let r := success logIn passport false user info w in
  let t := transformAuthInfo passport (or info empty_object) (req w1) in
  (options w1 !!! "authInfo" = VBool false ->
   r = complete (after w1 [ELogIn user]))
  /\ (is_not_false (options w1 !!! "authInfo") = true ->
      truthy (fst t) = false ->
      r = complete (World (options w1) (<["authInfo" := snd t]> (req w1)) (statusCode w1)
                      (trace w1 ++ [ELogIn user; ETransformAuthInfo (or info empty_object)]))).
Proof.
  intros Hb Ha Hfn Hl r t. subst r t.
  rewrite (success_after_blocks logIn passport user info w w1 Hb).
  unfold bind, opt, read_req, write_req, emit, throw, after. cbn.
  rewrite Ha, Hfn. cbn [negb options req statusCode trace]. rewrite Hl.
  cbn [options req statusCode trace]. split.
  - intros ->. reflexivity.
  - intros Hi Ht. rewrite Hi. cbn [options req statusCode trace fst snd]. rewrite Ht.
    cbn [options req statusCode trace]. rewrite <- ?app_assoc. reflexivity.
Qed.

Lemma or_truthy a b : truthy a = true -> or a b = a.
Proof. intros H. unfold or. rewrite H. reflexivity. Qed.

Lemma truthy_or_r a b : truthy b = true -> truthy (or a b) = true.
Proof. intros H. unfold or. destruct (truthy a) eqn:E; assumption. Qed.

(** X17. A string given as flash option is the message flashed, under
    the default type, whatever the strategy supplied; the options are not
    written.  Without a [req.flash] function the block throws. *)
Theorem flash_string_overrides_strategy (key dflt m : string) (source : value) (w : world) :
  options w !!! key = VStr m ->
  m <> "" ->
  dflt <> "" ->
  flash_block key dflt source w
  = if String.eqb (typeof (req w !!! "flash")) "function"
    then Ok tt (after w [EFlash (VStr dflt) (VStr m)])
    else Throws w.
Proof.
  intros Ho Hm Hd.
  destruct m as [|a m]; [congruence|]. destruct dflt as [|b dflt]; [congruence|].
  unfold flash_block, bind, opt, ret, read_req, emit, after. rewrite Ho.
  cbn [truthy typeof String.eqb Ascii.eqb Bool.eqb negb set_prop prop or].
  rewrite !lookup_total_insert_eq.
  rewrite lookup_total_insert_ne by discriminate. rewrite lookup_total_insert_eq.
  cbn [truthy typeof String.eqb Ascii.eqb Bool.eqb negb set_prop prop or].
  destruct (String.eqb (typeof (req w !!! "flash")) "function"); reflexivity.
Qed.

(** X18. With the flash option [true], the type is the strategy's or
    the default and the message is the strategy's [message], or the value
    it supplied itself; a message that is no string is not flashed.  The
    options are not written. *)
Theorem flash_true_uses_strategy_info (key dflt : string) (source : value) (w : world) :
  options w !!! key = VBool true ->
  let type := or (prop source "type") (VStr dflt) in
  let msg := or (prop source "message") source in
  flash_block key dflt source w
  = if String.eqb (typeof msg) "string"
    then if String.eqb (typeof (req w !!! "flash")) "function"
         then Ok tt (after w [EFlash type msg])
         else Throws w
    else Ok tt w.
Proof.
  intros Ho type msg. subst type msg.
  unfold flash_block, bind, opt, ret, read_req, emit, after. rewrite Ho.
  cbn [truthy typeof String.eqb Ascii.eqb Bool.eqb negb prop or].
  destruct (String.eqb (typeof _) "string"); [|reflexivity].
  destruct (String.eqb (typeof (req w !!! "flash")) "function"); reflexivity.
Qed.

(** X19. With an object as flash option, the type flashed is the
    object's own or the default, never the strategy's; the object's
    message comes before the strategy's.  The type is written back into
    the options, also when nothing is flashed or the block throws. *)
Theorem flash_object_type_wins (key dflt : string) (props : gmap string value)
    (source : value) (w : world) :
  options w !!! key = VObj props ->
  dflt <> "" ->
  let type := or (props !!! "type") (VStr dflt) in
  let msg := or (or (props !!! "message") (prop source "message")) source in
  let w' := World (<[key := VObj (<["type" := type]> props)]> (options w))
              (req w) (statusCode w) (trace w) in
  flash_block key dflt source w
  = if String.eqb (typeof msg) "string"
    then if String.eqb (typeof (req w !!! "flash")) "function"
         then Ok tt (after w' [EFlash type msg])
         else Throws w'
    else Ok tt w'.
Proof.
  intros Ho Hd type msg w'. subst type msg w'.
  destruct dflt as [|b dflt]; [congruence|].
  unfold flash_block, bind, opt, ret, read_req, write_option, emit, after. rewrite Ho.
  cbn [truthy typeof String.eqb Ascii.eqb Bool.eqb negb set_prop prop or
       options req statusCode trace].
  rewrite lookup_total_insert_eq.
  rewrite lookup_total_insert_ne by discriminate.
  rewrite !(or_truthy (or (props !!! "type") (VStr (String b dflt))))
    by (apply truthy_or_r; reflexivity).
  destruct (String.eqb (typeof _) "string"); [|reflexivity].
  cbn [req]. destruct (String.eqb (typeof (req w !!! "flash")) "function"); reflexivity.
Qed.

(** X20. A non-zero number as flash option makes the block throw before
    anything is flashed: the assignment to its [type] is one to a
    primitive, in strict mode. *)
Theorem flash_number_throws (key dflt : string) (n : Z) (source : value) (w : world) :
  options w !!! key = VNum n ->
  n <> 0 ->
  flash_block key dflt source w = Throws w.
Proof.
  intros Ho Hn. apply Z.eqb_neq in Hn.
  unfold flash_block, bind, opt. rewrite Ho. cbn [truthy]. rewrite Hn. reflexivity.
Qed.



(** X22. With such a message option and no session on the request, the
    message block throws and leaves the world as it was. *)
Theorem message_without_session_throws (key m : string) (source : value) (w : world) :
  (options w !!! key = VStr m /\ m <> "")
  \/ (options w !!! key = VBool true /\ or (prop source "message") source = VStr m) ->
  truthy (req w !!! "session") = false ->
  message_block key source w = Throws w.
Proof.
  intros Ho Hs.
  assert (E : message_block key source w
              = (let* messages := read_session "messages" in
                 write_session "messages" (or messages (array []));;
                 let* messages := read_session "messages" in
                 match messages with
                 | VArr elems props => write_session "messages" (VArr (elems ++ [VStr m]) props)
                 | _ => if String.eqb (typeof (prop messages "push")) "function"
                        then emit (EPush (VStr m))
                        else throw
                 end) w).
  { unfold message_block. unfold bind at 1, opt at 1.
    destruct Ho as [[-> Hm]|[-> ->]].
    - destruct m as [|a m]; [congruence|]. reflexivity.
    - reflexivity. }
  rewrite E. clear E Ho.
  unfold read_session, write_session, bind, read_req, write_req, ret.
  destruct (req w !!! "session") as [| |b|n|s| | |] eqn:E; try discriminate;
    rewrite ?E; reflexivity.
Qed.

Lemma prop_set_prop v p x v' : set_prop v p x = Some v' -> prop v' p = x.
Proof.
  destruct v; simpl; intros H; try discriminate; injection H as <-; simpl;
    apply lookup_total_insert_eq.
Qed.

Lemma set_prop_same v p x v' :
  set_prop v p x = Some v' -> set_prop v' p x = Some v'.
Proof.
  destruct v; simpl; intros H; try discriminate; injection H as <-; simpl;
    rewrite insert_insert_eq; reflexivity.
Qed.

(** Once the flash object under [key] has had its type defaulted, a second
    defaulting stores the same object. *)
Lemma flash_defaulted_again key dflt w w1 w2 w3 :
  dflt <> "" ->
  flash_defaulted key dflt w w1 ->
  options w2 = options w1 ->
  flash_defaulted key dflt w2 w3 ->
  options w3 = options w2.
Proof.
  intros Hd (f1 & S1 & O1) E (f2 & S2 & O2).
  assert (Hk : options w2 !!! key = f1).
  { rewrite E, O1. apply lookup_total_insert_eq. }
  rewrite Hk in S2.
  assert (Ht : truthy (prop f1 "type") = true).
  { rewrite (prop_set_prop _ _ _ _ S1). apply truthy_or_r.
    destruct dflt; [congruence | reflexivity]. }
  rewrite (or_truthy _ _ Ht), (prop_set_prop _ _ _ _ S1) in S2.
  pose proof (set_prop_same _ _ _ _ S1) as S3.
  assert (f2 = f1) by congruence. subst f2.
  rewrite O2, E, O1. apply insert_insert_eq.
Qed.

(** X23. Over two dispatches that share the options object, each option
    is written at most once: one that the first dispatch changed is left
    as it is by the second, whatever the chains and the requests. *)
Theorem options_written_once
    STATUS_CODES logIn passport multi callback (chain : list layer) (i : nat)
    (failures : list failure) (w : world)
    STATUS_CODES' logIn' passport' multi' callback' (chain' : list layer) (i' : nat)
    (failures' : list failure) (req' : gmap string value) (statusCode' : value)
    (trace' : list event) (k : string) :
  let w1 := final (attempt STATUS_CODES logIn passport multi callback chain i failures w) in
  let w2 := World (options w1) req' statusCode' trace' in
  let w3 := final (attempt STATUS_CODES' logIn' passport' multi' callback' chain' i'
                     failures' w2) in
  options w3 !! k = options w2 !! k \/ options w1 !! k = options w !! k.
Proof.
  intros w1 w2 w3.
  pose proof (attempt_options STATUS_CODES logIn passport multi callback chain i failures w)
    as H1.
  pose proof (attempt_options STATUS_CODES' logIn' passport' multi' callback' chain' i'
                failures' w2) as H2.
  cbv zeta in H1, H2. fold w1 in H1. fold w3 in H2.
  destruct H2 as [H2|H2]; [left; rewrite H2; reflexivity|].
  destruct H1 as [H1|H1]; [right; rewrite H1; reflexivity|].
  destruct H1 as [H1|H1], H2 as [H2|H2].
  - left. rewrite (flash_defaulted_again "failureFlash" "error" w w1 w2 w3);
      [reflexivity | discriminate | exact H1 | reflexivity | exact H2].
  - destruct H1 as (f1 & _ & O1), H2 as (f2 & _ & O2).
    destruct (decide (k = "successFlash")) as [->|Hk].
    + right. rewrite O1. apply lookup_insert_ne. discriminate.
    + left. rewrite O2. apply lookup_insert_ne. congruence.
  - destruct H1 as (f1 & _ & O1), H2 as (f2 & _ & O2).
    destruct (decide (k = "failureFlash")) as [->|Hk].
    + right. rewrite O1. apply lookup_insert_ne. discriminate.
    + left. rewrite O2. apply lookup_insert_ne. congruence.
  - left. rewrite (flash_defaulted_again "successFlash" "success" w w1 w2 w3);
      [reflexivity | discriminate | exact H1 | reflexivity | exact H2].
Qed.

Ltac fails_here := repeat econstructor.

Lemma callback_receives_failures_witness :
  handle status_text login_ok
    (authenticate bare_passport (Many [Instance fails_basic; Instance fails_bearer])
       (OptionsObject ∅) true)
    (sample_world ∅)
  = Ok tt (after (sample_world ∅)
             [EAuthenticate 0; EAuthenticate 1;
              ECallback [VNull; VBool false;
                         array [VStr "basic"; VStr "bearer"];
                         array [VNum 401; VNum 401]]]).
Proof.
  destruct (callback_receives_failures status_text login_ok bare_passport
              [Instance fails_basic; Instance fails_bearer]
              [Failure (VStr "basic") (VNum 401); Failure (VStr "bearer") (VNum 401)]
              (sample_world ∅)) as [H _]; [fails_here|].
  exact H.
Defined.

Lemma falsy_entry_ends_chain_witness :
  attempt status_text login_ok bare_passport true false
    ([Instance fails_basic] ++ Name "" :: [Instance (succeeds (VStr "U"))]) 0 []
    (sample_world ∅)
  = allFailed status_text true false [Failure (VStr "basic") (VNum 401)]
      (after (sample_world ∅) (asked 0 1)).
Proof.
  apply (falsy_entry_ends_chain status_text login_ok bare_passport true false
           [Instance fails_basic] [Failure (VStr "basic") (VNum 401)]
           (Name "") [Instance (succeeds (VStr "U"))] (sample_world ∅));
    [fails_here | reflexivity].
Defined.

Lemma decisive_verbs_halt_chain_witness :
  attempt status_text login_ok bare_passport true false
    [Instance (redirects (VStr "/idp")); Instance fails_basic] 0 [] (sample_world ∅)
  = Ok tt (World ∅ sample_req (VNum 302)
             [EAuthenticate 0; ESetHeader "Location" (VStr "/idp");
              ESetHeader "Content-Length" (VStr "0"); EEnd None]).
Proof.
  destruct (decisive_verbs_halt_chain status_text login_ok bare_passport true false
              (Instance (redirects (VStr "/idp"))) (redirects (VStr "/idp"))
              [Instance fails_basic] 0 [] (sample_world ∅))
    as (H & _ & _); [reflexivity | reflexivity |].
  exact (H (VStr "/idp") VUndef eq_refl).
Defined.

Lemma failure_redirect_replaces_response_witness :
  attempt status_text login_ok bare_passport false false [Instance fails_basic] 0 []
    (sample_world {[ "failureRedirect" := VStr "/login" ]})
  = Ok tt (after (sample_world {[ "failureRedirect" := VStr "/login" ]})
             [EAuthenticate 0; EResRedirect (VStr "/login")]).
Proof.
  destruct (failure_redirect_replaces_response status_text login_ok bare_passport false
              [Instance fails_basic] [Failure (VStr "basic") (VNum 401)]
              (sample_world {[ "failureRedirect" := VStr "/login" ]})
              (after (sample_world {[ "failureRedirect" := VStr "/login" ]}) (asked 0 1)))
    as (H & _); [fails_here | reflexivity | reflexivity |].
  exact H.
Defined.

Lemma fail_with_error_hands_over_witness :
  exists rstatus,
    attempt status_text login_ok bare_passport false false [Instance fails_basic] 0 []
      (sample_world {[ "failWithError" := VBool true ]})
    = Ok tt (World {[ "failWithError" := VBool true ]} sample_req (VNum 401)
               [EAuthenticate 0;
                ESetHeader "WWW-Authenticate" (array [VStr "basic"]);
                ENext (Some (ErrAuthentication (VStr "Unauthorized") rstatus))])
    /\ rstatus = VNum 401.
Proof.
  destruct (fail_with_error_hands_over status_text login_ok bare_passport false
              [Instance fails_basic] [Failure (VStr "basic") (VNum 401)]
              (sample_world {[ "failWithError" := VBool true ]})
              (after (sample_world {[ "failWithError" := VBool true ]}) (asked 0 1)))
    as (rstatus & H1 & H2); [fails_here | reflexivity | reflexivity | reflexivity |].
  exists rstatus. split; [exact H1 | exact H2].
Defined.

Lemma assign_property_bypasses_login_witness :
  success login_ok bare_passport false (VStr "U") VUndef
    (sample_world {[ "assignProperty" := VStr "account" ]})
  = Ok tt (World {[ "assignProperty" := VStr "account" ]}
             (<["account" := VStr "U"]> sample_req) (VNum 200) [ENext None]).
Proof.
  destruct (assign_property_bypasses_login login_ok bare_passport (VStr "U") VUndef
              "account"
              (sample_world {[ "assignProperty" := VStr "account" ]})
              (sample_world {[ "assignProperty" := VStr "account" ]}))
    as (H & _); [reflexivity | reflexivity | discriminate | discriminate |].
  exact H.
Defined.

Lemma success_errors_go_to_next_witness :
  success login_fails bare_passport false (VStr "U") VUndef (sample_world ∅)
  = Ok tt (after (sample_world ∅)
             [ELogIn (VStr "U"); ENext (Some (ErrValue (VStr "session store down")))]).
Proof.
  destruct (success_errors_go_to_next login_fails bare_passport (VStr "U") VUndef
              (sample_world ∅) (sample_world ∅))
    as (_ & H); [reflexivity | reflexivity |].
  destruct (H eq_refl) as (H1 & _). exact (H1 eq_refl).
Defined.

Lemma success_attaches_auth_info_witness :
  success login_ok bare_passport false (VStr "U") (VObj {[ "scope" := VStr "read" ]})
    (sample_world ∅)
  = complete (World ∅ (<["authInfo" := VObj {[ "scope" := VStr "read" ]}]> sample_req)
                (VNum 200)
                [ELogIn (VStr "U");
                 ETransformAuthInfo (VObj {[ "scope" := VStr "read" ]})]).
Proof.
  destruct (success_attaches_auth_info login_ok bare_passport (VStr "U")
              (VObj {[ "scope" := VStr "read" ]}) (sample_world ∅) (sample_world ∅))
    as (_ & H); [reflexivity | reflexivity | reflexivity | reflexivity |].
  exact (H eq_refl eq_refl).
Defined.

Lemma flash_string_overrides_strategy_witness :
  flash_block "failureFlash" "error" (VObj {[ "message" := VStr "bad password" ]})
    (sample_world {[ "failureFlash" := VStr "Invalid" ]})
  = Ok tt (after (sample_world {[ "failureFlash" := VStr "Invalid" ]})
             [EFlash (VStr "error") (VStr "Invalid")]).
Proof.
  apply (flash_string_overrides_strategy "failureFlash" "error" "Invalid"
           (VObj {[ "message" := VStr "bad password" ]})
           (sample_world {[ "failureFlash" := VStr "Invalid" ]}));
    [reflexivity | discriminate | discriminate].
Defined.

Lemma flash_true_uses_strategy_info_witness :
  flash_block "failureFlash" "error"
    (VObj {[ "type" := VStr "warn"; "message" := VStr "bad password" ]})
    (sample_world {[ "failureFlash" := VBool true ]})
  = Ok tt (after (sample_world {[ "failureFlash" := VBool true ]})
             [EFlash (VStr "warn") (VStr "bad password")]).
Proof.
  rewrite (flash_true_uses_strategy_info "failureFlash" "error"
             (VObj {[ "type" := VStr "warn"; "message" := VStr "bad password" ]})
             (sample_world {[ "failureFlash" := VBool true ]})) by reflexivity.
  vm_compute. reflexivity.
Defined.

Lemma flash_object_type_wins_witness :
  flash_block "failureFlash" "error"
    (VObj {[ "type" := VStr "warn"; "message" := VStr "bad password" ]})
    (sample_world {[ "failureFlash" := VObj {[ "message" := VStr "nope" ]} ]})
  = Ok tt (World {[ "failureFlash" :=
                      VObj {[ "type" := VStr "error"; "message" := VStr "nope" ]} ]}
             sample_req (VNum 200) [EFlash (VStr "error") (VStr "nope")]).
Proof.
  rewrite (flash_object_type_wins "failureFlash" "error" {[ "message" := VStr "nope" ]}
             (VObj {[ "type" := VStr "warn"; "message" := VStr "bad password" ]})
             (sample_world {[ "failureFlash" := VObj {[ "message" := VStr "nope" ]} ]}));
    [|reflexivity | discriminate].
  vm_compute. reflexivity.
Defined.

Lemma flash_number_throws_witness :
  flash_block "failureFlash" "error" VUndef (sample_world {[ "failureFlash" := VNum 1 ]})
  = Throws (sample_world {[ "failureFlash" := VNum 1 ]}).
Proof.
  apply (flash_number_throws "failureFlash" "error" 1 VUndef
           (sample_world {[ "failureFlash" := VNum 1 ]})); [reflexivity | discriminate].
Defined.


Lemma message_without_session_throws_witness :
  message_block "failureMessage" VUndef
    (World {[ "failureMessage" := VStr "Invalid" ]} ∅ (VNum 200) [])
  = Throws (World {[ "failureMessage" := VStr "Invalid" ]} ∅ (VNum 200) []).
Proof.
  apply (message_without_session_throws "failureMessage" "Invalid" VUndef
           (World {[ "failureMessage" := VStr "Invalid" ]} ∅ (VNum 200) []));
    [left; split; [reflexivity | discriminate] | reflexivity].
Defined.

End AuthenticateProofs.

(** * What the middleware writes *)

Module AuthenticateHeapProofs.
Import AuthenticateHeap.

(** ** Steps that keep an invariant of the objects *)













(** ** Objects and addresses *)





Section Frame.

Variable STATUS_CODES : value -> value.
Variable logIn : value -> gmap loc object -> value.
Variable to_property_key : gmap loc object -> value -> option string.
Variable passport : Passport.
Variable multi : bool.
Variable callback : bool.
Variable options : loc.
Variable req : loc.

(** The objects the dispatch started with. *)
Variable h0 : gmap loc object.
Hypothesis req_allocated : is_Some (h0 !! req).
Hypothesis options_allocated : is_Some (h0 !! options).

(** What the configuration is to look like. *)
Variable E : gmap loc object.













(** ** The blocks that follow the flash block *)






(** ** The flash block *)








(** ** The procedures *)







End Frame.

(** ** The dispatch *)





End AuthenticateHeapProofs.
